(** * Voicebox backend: reference-segment selection, reference policy and
      recording-task tracking

    A shallow embedding of

    - [backend/utils/audio.py]: [compute_quality_metrics] and
      [select_best_reference_segment];
    - [backend/config.py]: [VoiceCloneReferencePolicy], its validator and
      loader;
    - [backend/utils/tasks.py]: [TaskManager], with its download,
      generation and recording-processing registries.

    Python [float]s are IEEE-754 binary64 values and are modelled by Rocq's
    primitive floats; Python [int]s are [Z]; exceptions are values of
    [result].  Sample buffers are one-dimensional float64 arrays, modelled
    as [list float]. *)

From Stdlib Require Import ZArith List Permutation String Ascii Bool Lia.
From Stdlib Require Import Floats.
From Stdlib Require Import Reals Lra.
Import ListNotations.

Set Warnings "-inexact-float".

Local Open Scope Z_scope.

(* ================================================================== *)
(** * Python runtime model *)
(* ================================================================== *)

(** ** Exceptions *)

Inductive exn : Type :=
| ValueError (msg : string)
| OverflowError (msg : string)
| ZeroDivisionError (msg : string).

Inductive result (A : Type) : Type :=
| Ok (a : A)
| Raise (e : exn).

Arguments Ok {A} a.
Arguments Raise {A} e.

Definition bind {A B : Type} (r : result A) (k : A -> result B) : result B :=
  match r with
  | Ok a => k a
  | Raise e => Raise e
  end.

Notation "x <- r ;; k" := (bind r (fun x => k))
  (at level 61, r at next level, right associativity).
Notation "' pat <- r ;; k" := (bind r (fun x => match x with pat => k end))
  (at level 61, pat pattern, r at next level, right associativity).

(** ** binary64 numbers *)

Module B64.

(** [float(n)] for an integer that is known to fit: the nearest binary64
    value, ties to even. *)
Definition of_Z (z : Z) : float :=
  SF2Prim (binary_normalize prec emax z 0 false).

(** [float(n)] for an arbitrary Python [int]. *)
Definition py_float_of_int (z : Z) : result float :=
  let f := of_Z z in
  if is_infinity f
  then Raise (OverflowError "int too large to convert to float")
  else Ok f.

(** The correctly rounded quotient of two positive integers: the quotient
    is computed with at least 56 significant bits and a sticky bit, then
    rounded once. *)
Definition div_pos (a b : Z) : spec_float :=
  let k := Z.max 0 (Z.log2 b + 56 - Z.log2 a) in
  let n := Z.shiftl a k in
  let q := n / b in
  let sticky := if (n mod b =? 0) then 0 else 1 in
  binary_normalize prec emax (2 * q + sticky) (- k - 1) false.

Definition div_Z (a b : Z) : float :=
  let neg := xorb (a <? 0) (b <? 0) in
  if a =? 0 then (if neg then neg_zero else zero)
  else
    let q := SF2Prim (div_pos (Z.abs a) (Z.abs b)) in
    if neg then (- q)%float else q.

(** [a / b] on Python [int]s (true division).  The [OverflowError] of a
    quotient beyond the binary64 range needs [|a| >= 2^1024 * |b|]; every
    numerator below is an array size or offset, so that branch is left
    out. *)
Definition py_truediv (a b : Z) : result float :=
  if b =? 0 then Raise (ZeroDivisionError "division by zero")
  else Ok (div_Z a b).

(** [int(x)]: the integer part, towards zero. *)
Definition py_int (x : float) : result Z :=
  match Prim2SF x with
  | S754_nan => Raise (ValueError "cannot convert float NaN to integer")
  | S754_infinity _ =>
      Raise (OverflowError "cannot convert float infinity to integer")
  | S754_zero _ => Ok 0
  | S754_finite s m e =>
      let v := if 0 <=? e then Z.shiftl (Zpos m) e
               else Z.shiftr (Zpos m) (- e) in
      Ok (if s then - v else v)
  end.

(** [round(x)] with one argument: the nearest integer, ties to even. *)
Definition py_round (x : float) : result Z :=
  match Prim2SF x with
  | S754_nan => Raise (ValueError "cannot convert float NaN to integer")
  | S754_infinity _ =>
      Raise (OverflowError "cannot convert float infinity to integer")
  | S754_zero _ => Ok 0
  | S754_finite s m e =>
      let v :=
        if 0 <=? e then Z.shiftl (Zpos m) e
        else
          let d := Z.shiftl 1 (- e) in
          let q := Zpos m / d in
          let r2 := 2 * (Zpos m mod d) in
          if r2 <? d then q
          else if d <? r2 then q + 1
          else if Z.even q then q else q + 1 in
      Ok (if s then - v else v)
  end.

(** [c <= h] for an [int] and a [float]: Python compares the two exactly,
    so the integer is compared with the floor of [h]. *)
Definition int_le (c : Z) (h : float) : bool :=
  match Prim2SF h with
  | S754_nan => false
  | S754_infinity s => negb s
  | S754_zero _ => c <=? 0
  | S754_finite false m e =>
      if 0 <=? e then c <=? Z.shiftl (Zpos m) e
      else c <=? Z.shiftr (Zpos m) (- e)
  | S754_finite true m e =>
      if 0 <=? e then c <=? - Z.shiftl (Zpos m) e
      else c <=? - (Z.shiftr (Zpos m - 1) (- e) + 1)
  end.

(** Comparison operators of Python on floats. *)
Definition ge (x y : float) : bool := (y <=? x)%float.
Definition gt (x y : float) : bool := (y <? x)%float.
Definition ne (x y : float) : bool := negb (x =? y)%float.

End B64.

(** ** Arithmetic used by the scoring formula

    The scoring code of [select_best_reference_segment] only adds,
    subtracts, multiplies, divides and compares.  It is written once over
    this interface and read at binary64 (what the program computes) and at
    the real numbers (exact arithmetic). *)

Class Arith (F : Type) : Type := {
  f_add : F -> F -> F;
  f_sub : F -> F -> F;
  f_mul : F -> F -> F;
  f_div : F -> F -> F;
  f_ltb : F -> F -> bool;
  f_leb : F -> F -> bool;
  (** [f_dec m e] is the decimal literal [m * 10^e]. *)
  f_dec : Z -> Z -> F
}.

#[global] Instance Arith_b64 : Arith float := {
  f_add := PrimFloat.add;
  f_sub := PrimFloat.sub;
  f_mul := PrimFloat.mul;
  f_div := PrimFloat.div;
  f_ltb := PrimFloat.ltb;
  f_leb := PrimFloat.leb;
  f_dec m e := if 0 <=? e then B64.of_Z (m * 10 ^ e)
               else B64.div_Z m (10 ^ (- e))
}.



(** [max(a, b)] and [min(a, b)] of Python: the first argument is kept
    unless the second is strictly better. *)
Definition py_max2 {F} `{Arith F} (a b : F) : F := if f_ltb a b then b else a.
Definition py_min2 {F} `{Arith F} (a b : F) : F := if f_ltb b a then b else a.

(* ================================================================== *)
(** * backend/utils/audio.py *)
(* ================================================================== *)

(** The dictionary returned by [compute_quality_metrics]. *)
Record QualityMetrics (F : Type) : Type := mkMetrics {
  duration_seconds : F;
  rms : F;
  silence_ratio : F;
  clipping_ratio : F;
  peak_abs : F
}.

Arguments mkMetrics {F}.
Arguments duration_seconds {F}.
Arguments rms {F}.
Arguments silence_ratio {F}.
Arguments clipping_ratio {F}.
Arguments peak_abs {F}.

(** [metrics["duration_seconds"] = d] *)
Definition set_duration {F} (m : QualityMetrics F) (d : F) : QualityMetrics F :=
  mkMetrics d (rms m) (silence_ratio m) (clipping_ratio m) (peak_abs m).

Section Scoring.
Context {F : Type} `{Arith F}.

(** [rms_norm_denom = max(min_rms * 2.0, 1e-8)] *)
Definition rms_norm_denom (min_rms : F) : F :=
  py_max2 (f_mul min_rms (f_dec 2 0)) (f_dec 1 (-8)).

(** The [eligible] flag of a window. *)
Definition eligible_of (m : QualityMetrics F)
           (min_rms max_silence_ratio max_clipping_ratio : F) : bool :=
  f_leb min_rms (rms m)
  && f_leb (silence_ratio m) max_silence_ratio
  && f_leb (clipping_ratio m) max_clipping_ratio.

(** [normalized_rms = min(metrics["rms"] / rms_norm_denom, 1.5)] *)
Definition normalized_rms (m : QualityMetrics F) (min_rms : F) : F :=
  py_min2 (f_div (rms m) (rms_norm_denom min_rms)) (f_dec 15 (-1)).

(** The weighted score before the penalty. *)
Definition raw_score (m : QualityMetrics F) (min_rms : F) : F :=
  f_add
    (f_add (f_mul (f_sub (f_dec 1 0) (silence_ratio m)) (f_dec 45 (-2)))
           (f_mul (normalized_rms m min_rms) (f_dec 40 (-2))))
    (f_mul (f_sub (f_dec 1 0) (clipping_ratio m)) (f_dec 15 (-2))).

(** The score stored in the candidate: [score -= 1.0] when the window is
    not eligible. *)
Definition score_of (m : QualityMetrics F)
           (min_rms max_silence_ratio max_clipping_ratio : F) : F :=
  let score := raw_score m min_rms in
  if eligible_of m min_rms max_silence_ratio max_clipping_ratio
  then score
  else f_sub score (f_dec 1 0).

End Scoring.

(** ** numpy on one-dimensional float64 arrays *)

Module Np.

Local Open Scope float_scope.

(** [np.abs(a)] and [a**2], element by element. *)
Definition abs (a : list float) : list float := map PrimFloat.abs a.
Definition square (a : list float) : list float := map (fun x => x * x) a.

(** [a.sum()]: the reduction starts from the first element.  numpy adds
    long arrays pairwise, which can change the last bits of the result;
    every property below holds for either order, and the concrete buffers
    used below have sums that are exact in any order. *)
Definition sum (a : list float) : float :=
  match a with
  | [] => 0
  | x :: t => fold_left PrimFloat.add t x
  end.

(** [np.mean(a)] of a float64 array. *)
Definition mean (a : list float) : float :=
  sum a / B64.of_Z (Z.of_nat (List.length a)).

(** [np.mean(mask)] of a boolean array: the number of [True] entries over
    the size. *)
Definition mean_bool (mask : list bool) : float :=
  B64.of_Z (Z.of_nat (count_occ bool_dec mask true))
  / B64.of_Z (Z.of_nat (List.length mask)).

(** [np.maximum], which propagates NaN, and [a.max()]. *)
Definition maximum (x y : float) : float :=
  if is_nan x then x else if is_nan y then y else if x <? y then y else x.

Definition max (a : list float) : float :=
  match a with
  | [] => nan
  | x :: t => fold_left maximum t x
  end.

(** [a[start:stop]] for [0 <= start]. *)
Definition slice {A} (a : list A) (start stop : Z) : list A :=
  firstn (Z.to_nat (stop - start)) (skipn (Z.to_nat start) a).

End Np.

(** [range(start, stop, step)] for a positive [step]. *)
Definition py_range (start stop step : Z) : list Z :=
  map (fun i => start + Z.of_nat i * step)
      (seq 0 (Z.to_nat ((stop - start + step - 1) / step))).

(** [max(iterable, key=...)]: the first element whose key no later element
    beats. *)
Fixpoint max_from {A K} (gt : K -> K -> bool) (key : A -> K)
         (best : A) (l : list A) : A :=
  match l with
  | [] => best
  | x :: t => max_from gt key (if gt (key x) (key best) then x else best) t
  end.

Definition py_max_key {A K} (gt : K -> K -> bool) (key : A -> K)
           (l : list A) : result A :=
  match l with
  | [] => Raise (ValueError "max() arg is an empty sequence")
  | x :: t => Ok (max_from gt key x t)
  end.

(** [a > b] on tuples of three floats: the first position where the two
    differ (by [!=]) decides. *)
Definition tuple3_gt (a b : float * float * float) : bool :=
  let '(a1, a2, a3) := a in
  let '(b1, b2, b3) := b in
  if B64.ne a1 b1 then B64.gt a1 b1
  else if B64.ne a2 b2 then B64.gt a2 b2
  else if B64.ne a3 b3 then B64.gt a3 b3
  else false.

Fixpoint map_result {A B} (f : A -> result B) (l : list A) : result (list B) :=
  match l with
  | [] => Ok []
  | x :: t => y <- f x ;; ys <- map_result f t ;; Ok (y :: ys)
  end.

(** ** compute_quality_metrics *)

Definition default_silence_threshold : float := 0.01%float.
Definition default_clipping_threshold : float := 0.99%float.

Definition compute_quality_metrics (audio : list float)
           (silence_threshold clipping_threshold : float)
  : QualityMetrics float :=
  match audio with
  | [] => mkMetrics 0%float 0%float 1%float 1%float 0%float
  | _ :: _ =>
      let abs_audio := Np.abs audio in
      let rms := PrimFloat.sqrt (Np.mean (Np.square audio)) in
      let silence_ratio :=
        Np.mean_bool (map (fun x => (x <=? silence_threshold)%float) abs_audio) in
      let clipping_ratio :=
        Np.mean_bool (map (fun x => B64.ge x clipping_threshold) abs_audio) in
      let peak_abs := Np.max abs_audio in
      mkMetrics (B64.of_Z (Z.of_nat (List.length audio)))
                rms silence_ratio clipping_ratio peak_abs
  end.

(** ** select_best_reference_segment *)

(** The metadata dictionary returned with the selected samples. *)
Record SelectionMeta : Type := mkMeta {
  selected_start_ms : Z;
  selected_end_ms : Z;
  source_duration_ms : Z;
  metrics : QualityMetrics float;
  fallback_reason : option string;
  policy_version : string
}.

(** One entry of the [candidates] list. *)
Record Candidate : Type := mkCandidate {
  cand_start : Z;
  cand_end : Z;
  cand_eligible : bool;
  cand_score : float;
  cand_metrics : QualityMetrics float
}.

Definition no_segment_met_quality_thresholds : string :=
  "no_segment_met_quality_thresholds".

(** [max(1, int(seconds * sample_rate))], used for the window and for the
    step. *)
Definition samples_of_seconds (seconds : float) (sample_rate : Z) : result Z :=
  rate <- B64.py_float_of_int sample_rate ;;
  n <- B64.py_int (seconds * rate)%float ;;
  Ok (Z.max 1 n).

(** Lines 177-178: the window length in samples. *)
Definition window_samples (recommended_target_seconds : float)
           (sample_rate : Z) (size : Z) : result Z :=
  w <- samples_of_seconds recommended_target_seconds sample_rate ;;
  Ok (Z.min w size).

(** [int(seconds * 1000)] *)
Definition ms_of_seconds (seconds : float) : result Z :=
  B64.py_int (seconds * B64.of_Z 1000)%float.

(** [int(offset / sample_rate * 1000)] *)
Definition ms_of_offset (offset sample_rate : Z) : result Z :=
  q <- B64.py_truediv offset sample_rate ;;
  ms_of_seconds q.

(** Lines 196-199: the start offsets of the scanned windows.  The range
    starts at 0 and [last_start >= 1] on this path, so [starts[-1]] exists. *)
Definition candidate_starts (last_start step_samples : Z) : list Z :=
  let starts := py_range 0 (last_start + 1) step_samples in
  if (last starts 0 =? last_start) then starts else starts ++ [last_start].

(** Lines 205-235: the body of the scan loop. *)
Definition score_window (audio : list float) (sample_rate window : Z)
           (min_rms max_silence_ratio max_clipping_ratio : float)
           (start : Z) : result Candidate :=
  let stop := start + window in
  let segment := Np.slice audio start stop in
  let metrics0 :=
    compute_quality_metrics segment
      default_silence_threshold default_clipping_threshold in
  d <- B64.py_truediv (Z.of_nat (List.length segment)) sample_rate ;;
  let metrics := set_duration metrics0 d in
  Ok (mkCandidate start stop
        (eligible_of metrics min_rms max_silence_ratio max_clipping_ratio)
        (score_of metrics min_rms max_silence_ratio max_clipping_ratio)
        metrics).

(** Lines 194-235: the candidates of one scan, in the order of their
    start offsets. *)
Definition scan_candidates (audio : list float) (sample_rate window : Z)
           (min_rms max_silence_ratio max_clipping_ratio : float)
           (step_samples : Z) : result (list Candidate) :=
  let last_start := Z.of_nat (List.length audio) - window in
  let starts := candidate_starts last_start step_samples in
  map_result
    (score_window audio sample_rate window
       min_rms max_silence_ratio max_clipping_ratio)
    starts.

(** The two [key=] functions of lines 243 and 250. *)
Definition eligible_key (c : Candidate) : float * float * float :=
  (cand_score c,
   (- silence_ratio (cand_metrics c))%float,
   rms (cand_metrics c)).

Definition fallback_key (c : Candidate) : float * float * float :=
  ((- silence_ratio (cand_metrics c))%float,
   rms (cand_metrics c),
   (- clipping_ratio (cand_metrics c))%float).

(** Lines 237-252: the chosen candidate and the fallback reason. *)
Definition choose_best (candidates : list Candidate)
  : result (Candidate * option string) :=
  let eligible_candidates := filter cand_eligible candidates in
  match eligible_candidates with
  | _ :: _ =>
      best <- py_max_key tuple3_gt eligible_key eligible_candidates ;;
      Ok (best, None)
  | [] =>
      best <- py_max_key tuple3_gt fallback_key candidates ;;
      Ok (best, Some no_segment_met_quality_thresholds)
  end.

Definition select_best_reference_segment
           (audio : list float) (sample_rate : Z)
           (recommended_target_seconds min_rms max_silence_ratio
              max_clipping_ratio selection_step_seconds : float)
           (policy_version : string)
  : result (list float * SelectionMeta) :=
  let size := Z.of_nat (List.length audio) in
  if (size =? 0) then
    Raise (ValueError "Cannot select reference segment from empty audio")
  else if (sample_rate <=? 0) then
    Raise (ValueError "sample_rate must be > 0")
  else
    total_duration_seconds <- B64.py_truediv size sample_rate ;;
    window <- window_samples recommended_target_seconds sample_rate size ;;
    if (size <=? window) then
      (* Fast path: clip already within the recommended target window. *)
      let metrics0 :=
        compute_quality_metrics audio
          default_silence_threshold default_clipping_threshold in
      d <- B64.py_truediv size sample_rate ;;
      let metrics := set_duration metrics0 d in
      end_ms <- ms_of_seconds total_duration_seconds ;;
      source_ms <- ms_of_seconds total_duration_seconds ;;
      Ok (audio, mkMeta 0 end_ms source_ms metrics None policy_version)
    else
      step_samples <- samples_of_seconds selection_step_seconds sample_rate ;;
      candidates <-
        scan_candidates audio sample_rate window
          min_rms max_silence_ratio max_clipping_ratio step_samples ;;
      '(best, reason) <- choose_best candidates ;;
      let selected := Np.slice audio (cand_start best) (cand_end best) in
      start_ms <- ms_of_offset (cand_start best) sample_rate ;;
      end_ms <- ms_of_offset (cand_end best) sample_rate ;;
      source_ms <- ms_of_seconds total_duration_seconds ;;
      Ok (selected,
          mkMeta start_ms end_ms source_ms (cand_metrics best) reason
                 policy_version).

(** ** Reference definitions for the selector *)

(** The fallback order in words: [m1] is strictly preferred to [m2] when it
    has less silence, or the same silence and a higher RMS, or the same
    silence and RMS and less clipping. *)
Definition fallback_better (m1 m2 : QualityMetrics float) : bool :=
  if B64.ne (silence_ratio m1) (silence_ratio m2)
  then (silence_ratio m1 <? silence_ratio m2)%float
  else if B64.ne (rms m1) (rms m2)
  then (rms m2 <? rms m1)%float
  else if B64.ne (clipping_ratio m1) (clipping_ratio m2)
  then (clipping_ratio m1 <? clipping_ratio m2)%float
  else false.

(** The comparison of two floats, through their decoding. *)
Definition fcmp (x y : float) : option comparison :=
  SFcompare (Prim2SF x) (Prim2SF y).


(** [clamp(x, lo, hi)] *)
Definition clamp (x lo hi : Z) : Z := Z.max lo (Z.min x hi).

(** The window length with rounding to the nearest integer:
    [clamp(round(recommended_target_seconds * sample_rate), 1, len(samples))]. *)
Definition window_len_rounded (recommended_target_seconds : float)
           (sample_rate size : Z) : result Z :=
  rate <- B64.py_float_of_int sample_rate ;;
  n <- B64.py_round (recommended_target_seconds * rate)%float ;;
  Ok (clamp n 1 size).

(* ================================================================== *)
(** * backend/config.py *)
(* ================================================================== *)

Module Config.

Local Open Scope string_scope.

Record VoiceCloneReferencePolicy : Type := mkPolicy {
  hard_min_seconds : float;
  recommended_target_seconds : float;
  hard_max_seconds : float;
  capture_auto_stop_seconds : Z;
  min_rms : float;
  max_silence_ratio : float;
  max_clipping_ratio : float;
  selection_step_seconds : float;
  policy_version : string
}.

Definition _DEFAULT_VOICE_CLONE_POLICY : VoiceCloneReferencePolicy :=
  mkPolicy 2.0%float 15.0%float 60.0%float 29
           0.01%float 0.45%float 0.02%float 0.5%float "v1".

(** [issues.append(msg)] when [cond] holds. *)
Definition append_if (cond : bool) (msg : string) (issues : list string)
  : list string :=
  if cond then issues ++ [msg] else issues.

Definition _validate_voice_clone_policy (policy : VoiceCloneReferencePolicy)
  : result (bool * string) :=
  let issues := [] in
  let issues :=
    append_if (hard_min_seconds policy <=? 0)%float
      "hard_min_seconds must be > 0" issues in
  let issues :=
    append_if (recommended_target_seconds policy <=? 0)%float
      "recommended_target_seconds must be > 0" issues in
  let issues :=
    append_if (hard_max_seconds policy <=? 0)%float
      "hard_max_seconds must be > 0" issues in
  let issues :=
    append_if
      (B64.gt (hard_min_seconds policy) (recommended_target_seconds policy))
      "hard_min_seconds must be <= recommended_target_seconds" issues in
  let issues :=
    append_if
      (B64.gt (recommended_target_seconds policy) (hard_max_seconds policy))
      "recommended_target_seconds must be <= hard_max_seconds" issues in
  let issues :=
    append_if (capture_auto_stop_seconds policy <=? 0)%Z
      "capture_auto_stop_seconds must be > 0" issues in
  hard_max_int <- B64.py_int (hard_max_seconds policy) ;;
  let issues :=
    append_if (capture_auto_stop_seconds policy >? hard_max_int)%Z
      "capture_auto_stop_seconds must be <= hard_max_seconds" issues in
  let issues :=
    append_if (min_rms policy <=? 0)%float "min_rms must be > 0" issues in
  let issues :=
    append_if
      (negb ((0 <=? max_silence_ratio policy)%float
             && (max_silence_ratio policy <=? 1)%float))
      "max_silence_ratio must be between 0 and 1" issues in
  let issues :=
    append_if
      (negb ((0 <=? max_clipping_ratio policy)%float
             && (max_clipping_ratio policy <=? 1)%float))
      "max_clipping_ratio must be between 0 and 1" issues in
  let issues :=
    append_if (selection_step_seconds policy <=? 0)%float
      "selection_step_seconds must be > 0" issues in
  match issues with
  | _ :: _ => Ok (false, String.concat "; " issues)
  | [] => Ok (true, "")
  end.

Section Loader.

(** The process environment, and the builtins [float(raw)] and [int(raw)]
    on strings; [None] stands for their [ValueError].  The diagnostics
    written with [print] are not modelled. *)
Variable environ : string -> option string.
Variable py_float_of_str : string -> option float.
Variable py_int_of_str : string -> option Z.

Definition _env_float (name : string) (default : float) : float :=
  match environ name with
  | None => default
  | Some raw =>
      if String.eqb raw "" then default
      else match py_float_of_str raw with
           | Some v => v
           | None => default
           end
  end.

Definition _env_int (name : string) (default : Z) : Z :=
  match environ name with
  | None => default
  | Some raw =>
      if String.eqb raw "" then default
      else match py_int_of_str raw with
           | Some v => v
           | None => default
           end
  end.

(** [os.environ.get(name, default)] *)
Definition environ_get (name default : string) : string :=
  match environ name with
  | Some raw => raw
  | None => default
  end.

(** The policy built from the environment, before validation. *)
Definition resolved_policy : VoiceCloneReferencePolicy :=
  mkPolicy
    (_env_float "VOICE_CLONE_REF_HARD_MIN_SECONDS"
       (hard_min_seconds _DEFAULT_VOICE_CLONE_POLICY))
    (_env_float "VOICE_CLONE_REF_RECOMMENDED_TARGET_SECONDS"
       (recommended_target_seconds _DEFAULT_VOICE_CLONE_POLICY))
    (_env_float "VOICE_CLONE_REF_HARD_MAX_SECONDS"
       (hard_max_seconds _DEFAULT_VOICE_CLONE_POLICY))
    (_env_int "VOICE_CLONE_REF_CAPTURE_AUTO_STOP_SECONDS"
       (capture_auto_stop_seconds _DEFAULT_VOICE_CLONE_POLICY))
    (_env_float "VOICE_CLONE_REF_MIN_RMS"
       (min_rms _DEFAULT_VOICE_CLONE_POLICY))
    (_env_float "VOICE_CLONE_REF_MAX_SILENCE_RATIO"
       (max_silence_ratio _DEFAULT_VOICE_CLONE_POLICY))
    (_env_float "VOICE_CLONE_REF_MAX_CLIPPING_RATIO"
       (max_clipping_ratio _DEFAULT_VOICE_CLONE_POLICY))
    (_env_float "VOICE_CLONE_REF_SELECTION_STEP_SECONDS"
       (selection_step_seconds _DEFAULT_VOICE_CLONE_POLICY))
    (environ_get "VOICE_CLONE_REF_POLICY_VERSION"
       (policy_version _DEFAULT_VOICE_CLONE_POLICY)).

Definition _load_voice_clone_reference_policy
  : result VoiceCloneReferencePolicy :=
  let policy := resolved_policy in
  '(is_valid, reason) <- _validate_voice_clone_policy policy ;;
  if negb is_valid then Ok _DEFAULT_VOICE_CLONE_POLICY else Ok policy.

End Loader.

(** The structural invariant of a policy as the data model words it: the
    three durations are positive and ordered, the auto-stop is a positive
    integer not above the hard maximum, [min_rms] and the step are
    positive, both ratios lie in [[0, 1]]. *)
Definition policy_invariant (p : VoiceCloneReferencePolicy) : bool :=
  (0 <? hard_min_seconds p)%float
  && (0 <? recommended_target_seconds p)%float
  && (0 <? hard_max_seconds p)%float
  && (hard_min_seconds p <=? recommended_target_seconds p)%float
  && (recommended_target_seconds p <=? hard_max_seconds p)%float
  && (0 <? capture_auto_stop_seconds p)%Z
  && B64.int_le (capture_auto_stop_seconds p) (hard_max_seconds p)
  && (0 <? min_rms p)%float
  && (0 <=? max_silence_ratio p)%float && (max_silence_ratio p <=? 1)%float
  && (0 <=? max_clipping_ratio p)%float && (max_clipping_ratio p <=? 1)%float
  && (0 <? selection_step_seconds p)%float.

(** No field of the policy is NaN and the hard maximum is finite. *)
Definition ordinary (p : VoiceCloneReferencePolicy) : Prop :=
  is_nan (hard_min_seconds p) = false
  /\ is_nan (recommended_target_seconds p) = false
  /\ is_nan (hard_max_seconds p) = false
  /\ is_infinity (hard_max_seconds p) = false
  /\ is_nan (min_rms p) = false
  /\ is_nan (selection_step_seconds p) = false.

End Config.

(* ================================================================== *)
(** * backend/utils/tasks.py *)
(* ================================================================== *)

Module Tasks.

Local Open Scope string_scope.

Definition PROCESSING_STAGES : list string :=
  ["upload"; "validate"; "transcribe"; "embed"; "save"].

(** [stage in PROCESSING_STAGES] *)
Definition is_processing_stage (stage : string) : bool :=
  existsb (String.eqb stage) PROCESSING_STAGES.

(** A [datetime] in UTC, in microseconds since the epoch, and
    [timedelta(seconds=n)]. *)
Definition datetime : Type := Z.
Definition timedelta_seconds (n : Z) : Z := n * 1000000.

Record RecordingProcessingTask : Type := mkTask {
  task_id : string;
  stage : string;
  status : string;
  progress : option float;
  message : option string;
  error : option string;
  started_at : datetime;
  updated_at : datetime
}.

(** [RecordingProcessingTask(task_id=task_id)] with the dataclass defaults;
    both time stamps are read from the clock at construction. *)
Definition new_task (tid : string) (now : datetime) : RecordingProcessingTask :=
  mkTask tid "upload" "running" (Some 0%float) None None now now.

(** Attribute assignments. *)
Definition set_stage (v : string) (t : RecordingProcessingTask) :=
  mkTask (task_id t) v (status t) (progress t) (message t) (error t)
         (started_at t) (updated_at t).
Definition set_status (v : string) (t : RecordingProcessingTask) :=
  mkTask (task_id t) (stage t) v (progress t) (message t) (error t)
         (started_at t) (updated_at t).
Definition set_progress (v : option float) (t : RecordingProcessingTask) :=
  mkTask (task_id t) (stage t) (status t) v (message t) (error t)
         (started_at t) (updated_at t).
Definition set_message (v : option string) (t : RecordingProcessingTask) :=
  mkTask (task_id t) (stage t) (status t) (progress t) v (error t)
         (started_at t) (updated_at t).
Definition set_error (v : option string) (t : RecordingProcessingTask) :=
  mkTask (task_id t) (stage t) (status t) (progress t) (message t) v
         (started_at t) (updated_at t).
Definition set_updated_at (v : datetime) (t : RecordingProcessingTask) :=
  mkTask (task_id t) (stage t) (status t) (progress t) (message t) (error t)
         (started_at t) v.

(** ** Objects and references

    Task records are mutable objects: the dictionary of the manager and
    every list it hands out hold references to them.  The object store is a
    list, a reference is a position in it. *)
Definition ref : Type := nat.
Definition store : Type := list RecordingProcessingTask.

Definition load (h : store) (a : ref) : option RecordingProcessingTask :=
  nth_error h a.

Definition alloc (h : store) (t : RecordingProcessingTask) : store * ref :=
  ((h ++ [t])%list, List.length h).

Fixpoint modify (h : store) (a : ref)
         (f : RecordingProcessingTask -> RecordingProcessingTask) : store :=
  match h, a with
  | [], _ => []
  | t :: h', O => f t :: h'
  | t :: h', S a' => t :: modify h' a' f
  end.

(** ** Dictionaries keyed by task id, in insertion order *)
Definition dict : Type := list (string * ref).

Fixpoint dict_get (d : dict) (k : string) : option ref :=
  match d with
  | [] => None
  | (k', v) :: d' => if String.eqb k k' then Some v else dict_get d' k
  end.

Definition dict_contains (d : dict) (k : string) : bool :=
  match dict_get d k with
  | Some _ => true
  | None => false
  end.

(** [d[k] = v]: an existing key keeps its position. *)
Fixpoint dict_set (d : dict) (k : string) (v : ref) : dict :=
  match d with
  | [] => [(k, v)]
  | (k', v') :: d' =>
      if String.eqb k k' then (k, v) :: d' else (k', v') :: dict_set d' k v
  end.

(** [del d[k]] *)
Definition dict_del (d : dict) (k : string) : dict :=
  filter (fun kv => negb (String.eqb k (fst kv))) d.

Definition dict_values (d : dict) : list ref := map snd d.
Definition dict_keys (d : dict) : list string := map fst d.

(** ** TaskManager, recording-processing part

    Every operation holds the lock from its first access to the dictionary
    to its return, so operations are atomic steps on the manager.  The
    readings an operation takes from the clock ([_now_utc()]) are its
    argument [now]. *)
Record TaskManager : Type := mkManager {
  (** the task objects allocated so far *)
  objects : store;
  _active_recording_tasks : dict
}.

Definition empty_manager : TaskManager := mkManager [] [].

(** [message or default] *)
Definition str_or (message : option string) (default : string) : string :=
  match message with
  | Some m => if String.eqb m "" then default else m
  | None => default
  end.

Definition start_recording_processing (tm : TaskManager) (tid : string)
           (msg : option string) (now : datetime) : TaskManager :=
  let t := mkTask tid "upload" "running" (Some 0%float)
                  (Some (str_or msg "Uploading sample")) None now now in
  let '(h, a) := alloc (objects tm) t in
  mkManager h (dict_set (_active_recording_tasks tm) tid a).

(** [self._active_recording_tasks.get(task_id)], creating the record when
    it is absent (lines 123-126 and 161-164). *)
Definition get_or_create (tm : TaskManager) (tid : string) (now : datetime)
  : TaskManager * ref :=
  match dict_get (_active_recording_tasks tm) tid with
  | Some a => (tm, a)
  | None =>
      let '(h, a) := alloc (objects tm) (new_task tid now) in
      (mkManager h (dict_set (_active_recording_tasks tm) tid a), a)
  end.

Definition update_recording_processing (tm : TaskManager) (tid stage_ : string)
           (progress_ : option float) (message_ : option string)
           (now : datetime) : result unit * TaskManager :=
  if negb (is_processing_stage stage_) then
    (Raise (ValueError ("Invalid processing stage: " ++ stage_)), tm)
  else
    let '(tm1, a) := get_or_create tm tid now in
    let h := objects tm1 in
    let h := modify h a (set_stage stage_) in
    let h := modify h a (set_status "running") in
    let h := modify h a (set_updated_at now) in
    let h := modify h a (set_error None) in
    let h :=
      match progress_ with
      | Some p =>
          modify h a
            (set_progress (Some (py_max2 0%float (py_min2 100%float p))))
      | None => h
      end in
    let h :=
      match message_ with
      | Some m => modify h a (set_message (Some m))
      | None => h
      end in
    (Ok tt, mkManager h (_active_recording_tasks tm1)).

Definition complete_recording_processing (tm : TaskManager) (tid stage_ : string)
           (message_ : option string) (now : datetime) : TaskManager :=
  match dict_get (_active_recording_tasks tm) tid with
  | None => tm
  | Some a =>
      let h := objects tm in
      let h := modify h a (set_stage stage_) in
      let h := modify h a (set_status "complete") in
      let h := modify h a (set_progress (Some 100%float)) in
      let h := modify h a (set_message (Some (str_or message_ "Sample saved"))) in
      let h := modify h a (set_updated_at now) in
      mkManager h (dict_del (_active_recording_tasks tm) tid)
  end.

Definition error_recording_processing (tm : TaskManager) (tid error_ : string)
           (stage_ : option string) (message_ : option string)
           (now : datetime) : TaskManager :=
  let '(tm1, a) := get_or_create tm tid now in
  let h := objects tm1 in
  let h :=
    match stage_ with
    | Some s => if is_processing_stage s then modify h a (set_stage s) else h
    | None => h
    end in
  let h := modify h a (set_status "error") in
  let h := modify h a (set_error (Some error_)) in
  let h := modify h a (set_message (Some (str_or message_ error_))) in
  let h := modify h a (set_updated_at now) in
  mkManager h (_active_recording_tasks tm1).

Definition complete_error_recording_processing (tm : TaskManager)
           (tid : string) : TaskManager :=
  if dict_contains (_active_recording_tasks tm) tid
  then mkManager (objects tm) (dict_del (_active_recording_tasks tm) tid)
  else tm.

(** The condition of line 196 on one dictionary item. *)
Definition is_stale_error (h : store) (expiry_cutoff : datetime)
           (item : string * ref) : bool :=
  match load h (snd item) with
  | Some t => String.eqb (status t) "error" && (updated_at t <? expiry_cutoff)%Z
  | None => false
  end.

(** Returns the list built by [list(self._active_recording_tasks.values())]:
    a new list holding the references the dictionary holds. *)
Definition get_active_recording_tasks (tm : TaskManager) (now : datetime)
  : list ref * TaskManager :=
  let expiry_cutoff := (now - timedelta_seconds 30)%Z in
  let stale_error_ids :=
    map fst (filter (is_stale_error (objects tm) expiry_cutoff)
                    (_active_recording_tasks tm)) in
  let d := fold_left dict_del stale_error_ids (_active_recording_tasks tm) in
  (dict_values d, mkManager (objects tm) d).

Definition is_recording_processing_active (tm : TaskManager) (tid : string)
  : bool :=
  dict_contains (_active_recording_tasks tm) tid.

(** What the manager holds for a task id: the record its dictionary entry
    refers to. *)
Definition tracked (tm : TaskManager) (tid : string)
  : option RecordingProcessingTask :=
  match dict_get (_active_recording_tasks tm) tid with
  | Some a => load (objects tm) a
  | None => None
  end.

(** A caller that holds a reference [a] assigns to an attribute of the
    object. *)
Definition caller_setattr (tm : TaskManager) (a : ref)
           (f : RecordingProcessingTask -> RecordingProcessingTask)
  : TaskManager :=
  mkManager (modify (objects tm) a f) (_active_recording_tasks tm).

(** A dictionary has one entry per key. *)
Definition well_formed (tm : TaskManager) : Prop :=
  NoDup (dict_keys (_active_recording_tasks tm)).

End Tasks.

(* ================================================================== *)
(** * Definitions for further properties *)
(* ================================================================== *)

(** ** Sequences of tracker operations *)

(** One call of a recording-processing method of [TaskManager]. *)
Inductive task_op : Type :=
| OpStart (tid : string) (msg : option string) (now : Tasks.datetime)
| OpUpdate (tid stage : string) (progress : option float)
           (msg : option string) (now : Tasks.datetime)
| OpComplete (tid stage : string) (msg : option string) (now : Tasks.datetime)
| OpError (tid err : string) (stage : option string) (msg : option string)
          (now : Tasks.datetime)
| OpCompleteError (tid : string)
| OpList (now : Tasks.datetime).

(** The manager after the call, whether it returned or raised. *)
Definition run_op (tm : Tasks.TaskManager) (o : task_op) : Tasks.TaskManager :=
  match o with
  | OpStart tid msg now => Tasks.start_recording_processing tm tid msg now
  | OpUpdate tid stage progress msg now =>
      snd (Tasks.update_recording_processing tm tid stage progress msg now)
  | OpComplete tid stage msg now =>
      Tasks.complete_recording_processing tm tid stage msg now
  | OpError tid err stage msg now =>
      Tasks.error_recording_processing tm tid err stage msg now
  | OpCompleteError tid => Tasks.complete_error_recording_processing tm tid
  | OpList now => snd (Tasks.get_active_recording_tasks tm now)
  end.

(** The task id a call is about; a listing is about none. *)
Definition op_target (o : task_op) : option string :=
  match o with
  | OpStart tid _ _ | OpUpdate tid _ _ _ _ | OpComplete tid _ _ _
  | OpError tid _ _ _ _ | OpCompleteError tid => Some tid
  | OpList _ => None
  end.

(** The dictionary has one entry per id, no two ids share a record, and
    every entry refers to an allocated record that carries its id. *)
Definition consistent (tm : Tasks.TaskManager) : Prop :=
  NoDup (Tasks.dict_keys (Tasks._active_recording_tasks tm))
  /\ NoDup (Tasks.dict_values (Tasks._active_recording_tasks tm))
  /\ forall k a, In (k, a) (Tasks._active_recording_tasks tm) ->
       exists t, Tasks.load (Tasks.objects tm) a = Some t
                 /\ Tasks.task_id t = k.

(** [max(0.0, min(100.0, progress))] of line 133. *)
Definition clamp_progress (p : float) : float :=
  py_max2 0%float (py_min2 100%float p).

(** The record an update or an error starts from: the one tracked for the
    id, or a new one with the dataclass defaults. *)
Definition base_record (tm : Tasks.TaskManager) (tid : string)
           (now : Tasks.datetime) : Tasks.RecordingProcessingTask :=
  match Tasks.tracked tm tid with
  | Some t => t
  | None => Tasks.new_task tid now
  end.

(** ** backend/utils/tasks.py: downloads and generations

    The three dictionaries of [TaskManager] are independent: every method
    reads and writes one of them only.  The download and the generation
    dictionaries are modelled here, each with the methods that use it. *)

Module PyDict.

(** A [dict] with string keys, in insertion order. *)
Definition t (V : Type) : Type := list (string * V).

Fixpoint get {V} (d : t V) (k : string) : option V :=
  match d with
  | [] => None
  | (k', v) :: d' => if String.eqb k k' then Some v else get d' k
  end.

(** [k in d] *)
Definition contains {V} (d : t V) (k : string) : bool :=
  match get d k with
  | Some _ => true
  | None => false
  end.

(** [d[k] = v] *)
Fixpoint set {V} (d : t V) (k : string) (v : V) : t V :=
  match d with
  | [] => [(k, v)]
  | (k', v') :: d' =>
      if String.eqb k k' then (k, v) :: d' else (k', v') :: set d' k v
  end.

(** [del d[k]] *)
Definition del {V} (d : t V) (k : string) : t V :=
  filter (fun kv => negb (String.eqb k (fst kv))) d.

(** [list(d.values())] *)
Definition values {V} (d : t V) : list V := map snd d.

End PyDict.

Module Downloads.

Local Open Scope string_scope.

Record DownloadTask : Type := mkDownload {
  model_name : string;
  status : string;
  started_at : Tasks.datetime;
  error : option string
}.

Definition set_status (v : string) (t : DownloadTask) : DownloadTask :=
  mkDownload (model_name t) v (started_at t) (error t).
Definition set_error (v : option string) (t : DownloadTask) : DownloadTask :=
  mkDownload (model_name t) (status t) (started_at t) v.

(** The download objects allocated so far, and the dictionary of
    references to them. *)
Record state : Type := mkState {
  objects : list DownloadTask;
  _active_downloads : PyDict.t nat
}.

Fixpoint modify (h : list DownloadTask) (a : nat)
         (f : DownloadTask -> DownloadTask) : list DownloadTask :=
  match h, a with
  | [], _ => []
  | t :: h', O => f t :: h'
  | t :: h', S a' => t :: modify h' a' f
  end.

Definition start_download (s : state) (name : string) (now : Tasks.datetime)
  : state :=
  let t := mkDownload name "downloading" now None in
  mkState (objects s ++ [t])%list
          (PyDict.set (_active_downloads s) name (List.length (objects s))).


Definition error_download (s : state) (name err : string) : state :=
  match PyDict.get (_active_downloads s) name with
  | Some a =>
      let h := modify (objects s) a (set_status "error") in
      let h := modify h a (set_error (Some err)) in
      mkState h (_active_downloads s)
  | None => s
  end.

Definition get_active_downloads (s : state) : list nat :=
  PyDict.values (_active_downloads s).

Definition is_download_active (s : state) (name : string) : bool :=
  PyDict.contains (_active_downloads s) name.

(** The record the manager holds for a model name. *)
Definition tracked (s : state) (name : string) : option DownloadTask :=
  match PyDict.get (_active_downloads s) name with
  | Some a => nth_error (objects s) a
  | None => None
  end.

End Downloads.

(** A Python [str] is a sequence of Unicode code points.  Identifiers and
    messages, which the code only stores and compares, are [string]
    values; a text that the code measures and slices ([len(text)],
    [text[:50]]) is the list of its code points. *)
Definition py_str : Type := list N.

(** The code points of a literal written in ASCII. *)
Definition py_str_of (s : string) : py_str :=
  map N_of_ascii (list_ascii_of_string s).

Module Generations.

Local Open Scope string_scope.

Record GenerationTask : Type := mkGeneration {
  task_id : string;
  profile_id : string;
  text_preview : py_str;
  started_at : Tasks.datetime
}.

(** [text[:50] + "..." if len(text) > 50 else text] *)
Definition preview_of (text : py_str) : py_str :=
  if (50 <? List.length text)%nat
  then (firstn 50 text ++ py_str_of "...")%list
  else text.

(** No method assigns to a generation record, so the dictionary holds the
    records themselves. *)
Definition state : Type := PyDict.t GenerationTask.

Definition start_generation (s : state) (tid pid : string) (text : py_str)
           (now : Tasks.datetime) : state :=
  PyDict.set s tid (mkGeneration tid pid (preview_of text) now).

Definition complete_generation (s : state) (tid : string) : state :=
  if PyDict.contains s tid then PyDict.del s tid else s.

Definition get_active_generations (s : state) : list GenerationTask :=
  PyDict.values s.

Definition is_generation_active (s : state) (tid : string) : bool :=
  PyDict.contains s tid.

End Generations.

(** ** Reference definitions for the selector, continued *)

(** The order among eligible candidates in words: [c1] is strictly preferred
    to [c2] when it has a higher score, or the same score and less silence,
    or the same score and silence and a higher RMS. *)
Definition eligible_better (c1 c2 : Candidate) : bool :=
  if B64.ne (cand_score c1) (cand_score c2)
  then (cand_score c2 <? cand_score c1)%float
  else if B64.ne (silence_ratio (cand_metrics c1))
                 (silence_ratio (cand_metrics c2))
  then (silence_ratio (cand_metrics c1)
        <? silence_ratio (cand_metrics c2))%float
  else if B64.ne (rms (cand_metrics c1)) (rms (cand_metrics c2))
  then (rms (cand_metrics c2) <? rms (cand_metrics c1))%float
  else false.


(* ================================================================== *)
(** * Properties of the segment selector *)
(* ================================================================== *)

Section AudioFacts.

Local Open Scope Z_scope.

Lemma py_truediv_nonzero (a b : Z) :
  b <> 0 -> B64.py_truediv a b = Ok (B64.div_Z a b).
Proof.
  intros Hb. unfold B64.py_truediv.
  destruct (Z.eqb_spec b 0) as [E | _]; [contradiction | reflexivity].
Qed.

Lemma size_nonempty {A} (l : list A) :
  l <> [] -> (Z.of_nat (List.length l) =? 0) = false.
Proof.
  intros Hl. destruct l as [| x t]; [contradiction |].
  apply Z.eqb_neq. cbn [List.length]. lia.
Qed.

Lemma map_result_In {A B} (f : A -> result B) (l : list A) (ys : list B) :
  map_result f l = Ok ys ->
  forall y, In y ys -> exists x, In x l /\ f x = Ok y.
Proof.
  revert ys. induction l as [| x t IH]; intros ys Hm y Hy.
  - cbn in Hm. injection Hm as <-. destruct Hy.
  - cbn in Hm. destruct (f x) as [y0 |] eqn:Hfx; cbn in Hm; [| discriminate].
    destruct (map_result f t) as [ys0 |] eqn:Ht; cbn in Hm; [| discriminate].
    injection Hm as <-. destruct Hy as [<- | Hy].
    + exists x. split; [now left | assumption].
    + destruct (IH ys0 eq_refl y Hy) as (x' & Hin & Hx').
      exists x'. split; [now right | assumption].
Qed.

Lemma max_from_In {A K} (gt : K -> K -> bool) (key : A -> K) (l : list A) :
  forall best, In (max_from gt key best l) (best :: l).
Proof.
  induction l as [| x t IH]; intros best; cbn [max_from].
  - now left.
  - specialize (IH (if gt (key x) (key best) then x else best)).
    destruct IH as [E | HIn].
    + destruct (gt (key x) (key best)); rewrite <- E.
      * right. now left.
      * now left.
    + right. now right.
Qed.

Lemma py_max_key_In {A K} (gt : K -> K -> bool) (key : A -> K)
      (l : list A) (b : A) :
  py_max_key gt key l = Ok b -> In b l.
Proof.
  destruct l as [| x t]; cbn; [discriminate |].
  intros [= <-]. apply max_from_In.
Qed.

Lemma choose_best_In (cs : list Candidate) (b : Candidate) (r : option string) :
  choose_best cs = Ok (b, r) -> In b cs.
Proof.
  unfold choose_best.
  destruct (filter cand_eligible cs) as [| e es] eqn:Hf.
  - destruct (py_max_key tuple3_gt fallback_key cs) as [b0 |] eqn:Hm;
      cbn; [| discriminate].
    intros [= <- <-]. eapply py_max_key_In; eassumption.
  - destruct (py_max_key tuple3_gt eligible_key (e :: es)) as [b0 |] eqn:Hm;
      cbn; [| discriminate].
    intros [= <- <-]. apply py_max_key_In in Hm.
    rewrite <- Hf in Hm. apply filter_In in Hm. tauto.
Qed.

(** What the scan loop stores in a candidate. *)
Lemma score_window_fields audio sample_rate window min_rms msr mcr start c :
  score_window audio sample_rate window min_rms msr mcr start = Ok c ->
  cand_start c = start
  /\ cand_end c = start + window
  /\ cand_eligible c = eligible_of (cand_metrics c) min_rms msr mcr
  /\ cand_score c = score_of (cand_metrics c) min_rms msr mcr
  /\ B64.py_truediv
       (Z.of_nat (List.length (Np.slice audio start (start + window))))
       sample_rate = Ok (duration_seconds (cand_metrics c)).
Proof.
  unfold score_window.
  destruct (B64.py_truediv _ sample_rate) as [d |] eqn:Hd; cbn; [| discriminate].
  intros [= <-]. cbn. repeat split; reflexivity.
Qed.

End AudioFacts.

(** C2. For every silence and clipping threshold, [compute_quality_metrics]
    on the empty buffer is the record [rms = 0], [peak_abs = 0],
    [silence_ratio = 1], [clipping_ratio = 1], [duration_seconds = 0]; the
    function is total, so no error is raised. *)
Theorem compute_quality_metrics_empty :
  forall silence_threshold clipping_threshold : float,
    compute_quality_metrics [] silence_threshold clipping_threshold
    = {| duration_seconds := 0%float;
         rms := 0%float;
         silence_ratio := 1%float;
         clipping_ratio := 1%float;
         peak_abs := 0%float |}.
Proof. intros st ct. reflexivity. Qed.



Section SelectorStructure.

Local Open Scope Z_scope.

Variables (audio : list float) (sample_rate : Z).
Variables (target min_rms msr mcr step : float) (version : string).

Let size : Z := Z.of_nat (List.length audio).

(** The two ways in which the selector returns a value. *)
Lemma select_inv (sel : list float) (meta : SelectionMeta) :
  select_best_reference_segment audio sample_rate target min_rms msr mcr
                                step version = Ok (sel, meta) ->
  size <> 0 /\ 0 < sample_rate /\
  exists w, window_samples target sample_rate size = Ok w /\
    ((size <= w /\ sel = audio /\
      exists ms, ms_of_offset size sample_rate = Ok ms /\
        meta = mkMeta 0 ms ms
                 (set_duration
                    (compute_quality_metrics audio default_silence_threshold
                                             default_clipping_threshold)
                    (B64.div_Z size sample_rate))
                 None version)
     \/
     (w < size /\
      exists st cands best reason start_ms end_ms source_ms,
        samples_of_seconds step sample_rate = Ok st /\
        scan_candidates audio sample_rate w min_rms msr mcr st = Ok cands /\
        choose_best cands = Ok (best, reason) /\
        sel = Np.slice audio (cand_start best) (cand_end best) /\
        ms_of_offset (cand_start best) sample_rate = Ok start_ms /\
        ms_of_offset (cand_end best) sample_rate = Ok end_ms /\
        ms_of_offset size sample_rate = Ok source_ms /\
        meta = mkMeta start_ms end_ms source_ms (cand_metrics best) reason
                      version)).
Proof.
  unfold select_best_reference_segment. fold size.
  destruct (Z.eqb_spec size 0) as [| Hsize]; [discriminate |].
  destruct (Z.leb_spec sample_rate 0) as [| Hsr]; [discriminate |].
  unfold ms_of_offset.
  rewrite !py_truediv_nonzero by lia. cbn [bind].
  destruct (window_samples target sample_rate size) as [w |] eqn:Hw;
    cbn [bind]; [| discriminate].
  intros Hsel. split; [assumption |]. split; [assumption |].
  exists w. split; [reflexivity |].
  destruct (Z.leb_spec size w) as [Hle | Hlt].
  - left.
    destruct (ms_of_seconds (B64.div_Z size sample_rate)) as [ms |] eqn:Hms;
      cbn [bind] in Hsel; [| discriminate].
    injection Hsel as <- <-.
    split; [assumption |]. split; [reflexivity |].
    exists ms. split; reflexivity.
  - right. split; [assumption |].
    destruct (samples_of_seconds step sample_rate) as [st |] eqn:Hst;
      cbn [bind] in Hsel; [| discriminate].
    destruct (scan_candidates audio sample_rate w min_rms msr mcr st)
      as [cands |] eqn:Hc;
      cbn [bind] in Hsel; [| discriminate].
    destruct (choose_best cands) as [[best reason] |] eqn:Hb;
      cbn [bind] in Hsel; [| discriminate].
    rewrite !py_truediv_nonzero in Hsel by lia. cbn [bind] in Hsel.
    destruct (ms_of_seconds (B64.div_Z (cand_start best) sample_rate))
      as [sms |] eqn:Hs; cbn [bind] in Hsel; [| discriminate].
    destruct (ms_of_seconds (B64.div_Z (cand_end best) sample_rate))
      as [ems |] eqn:He; cbn [bind] in Hsel; [| discriminate].
    destruct (ms_of_seconds (B64.div_Z size sample_rate))
      as [src |] eqn:Hsrc; cbn [bind] in Hsel; [| discriminate].
    injection Hsel as <- <-.
    exists st, cands, best, reason, sms, ems, src.
    unfold ms_of_offset. rewrite !py_truediv_nonzero by lia. cbn [bind].
    repeat split; solve [reflexivity | assumption].
Qed.

End SelectorStructure.

Section WindowFacts.

Local Open Scope Z_scope.

Lemma samples_of_seconds_pos seconds sample_rate n :
  samples_of_seconds seconds sample_rate = Ok n -> 1 <= n.
Proof.
  unfold samples_of_seconds.
  destruct (B64.py_float_of_int sample_rate) as [r |]; cbn; [| discriminate].
  destruct (B64.py_int _) as [k |]; cbn; [| discriminate].
  intros [= <-]. lia.
Qed.

Lemma window_samples_bounds seconds sample_rate size w :
  1 <= size ->
  window_samples seconds sample_rate size = Ok w -> 1 <= w <= size.
Proof.
  intros Hsize. unfold window_samples.
  destruct (samples_of_seconds seconds sample_rate) as [n |] eqn:Hn;
    cbn; [| discriminate].
  apply samples_of_seconds_pos in Hn. intros [= <-]. lia.
Qed.

Lemma py_range_bounds (stop stride s : Z) :
  1 <= stride -> In s (py_range 0 stop stride) -> 0 <= s < stop.
Proof.
  intros Hst Hin. unfold py_range in Hin.
  apply in_map_iff in Hin. destruct Hin as (i & <- & Hi).
  apply in_seq in Hi.
  assert (Hq : Z.of_nat i < (stop - 0 + stride - 1) / stride) by lia.
  assert (Hm : stride * ((stop - 0 + stride - 1) / stride)
               <= stop - 0 + stride - 1)
    by (apply Z.mul_div_le; lia).
  nia.
Qed.

Lemma candidate_starts_bounds (last_start stride s : Z) :
  0 <= last_start -> 1 <= stride ->
  In s (candidate_starts last_start stride) -> 0 <= s <= last_start.
Proof.
  intros HL Hst. unfold candidate_starts.
  destruct (last _ 0 =? last_start); intros Hin.
  - apply py_range_bounds in Hin; lia.
  - apply in_app_or in Hin. destruct Hin as [Hin | [<- | []]].
    + apply py_range_bounds in Hin; lia.
    + lia.
Qed.

Lemma slice_length {A} (a : list A) (s w : Z) :
  0 <= s -> 0 <= w -> s + w <= Z.of_nat (List.length a) ->
  Z.of_nat (List.length (Np.slice a s (s + w))) = w.
Proof.
  intros Hs Hw Hle. unfold Np.slice.
  rewrite length_firstn, length_skipn. lia.
Qed.

End WindowFacts.

(** C10. On a non-empty buffer [compute_quality_metrics] reports
    [duration_seconds] as the number of samples, not divided by any rate;
    whatever [select_best_reference_segment] returns carries, in that field,
    the length of the returned segment divided by the sample rate. *)
Theorem duration_seconds_is_sample_count :
  (forall (audio : list float) (silence_threshold clipping_threshold : float),
      audio <> [] ->
      duration_seconds
        (compute_quality_metrics audio silence_threshold clipping_threshold)
      = B64.of_Z (Z.of_nat (List.length audio)))
  /\
  (forall (audio : list float) (sample_rate : Z)
          (target min_rms msr mcr step : float) (version : string)
          (sel : list float) (meta : SelectionMeta),
      select_best_reference_segment audio sample_rate target min_rms msr mcr
                                    step version = Ok (sel, meta) ->
      duration_seconds (metrics meta)
      = B64.div_Z (Z.of_nat (List.length sel)) sample_rate).
Proof.
  split.
  - intros audio st ct Hne. destruct audio; [contradiction | reflexivity].
  - intros audio sr target min_rms msr mcr step version sel meta Hsel.
    apply select_inv in Hsel.
    destruct Hsel as (Hsize & Hsr & w & Hw & [Hfast | Hscan]).
    + destruct Hfast as (_ & -> & ms & _ & ->). reflexivity.
    + destruct Hscan as (_ & st & cands & best & reason & sms & ems & src
                         & _ & Hc & Hb & -> & _ & _ & _ & ->).
      cbn [metrics].
      apply choose_best_In in Hb.
      destruct (map_result_In _ _ _ Hc best Hb) as (x & _ & Hx).
      apply score_window_fields in Hx.
      destruct Hx as (-> & -> & _ & _ & Hd).
      rewrite py_truediv_nonzero in Hd by lia.
      now injection Hd as <-.
Qed.

(** Standalone metrics of a two-sample buffer report 2; a scan at 2 Hz over
    four samples returns a value, whose duration is its length over 2. *)
Lemma duration_seconds_is_sample_count_witness :
  duration_seconds
    (compute_quality_metrics [0.5; 0.25]%float 0.01%float 0.99%float)
  = 2%float
  /\ match select_best_reference_segment [0; 0; 0; 0.5]%float 2 1%float
             0.01%float 0.45%float 0.02%float 0.5%float "v1" with
     | Ok (sel, meta) =>
         duration_seconds (metrics meta)
         = B64.div_Z (Z.of_nat (List.length sel)) 2
     | Raise _ => False
     end.
Proof.
  split.
  - apply (proj1 duration_seconds_is_sample_count
             [0.5; 0.25]%float 0.01%float 0.99%float).
    discriminate.
  - destruct (select_best_reference_segment [0; 0; 0; 0.5]%float 2 1%float
                0.01%float 0.45%float 0.02%float 0.5%float "v1")
      as [[sel meta] | e] eqn:H.
    + exact (proj2 duration_seconds_is_sample_count _ _ _ _ _ _ _ _ _ _ H).
    + vm_compute in H. discriminate.
Defined.

(** C8, as stated, fails: at 1000 Hz a target of 0.0037 s is 3.7 samples;
    the selector takes a window of 3 samples (and returns 3 of the 5
    samples), the nearest integer is 4. *)
Lemma window_samples_not_rounded :
  window_samples 0.0037%float 1000 5 = Ok 3
  /\ window_len_rounded 0.0037%float 1000 5 = Ok 4
  /\ match select_best_reference_segment [0; 0; 0; 0; 0]%float 1000
             0.0037%float 0.01%float 0.45%float 0.02%float 0.5%float "v1" with
     | Ok (sel, _) => List.length sel = 3%nat
     | Raise _ => False
     end.
Proof. vm_compute. repeat split; reflexivity. Qed.

(** C8, amended. For a non-empty buffer and a positive sample rate the
    window length is the truncation towards zero of
    [recommended_target_seconds * sample_rate], clamped below by 1 and above
    by the buffer length; every segment the selector returns has exactly
    that many samples. *)
Theorem window_samples_truncated :
  forall (audio : list float) (sample_rate : Z)
         (target min_rms msr mcr step : float) (version : string),
    audio <> [] ->
    (0 < sample_rate)%Z ->
    window_samples target sample_rate (Z.of_nat (List.length audio))
    = (rate <- B64.py_float_of_int sample_rate ;;
       n <- B64.py_int (target * rate)%float ;;
       Ok (clamp n 1 (Z.of_nat (List.length audio))))
    /\
    forall sel meta,
      select_best_reference_segment audio sample_rate target min_rms msr mcr
                                    step version = Ok (sel, meta) ->
      window_samples target sample_rate (Z.of_nat (List.length audio))
      = Ok (Z.of_nat (List.length sel)).
Proof.
  intros audio sr target min_rms msr mcr step version Hne Hsr.
  assert (Hsize : (1 <= Z.of_nat (List.length audio))%Z)
    by (destruct audio; [contradiction | cbn [List.length]; lia]).
  split.
  - unfold window_samples, samples_of_seconds, clamp.
    destruct (B64.py_float_of_int sr) as [rate |]; cbn [bind]; [| reflexivity].
    destruct (B64.py_int (target * rate)) as [n |]; cbn [bind]; [| reflexivity].
    f_equal. lia.
  - intros sel meta Hsel. apply select_inv in Hsel.
    destruct Hsel as (_ & _ & w & Hw & [Hfast | Hscan]); rewrite Hw; f_equal.
    + destruct Hfast as (Hle & -> & _).
      apply window_samples_bounds in Hw; lia.
    + destruct Hscan as (Hlt & st & cands & best & reason & sms & ems & src
                         & Hst & Hc & Hb & -> & _).
      apply choose_best_In in Hb.
      destruct (map_result_In _ _ _ Hc best Hb) as (x & Hx & Hsw).
      apply score_window_fields in Hsw. destruct Hsw as (-> & -> & _).
      apply samples_of_seconds_pos in Hst.
      apply window_samples_bounds in Hw; [| assumption].
      apply candidate_starts_bounds in Hx; [| lia | assumption].
      symmetry. apply slice_length; lia.
Qed.

(** The amended statement on the five-sample buffer above: the window is
    [clamp 3 1 5 = 3], the length of what the selector returns. *)
Lemma window_samples_truncated_witness :
  window_samples 0.0037%float 1000 5 = Ok (clamp 3 1 5)
  /\ match select_best_reference_segment [0; 0; 0; 0; 0]%float 1000
             0.0037%float 0.01%float 0.45%float 0.02%float 0.5%float "v1" with
     | Ok (sel, _) =>
         window_samples 0.0037%float 1000 5 = Ok (Z.of_nat (List.length sel))
     | Raise _ => False
     end.
Proof.
  destruct (window_samples_truncated [0; 0; 0; 0; 0]%float 1000 0.0037%float
              0.01%float 0.45%float 0.02%float 0.5%float "v1")
    as [Hw Hs].
  - discriminate.
  - lia.
  - split.
    + change 5%Z with (Z.of_nat (List.length [0; 0; 0; 0; 0]%float)).
      rewrite Hw. vm_compute. reflexivity.
    + destruct (select_best_reference_segment _ _ _ _ _ _ _ _)
        as [[sel meta] | e] eqn:H.
      * exact (Hs sel meta eq_refl).
      * vm_compute in H. discriminate.
Defined.

(** ** Order facts about binary64 comparisons

    [SFcompare] orders every pair of numbers that are not NaN; the facts
    below are read off its definition and carried to the primitive
    comparisons by their specifications. *)

Ltac sf_cases :=
  cbn;
  repeat match goal with
         | |- context [Pos.compare_cont Eq ?a ?b] =>
             change (Pos.compare_cont Eq a b) with (Pos.compare a b)
         | |- context [if ?s then _ else _] => destruct s; cbn
         | |- context [Z.compare ?x ?y] =>
             destruct (Z.compare_spec x y); cbn
         | |- context [Pos.compare ?x ?y] =>
             destruct (Pos.compare_spec x y); cbn
         end;
  intros; subst; try congruence; try lia;
  repeat match goal with
         | H : Some _ = Some ?r |- _ => is_var r; injection H as <-
         end;
  cbn; try congruence; try lia.

Section FloatOrder.

Lemma SFcompare_lt_trans a b c :
  SFcompare a b = Some Lt -> SFcompare b c = Some Lt ->
  SFcompare a c = Some Lt.
Proof.
  destruct a as [sa | sa | | sa ma ea], b as [sb | sb | | sb mb eb],
    c as [sc | sc | | sc mc ec]; sf_cases.
Qed.

Lemma SFcompare_eq_l a b c r :
  SFcompare a b = Some Eq -> SFcompare b c = Some r -> SFcompare a c = Some r.
Proof.
  destruct a as [sa | sa | | sa ma ea], b as [sb | sb | | sb mb eb],
    c as [sc | sc | | sc mc ec]; sf_cases.
Qed.

Lemma SFcompare_eq_r a b c r :
  SFcompare a b = Some r -> SFcompare b c = Some Eq -> SFcompare a c = Some r.
Proof.
  destruct a as [sa | sa | | sa ma ea], b as [sb | sb | | sb mb eb],
    c as [sc | sc | | sc mc ec]; sf_cases.
Qed.

Lemma SFcompare_swap a b r :
  SFcompare a b = Some r -> SFcompare b a = Some (CompOpp r).
Proof.
  destruct a as [sa | sa | | sa ma ea], b as [sb | sb | | sb mb eb];
    sf_cases.
Qed.

Lemma SFcompare_opp a b :
  SFcompare (SFopp a) (SFopp b) = SFcompare b a.
Proof.
  destruct a as [[|] | [|] | | [|] ma ea], b as [[|] | [|] | | [|] mb eb];
    cbn; try reflexivity;
    rewrite (Z.compare_antisym ea eb);
    change (Pos.compare_cont Eq ma mb) with (Pos.compare ma mb);
    change (Pos.compare_cont Eq mb ma) with (Pos.compare mb ma);
    rewrite (Pos.compare_antisym ma mb);
    destruct (Z.compare ea eb); cbn; try reflexivity;
    destruct (Pos.compare ma mb); reflexivity.
Qed.

Lemma gt_fcmp x y : B64.gt x y = true <-> fcmp y x = Some Lt.
Proof.
  unfold B64.gt, fcmp. rewrite ltb_spec. unfold SFltb.
  destruct (SFcompare _ _) as [[| |] |]; split; congruence.
Qed.

Lemma ne_fcmp x y : B64.ne x y = false <-> fcmp x y = Some Eq.
Proof.
  unfold B64.ne, fcmp. rewrite eqb_spec. unfold SFeqb.
  destruct (SFcompare _ _) as [[| |] |]; cbn; split; congruence.
Qed.

Lemma fcmp_opp x y : fcmp (- x) (- y) = fcmp y x.
Proof. unfold fcmp. rewrite !opp_spec. apply SFcompare_opp. Qed.

Lemma gt_opp x y : B64.gt (- x) (- y) = (x <? y)%float.
Proof.
  unfold B64.gt. rewrite !ltb_spec, !opp_spec. unfold SFltb.
  now rewrite SFcompare_opp.
Qed.

Lemma ne_opp x y : B64.ne (- x) (- y) = B64.ne x y.
Proof.
  unfold B64.ne. rewrite !eqb_spec, !opp_spec. unfold SFeqb.
  rewrite SFcompare_opp.
  destruct (SFcompare (Prim2SF x) (Prim2SF y)) as [r |] eqn:E.
  - rewrite (SFcompare_swap _ _ _ E). now destruct r.
  - destruct (SFcompare (Prim2SF y) (Prim2SF x)) as [r |] eqn:E'; [| reflexivity].
    apply SFcompare_swap in E'. congruence.
Qed.

(** [a > b] on key tuples, position by position. *)
Lemma tuple3_gt_iff a1 a2 a3 b1 b2 b3 :
  tuple3_gt (a1, a2, a3) (b1, b2, b3) = true <->
  fcmp b1 a1 = Some Lt
  \/ (fcmp a1 b1 = Some Eq /\ fcmp b2 a2 = Some Lt)
  \/ (fcmp a1 b1 = Some Eq /\ fcmp a2 b2 = Some Eq /\ fcmp b3 a3 = Some Lt).
Proof.
  assert (Hne : forall x y, fcmp y x = Some Lt -> B64.ne x y = true).
  { intros x y H. destruct (B64.ne x y) eqn:E; [reflexivity |].
    apply ne_fcmp in E. apply SFcompare_swap in E.
    unfold fcmp in H. cbn in E. congruence. }
  assert (Heq : forall x y, fcmp x y = Some Eq -> B64.gt x y = false).
  { intros x y H. destruct (B64.gt x y) eqn:E; [| reflexivity].
    apply gt_fcmp in E. apply SFcompare_swap in H.
    unfold fcmp in E. cbn in H. congruence. }
  unfold tuple3_gt.
  destruct (B64.ne a1 b1) eqn:N1.
  - rewrite gt_fcmp. split; [tauto |].
    intros [H | [[H _] | [H _]]]; [assumption | |];
      apply ne_fcmp in H; congruence.
  - pose proof (proj1 (ne_fcmp _ _) N1) as E1.
    destruct (B64.ne a2 b2) eqn:N2.
    + rewrite gt_fcmp. split; [tauto |].
      intros [H | [[_ H] | [_ [H _]]]]; [| assumption |].
      * apply Hne in H. congruence.
      * apply ne_fcmp in H. congruence.
    + pose proof (proj1 (ne_fcmp _ _) N2) as E2.
      destruct (B64.ne a3 b3) eqn:N3.
      * rewrite gt_fcmp. split; [tauto |].
        intros [H | [[_ H] | [_ [_ H]]]]; [| | assumption];
          apply Hne in H; congruence.
      * split; [discriminate |].
        intros [H | [[_ H] | [_ [_ H]]]]; apply Hne in H; congruence.
Qed.

Lemma tuple3_gt_irrefl k : tuple3_gt k k = false.
Proof.
  destruct k as [[a1 a2] a3].
  destruct (tuple3_gt (a1, a2, a3) (a1, a2, a3)) eqn:E; [| reflexivity].
  apply tuple3_gt_iff in E.
  assert (H : forall x, fcmp x x <> Some Lt).
  { intros x Hx. pose proof (SFcompare_swap _ _ _ Hx) as Hy.
    unfold fcmp in Hx. cbn in Hy. congruence. }
  destruct E as [E | [[_ E] | [_ [_ E]]]]; now apply H in E.
Qed.

Lemma tuple3_gt_trans a b c :
  tuple3_gt a b = true -> tuple3_gt b c = true -> tuple3_gt a c = true.
Proof.
  destruct a as [[a1 a2] a3], b as [[b1 b2] b3], c as [[c1 c2] c3].
  rewrite !tuple3_gt_iff. unfold fcmp.
  assert (Hsym : forall x y,
             SFcompare x y = Some Eq -> SFcompare y x = Some Eq)
    by (intros x y H; exact (SFcompare_swap _ _ _ H)).
  intros [A | [[A1 A] | [A1 [A2 A]]]] [B | [[B1 B] | [B1 [B2 B]]]].
  - left. eapply SFcompare_lt_trans; eassumption.
  - left. eapply SFcompare_eq_l; [apply Hsym |]; eassumption.
  - left. eapply SFcompare_eq_l; [apply Hsym |]; eassumption.
  - left. eapply SFcompare_eq_r; [| apply Hsym]; eassumption.
  - right. left. split.
    + eapply SFcompare_eq_l; eassumption.
    + eapply SFcompare_lt_trans; eassumption.
  - right. left. split.
    + eapply SFcompare_eq_l; eassumption.
    + eapply SFcompare_eq_l; [apply Hsym |]; eassumption.
  - left. eapply SFcompare_eq_r; [| apply Hsym]; eassumption.
  - right. left. split.
    + eapply SFcompare_eq_l; eassumption.
    + eapply SFcompare_eq_r; [| apply Hsym]; eassumption.
  - right. right. repeat split.
    + eapply SFcompare_eq_l; eassumption.
    + eapply SFcompare_eq_l; eassumption.
    + eapply SFcompare_lt_trans; eassumption.
Qed.

Lemma Prim2SF_not_nan x : is_nan x = false -> Prim2SF x <> S754_nan.
Proof.
  intros H. unfold Prim2SF. rewrite H.
  destruct (is_zero x); [discriminate |].
  destruct (is_infinity x); [discriminate |].
  destruct (Z.frexp x) as [r ex].
  destruct (shr_fexp _ _ _ _ _) as [sh e'].
  destruct (shr_m sh); discriminate.
Qed.

Lemma SFcompare_defined a b :
  a <> S754_nan -> b <> S754_nan -> exists r, SFcompare a b = Some r.
Proof.
  destruct a, b; cbn; intros Ha Hb; try contradiction; eexists; reflexivity.
Qed.

(** On numbers, [<=] is the negation of the converse [<]. *)
Lemma leb_negb_ltb x y :
  is_nan x = false -> is_nan y = false ->
  (x <=? y)%float = negb (y <? x)%float.
Proof.
  intros Hx Hy. rewrite leb_spec, ltb_spec. unfold SFleb, SFltb.
  destruct (SFcompare_defined _ _ (Prim2SF_not_nan x Hx) (Prim2SF_not_nan y Hy))
    as [r Hr].
  rewrite Hr, (SFcompare_swap _ _ _ Hr). now destruct r.
Qed.

(** The divisor of the RMS normalisation is never zero, so the division of
    line 217 cannot raise [ZeroDivisionError]. *)
Lemma rms_norm_denom_nonzero (min_rms : float) :
  (rms_norm_denom min_rms =? 0)%float = false.
Proof.
  unfold rms_norm_denom, py_max2. cbn [f_ltb f_mul Arith_b64].
  change (f_dec 1 (-8)) with 1e-8%float.
  destruct (min_rms * f_dec 2 0 <? 1e-8)%float eqn:E; [reflexivity |].
  destruct (min_rms * f_dec 2 0 =? 0)%float eqn:Z0; [| reflexivity].
  rewrite ltb_spec in E. rewrite eqb_spec in Z0.
  unfold SFltb in E. unfold SFeqb in Z0.
  destruct (SFcompare (Prim2SF (min_rms * f_dec 2 0)) (Prim2SF 0))
    as [[| |] |] eqn:C; try discriminate.
  assert (L : SFcompare (Prim2SF 0) (Prim2SF 1e-8) = Some Lt)
    by (vm_compute; reflexivity).
  rewrite (SFcompare_eq_l _ _ _ _ C L) in E. discriminate.
Qed.

End FloatOrder.

Section MaxFacts.

Context {A K : Type} (gt : K -> K -> bool) (key : A -> K).
Hypothesis gt_irrefl : forall k, gt k k = false.
Hypothesis gt_trans :
  forall a b c, gt a b = true -> gt b c = true -> gt a c = true.

(** The running best only moves to strictly greater keys. *)
Lemma max_from_chain (l : list A) :
  forall best,
    max_from gt key best l = best
    \/ gt (key (max_from gt key best l)) (key best) = true.
Proof.
  induction l as [| x t IH]; intros best; cbn [max_from]; [now left |].
  destruct (gt (key x) (key best)) eqn:E.
  - right. destruct (IH x) as [-> | H]; [assumption |].
    eapply gt_trans; eassumption.
  - apply IH.
Qed.

(** No element has a key strictly greater than the result's. *)
Lemma max_from_maximal (l : list A) :
  forall best x,
    In x (best :: l) -> gt (key x) (key (max_from gt key best l)) = false.
Proof.
  assert (Hnot : forall x m b,
             (m = b \/ gt (key m) (key b) = true) ->
             gt (key x) (key b) = false -> gt (key x) (key m) = false).
  { intros x m b [-> | Hm] Hx; [assumption |].
    destruct (gt (key x) (key m)) eqn:E; [| reflexivity].
    rewrite (gt_trans _ _ _ E Hm) in Hx. discriminate. }
  induction l as [| y t IH]; intros best x Hin; cbn [max_from].
  - destruct Hin as [<- | []]. apply gt_irrefl.
  - destruct Hin as [<- | [<- | Hin]].
    + destruct (gt (key y) (key best)) eqn:E.
      * apply (Hnot _ _ y (max_from_chain t y)).
        destruct (gt (key best) (key y)) eqn:E'; [| reflexivity].
        pose proof (gt_trans _ _ _ E' E) as C.
        rewrite gt_irrefl in C. discriminate.
      * apply IH. now left.
    + destruct (gt (key y) (key best)) eqn:E.
      * apply IH. now left.
      * apply (Hnot _ _ best (max_from_chain t best)). assumption.
    + apply IH. now right.
Qed.

End MaxFacts.

Section FallbackFacts.

Local Open Scope Z_scope.

Lemma fallback_key_better c1 c2 :
  tuple3_gt (fallback_key c1) (fallback_key c2)
  = fallback_better (cand_metrics c1) (cand_metrics c2).
Proof.
  unfold fallback_key, fallback_better, tuple3_gt.
  rewrite !ne_opp, !gt_opp. reflexivity.
Qed.

Lemma candidate_starts_nonempty last_start stride :
  1 <= last_start -> candidate_starts last_start stride <> [].
Proof.
  intros HL. unfold candidate_starts.
  destruct (py_range 0 (last_start + 1) stride) as [| x t] eqn:E.
  - cbn [last]. destruct (Z.eqb_spec 0 last_start); [lia |].
    cbn. discriminate.
  - destruct (last (x :: t) 0 =? last_start); cbn; discriminate.
Qed.

Lemma map_result_nonempty {X Y} (f : X -> result Y) l ys :
  l <> [] -> map_result f l = Ok ys -> ys <> [].
Proof.
  destruct l as [| x t]; [contradiction |]. intros _. cbn.
  destruct (f x); cbn; [| discriminate].
  destruct (map_result f t); cbn; [| discriminate].
  intros [= <-]. discriminate.
Qed.

Lemma filter_none {X} (p : X -> bool) l :
  (forall x, In x l -> p x = false) -> filter p l = [].
Proof.
  induction l as [| x t IH]; intros H; [reflexivity |].
  cbn. rewrite (H x (or_introl eq_refl)). apply IH.
  intros y Hy. apply H. now right.
Qed.

(** With no eligible candidate the choice is the maximum of all candidates
    under the fallback key. *)
Lemma choose_best_fallback (cands : list Candidate) :
  cands <> [] ->
  (forall c, In c cands -> cand_eligible c = false) ->
  exists best,
    choose_best cands = Ok (best, Some no_segment_met_quality_thresholds)
    /\ In best cands
    /\ forall c, In c cands ->
         fallback_better (cand_metrics c) (cand_metrics best) = false.
Proof.
  intros Hne Hel. unfold choose_best. rewrite (filter_none _ _ Hel).
  destruct cands as [| c0 t]; [contradiction |]. cbn [py_max_key bind].
  exists (max_from tuple3_gt fallback_key c0 t).
  split; [reflexivity |]. split; [apply max_from_In |].
  intros c Hc. rewrite <- fallback_key_better.
  apply (max_from_maximal tuple3_gt fallback_key
           tuple3_gt_irrefl tuple3_gt_trans); assumption.
Qed.

End FallbackFacts.

(** C3. Scan path with no eligible candidate: the selector returns the
    window of a candidate that is a maximum of all candidates for the order
    (least silence, then highest RMS, then least clipping), whatever the
    penalized scores, with
    [fallback_reason = "no_segment_met_quality_thresholds"].  On four
    seconds of zeros at 1000 Hz (target 2 s, step 2 s, [min_rms = 0.05],
    [max_silence_ratio = 0.01], [max_clipping_ratio = 0]) the selected window
    is [[0, 2000 ms)] with that reason. *)
Theorem fallback_selects_maximum :
  (forall (audio : list float) (sample_rate : Z)
          (target min_rms msr mcr step : float) (version : string)
          (w st : Z) (cands : list Candidate),
      audio <> [] ->
      (0 < sample_rate)%Z ->
      window_samples target sample_rate (Z.of_nat (List.length audio)) = Ok w ->
      (w < Z.of_nat (List.length audio))%Z ->
      samples_of_seconds step sample_rate = Ok st ->
      scan_candidates audio sample_rate w min_rms msr mcr st = Ok cands ->
      (forall c, In c cands -> cand_eligible c = false) ->
      exists best,
        In best cands
        /\ (forall c, In c cands ->
              fallback_better (cand_metrics c) (cand_metrics best) = false)
        /\ select_best_reference_segment audio sample_rate target min_rms msr
                                         mcr step version
           = (start_ms <- ms_of_offset (cand_start best) sample_rate ;;
              end_ms <- ms_of_offset (cand_end best) sample_rate ;;
              source_ms <-
                ms_of_offset (Z.of_nat (List.length audio)) sample_rate ;;
              Ok (Np.slice audio (cand_start best) (cand_end best),
                  {| selected_start_ms := start_ms;
                     selected_end_ms := end_ms;
                     source_duration_ms := source_ms;
                     metrics := cand_metrics best;
                     fallback_reason :=
                       Some no_segment_met_quality_thresholds;
                     policy_version := version |})))
  /\
  (forall version : string,
      select_best_reference_segment (repeat 0%float 4000) 1000 2%float
        0.05%float 0.01%float 0%float 2%float version
      = Ok (repeat 0%float 2000,
            {| selected_start_ms := 0;
               selected_end_ms := 2000;
               source_duration_ms := 4000;
               metrics := {| duration_seconds := 2%float;
                             rms := 0%float;
                             silence_ratio := 1%float;
                             clipping_ratio := 0%float;
                             peak_abs := 0%float |};
               fallback_reason := Some "no_segment_met_quality_thresholds"%string;
               policy_version := version |})).
Proof.
  split.
  - intros audio sr target min_rms msr mcr step version w st cands
           Hne Hsr Hw Hlt Hst Hc Hel.
    assert (Hcne : cands <> []).
    { unfold scan_candidates in Hc.
      eapply map_result_nonempty; [| exact Hc].
      apply candidate_starts_nonempty. lia. }
    destruct (choose_best_fallback cands Hcne Hel) as (best & Hb & Hin & Hmax).
    exists best. split; [assumption |]. split; [assumption |].
    unfold select_best_reference_segment, ms_of_offset.
    rewrite (size_nonempty audio Hne).
    destruct (Z.leb_spec sr 0) as [Hbad | _]; [lia |].
    rewrite !py_truediv_nonzero by lia. cbn [bind].
    rewrite Hw. cbn [bind].
    destruct (Z.leb_spec (Z.of_nat (List.length audio)) w) as [Hbad | _];
      [lia |].
    rewrite Hst. cbn [bind]. rewrite Hc. cbn [bind].
    rewrite Hb. cbn [bind].
    rewrite !py_truediv_nonzero by lia. reflexivity.
  - intros version. vm_compute. reflexivity.
Qed.

(** The general statement on four zero samples at 1 Hz, target and step of
    two seconds: two candidates, neither eligible. *)
Lemma fallback_selects_maximum_witness :
  exists cands best,
    scan_candidates (repeat 0%float 4) 1 2 0.05%float 0.01%float 0%float 2
    = Ok cands
    /\ In best cands
    /\ (forall c, In c cands ->
          fallback_better (cand_metrics c) (cand_metrics best) = false)
    /\ select_best_reference_segment (repeat 0%float 4) 1 2%float 0.05%float
         0.01%float 0%float 2%float "v1"
       = (start_ms <- ms_of_offset (cand_start best) 1 ;;
          end_ms <- ms_of_offset (cand_end best) 1 ;;
          source_ms <- ms_of_offset 4 1 ;;
          Ok (Np.slice (repeat 0%float 4) (cand_start best) (cand_end best),
              {| selected_start_ms := start_ms;
                 selected_end_ms := end_ms;
                 source_duration_ms := source_ms;
                 metrics := cand_metrics best;
                 fallback_reason := Some no_segment_met_quality_thresholds;
                 policy_version := "v1" |})).
Proof.
  destruct (scan_candidates (repeat 0%float 4) 1 2 0.05%float 0.01%float
              0%float 2) as [cands | e] eqn:Hc.
  2: { vm_compute in Hc. discriminate. }
  pose proof Hc as Hc'. vm_compute in Hc'. injection Hc' as Hc'.
  destruct (proj1 fallback_selects_maximum (repeat 0%float 4) 1%Z 2%float
              0.05%float 0.01%float 0%float 2%float "v1"%string 2%Z 2%Z cands)
    as (best & Hin & Hmax & Hsel).
  - discriminate.
  - lia.
  - vm_compute. reflexivity.
  - cbn. lia.
  - vm_compute. reflexivity.
  - exact Hc.
  - intros c Hin. rewrite <- Hc' in Hin.
    destruct Hin as [<- | [<- | []]]; reflexivity.
  - exists cands, best. repeat split; assumption.
Defined.

(** ** The penalty of ineligible windows *)

Section ExactScore.

Local Open Scope R_scope.









End ExactScore.




(* ================================================================== *)
(** * Properties of the reference policy loader *)
(* ================================================================== *)

Section LoaderFacts.

Import Config.
Local Open Scope string_scope.

Variable environ : string -> option string.
Variable py_float_of_str : string -> option float.
Variable py_int_of_str : string -> option Z.

(** A policy the validator rejects is replaced by the default instance as
    a whole. *)
Lemma load_rejected_is_default (reason : string) :
  _validate_voice_clone_policy
    (resolved_policy environ py_float_of_str py_int_of_str)
  = Ok (false, reason) ->
  _load_voice_clone_reference_policy environ py_float_of_str py_int_of_str
  = Ok _DEFAULT_VOICE_CLONE_POLICY.
Proof.
  intros H. unfold _load_voice_clone_reference_policy. rewrite H. reflexivity.
Qed.

(** A policy the validator accepts is returned as resolved. *)
Lemma load_accepted_is_resolved :
  _validate_voice_clone_policy
    (resolved_policy environ py_float_of_str py_int_of_str)
  = Ok (true, "") ->
  _load_voice_clone_reference_policy environ py_float_of_str py_int_of_str
  = Ok (resolved_policy environ py_float_of_str py_int_of_str).
Proof.
  intros H. unfold _load_voice_clone_reference_policy. rewrite H. reflexivity.
Qed.

(** [hard_min_seconds > recommended_target_seconds] with a hard maximum
    that converts to an integer: the default instance is returned. *)
Lemma load_hard_min_above_target (n : Z) :
  let p := resolved_policy environ py_float_of_str py_int_of_str in
  B64.gt (hard_min_seconds p) (recommended_target_seconds p) = true ->
  B64.py_int (hard_max_seconds p) = Ok n ->
  _load_voice_clone_reference_policy environ py_float_of_str py_int_of_str
  = Ok _DEFAULT_VOICE_CLONE_POLICY.
Proof.
  intros p Hgt Hint.
  assert (Hgrow : forall c m l, l <> [] -> append_if c m l <> []).
  { intros c m l Hl. unfold append_if. destruct c; [| assumption].
    destruct l; [contradiction | discriminate]. }
  assert (Hadd : forall m l, append_if true m l <> []).
  { intros m l. unfold append_if. destruct l; discriminate. }
  unfold _load_voice_clone_reference_policy, _validate_voice_clone_policy.
  fold p. cbv zeta. rewrite Hgt, Hint. cbn [bind].
  match goal with
  | |- context [match ?l with [] => _ | _ :: _ => _ end] =>
      assert (Hl : l <> []) by (repeat first [apply Hadd | apply Hgrow]);
      destruct l; [contradiction | reflexivity]
  end.
Qed.

End LoaderFacts.

(** ** The validator on policies without NaN *)

Section ValidatorFacts.

Import Config.
Local Open Scope string_scope.

Lemma append_if_grow c m l : l <> [] -> append_if c m l <> [].
Proof.
  intros Hl. unfold append_if. destruct c; [| assumption].
  destruct l; [contradiction | discriminate].
Qed.

Lemma append_if_true m l : append_if true m l <> [].
Proof. unfold append_if. destruct l; discriminate. Qed.

Lemma py_int_defined (h : float) :
  is_nan h = false -> is_infinity h = false -> exists n, B64.py_int h = Ok n.
Proof.
  intros Hn Hi. unfold B64.py_int, Prim2SF. rewrite Hn, Hi.
  destruct (is_zero h); [now exists 0%Z |].
  destruct (Z.frexp h) as [r ex].
  destruct (shr_fexp _ _ _ _ _) as [sh e'].
  destruct (shr_m sh); eexists; reflexivity.
Qed.

(** For a positive [h], [c <= h] is [c <= int(h)]. *)
Lemma int_le_py_int (c n : Z) (h : float) :
  (0 <? h)%float = true -> B64.py_int h = Ok n ->
  B64.int_le c h = (c <=? n)%Z.
Proof.
  rewrite ltb_spec. unfold SFltb, B64.py_int, B64.int_le.
  change (Prim2SF 0) with (S754_zero false).
  destruct (Prim2SF h) as [s | s | | s m e]; cbn; try discriminate.
  destruct s; [discriminate |]. intros _.
  destruct (0 <=? e)%Z; now intros [= <-].
Qed.

Ltac reject_policy :=
  cbn [andb negb];
  match goal with
  | |- exists r, match ?L with _ :: _ => _ | [] => _ end = _ =>
      let E := fresh "E" in
      destruct L eqn:E;
      [ exfalso; revert E;
        repeat first [apply append_if_true | apply append_if_grow]
      | eexists; reflexivity ]
  end.

(** On such a policy the validator accepts exactly when the structural
    invariant holds, so the loader falls back exactly when it is broken. *)
Lemma validator_decides_invariant (p : VoiceCloneReferencePolicy) :
  ordinary p ->
  exists reason,
    _validate_voice_clone_policy p = Ok (policy_invariant p, reason).
Proof.
  intros (N1 & N2 & N3 & I3 & N5 & N8).
  destruct (py_int_defined _ N3 I3) as [n Hn].
  assert (N0 : is_nan 0 = false) by reflexivity.
  unfold _validate_voice_clone_policy, policy_invariant, B64.gt.
  cbv zeta. rewrite Hn. cbn [bind].
  rewrite (leb_negb_ltb _ 0 N1 N0), (leb_negb_ltb _ 0 N2 N0),
    (leb_negb_ltb _ 0 N3 N0), (leb_negb_ltb _ 0 N5 N0),
    (leb_negb_ltb _ 0 N8 N0).
  rewrite (leb_negb_ltb _ _ N1 N2), (leb_negb_ltb _ _ N2 N3).
  rewrite (Z.leb_antisym 0 (capture_auto_stop_seconds p)).
  rewrite (Z.gtb_ltb (capture_auto_stop_seconds p) n), (Z.ltb_antisym).
  destruct (0 <? hard_min_seconds p)%float; [| reject_policy].
  destruct (0 <? recommended_target_seconds p)%float; [| reject_policy].
  destruct (0 <? hard_max_seconds p)%float eqn:H3; [| reject_policy].
  rewrite (int_le_py_int _ n _ H3 Hn).
  destruct (recommended_target_seconds p <? hard_min_seconds p)%float;
    [reject_policy |].
  destruct (hard_max_seconds p <? recommended_target_seconds p)%float;
    [reject_policy |].
  destruct (0 <? capture_auto_stop_seconds p)%Z; [| reject_policy].
  destruct (capture_auto_stop_seconds p <=? n)%Z; [| reject_policy].
  destruct (0 <? min_rms p)%float; [| reject_policy].
  destruct (0 <=? max_silence_ratio p)%float; [| reject_policy].
  destruct (max_silence_ratio p <=? 1)%float; [| reject_policy].
  destruct (0 <=? max_clipping_ratio p)%float; [| reject_policy].
  destruct (max_clipping_ratio p <=? 1)%float; [| reject_policy].
  destruct (0 <? selection_step_seconds p)%float; [| reject_policy].
  eexists. reflexivity.
Qed.

(** The loader on an environment that resolves to such a policy: the
    resolved policy when the invariant holds, the default instance as a
    whole when it does not. *)
Lemma load_ordinary (environ : string -> option string)
      (py_float_of_str : string -> option float)
      (py_int_of_str : string -> option Z) :
  let p := resolved_policy environ py_float_of_str py_int_of_str in
  ordinary p ->
  _load_voice_clone_reference_policy environ py_float_of_str py_int_of_str
  = Ok (if policy_invariant p then p else _DEFAULT_VOICE_CLONE_POLICY).
Proof.
  intros p Hp. destruct (validator_decides_invariant p Hp) as [reason Hv].
  unfold _load_voice_clone_reference_policy. fold p. rewrite Hv. cbn [bind].
  now destruct (policy_invariant p).
Qed.

End ValidatorFacts.

(** C4 at the environment [VOICE_CLONE_REF_MIN_RMS=nan], with every other
    variable unset.  [float("nan")] is NaN, no check of the validator fires
    on NaN, and the loader returns the resolved policy with
    [min_rms = nan]: it breaks the invariant and is not the default
    instance. *)
Theorem load_accepts_nan_min_rms :
  forall (environ : string -> option string)
         (py_float_of_str : string -> option float)
         (py_int_of_str : string -> option Z),
    environ "VOICE_CLONE_REF_MIN_RMS"%string = Some "nan"%string ->
    (forall name, name <> "VOICE_CLONE_REF_MIN_RMS"%string ->
                  environ name = None) ->
    py_float_of_str "nan"%string = Some nan ->
    let p := Config.mkPolicy 2%float 15%float 60%float 29 nan 0.45%float
                             0.02%float 0.5%float "v1" in
    Config._load_voice_clone_reference_policy
      environ py_float_of_str py_int_of_str = Ok p
    /\ Config.policy_invariant p = false
    /\ p <> Config._DEFAULT_VOICE_CLONE_POLICY.
Proof.
  intros environ pf pi Hset Hunset Hnan p.
  split; [| split].
  - unfold Config._load_voice_clone_reference_policy, Config.resolved_policy,
      Config._env_float, Config._env_int, Config.environ_get.
    rewrite Hset, Hnan.
    rewrite !Hunset by discriminate.
    vm_compute. reflexivity.
  - vm_compute. reflexivity.
  - intros H. apply (f_equal Config.min_rms) in H. cbn in H.
    apply (f_equal is_nan) in H. vm_compute in H. discriminate.
Qed.

(** The same, with an environment and a [float] that know only this
    entry. *)
Lemma load_accepts_nan_min_rms_witness :
  let environ := fun name : string =>
    if String.eqb name "VOICE_CLONE_REF_MIN_RMS" then Some "nan"%string
    else None in
  let py_float_of_str := fun raw : string =>
    if String.eqb raw "nan" then Some nan else None in
  let p := Config.mkPolicy 2%float 15%float 60%float 29 nan 0.45%float
                           0.02%float 0.5%float "v1" in
  Config._load_voice_clone_reference_policy
    environ py_float_of_str (fun _ => None) = Ok p
  /\ Config.policy_invariant p = false
  /\ p <> Config._DEFAULT_VOICE_CLONE_POLICY.
Proof.
  intros environ py_float_of_str.
  apply (load_accepts_nan_min_rms environ py_float_of_str (fun _ => None)).
  - reflexivity.
  - intros name Hname. unfold environ.
    destruct (String.eqb_spec name "VOICE_CLONE_REF_MIN_RMS");
      [contradiction | reflexivity].
  - reflexivity.
Defined.

(* ================================================================== *)
(** * Properties of the recording-task tracker *)
(* ================================================================== *)

Section DictFacts.

Import Tasks.

Lemma is_processing_stage_In (s : string) :
  is_processing_stage s = true <-> In s PROCESSING_STAGES.
Proof.
  unfold is_processing_stage. rewrite existsb_exists. split.
  - intros (x & Hin & Hx). apply String.eqb_eq in Hx. now subst.
  - intros Hin. exists s. split; [assumption | apply String.eqb_refl].
Qed.

Lemma dict_del_In (d : dict) (k k' : string) (a : ref) :
  In (k', a) (dict_del d k) <-> In (k', a) d /\ k' <> k.
Proof.
  unfold dict_del. rewrite filter_In. cbn [fst].
  destruct (String.eqb_spec k k') as [-> | Hne]; cbn; split.
  - intros [_ H]. discriminate.
  - intros [_ H]. contradiction.
  - intros [H _]. split; [assumption | congruence].
  - intros [H _]. split; [assumption | reflexivity].
Qed.

Lemma purge_In (ids : list string) :
  forall (d : dict) (k : string) (a : ref),
    In (k, a) (fold_left dict_del ids d) <-> In (k, a) d /\ ~ In k ids.
Proof.
  induction ids as [| i t IH]; intros d k a; cbn [fold_left].
  - cbn. tauto.
  - rewrite IH, dict_del_In. cbn [In]. split.
    + intros [[H1 H2] H3]. split; [assumption |]. intros [-> | H]; tauto.
    + intros [H1 H2]. repeat split; [assumption | |]; intuition congruence.
Qed.

Lemma dict_get_In (d : dict) (k : string) (a : ref) :
  dict_get d k = Some a -> In (k, a) d.
Proof.
  induction d as [| [k' v] d IH]; cbn; [discriminate |].
  destruct (String.eqb_spec k k') as [-> | Hne].
  - intros [= ->]. now left.
  - intros H. right. now apply IH.
Qed.

Lemma In_dict_get (d : dict) (k : string) (a : ref) :
  NoDup (dict_keys d) -> In (k, a) d -> dict_get d k = Some a.
Proof.
  induction d as [| [k' v] d IH]; cbn; [intros _ [] |].
  intros Hnd [[= -> ->] | Hin].
  - now rewrite String.eqb_refl.
  - inversion Hnd as [| ? ? Hnot Hnd']; subst.
    destruct (String.eqb_spec k k') as [-> | Hne].
    + exfalso. apply Hnot. change k' with (fst (k', a)).
      now apply in_map.
    + now apply IH.
Qed.

Lemma In_keys (d : dict) (k : string) :
  In k (dict_keys d) <-> exists a, In (k, a) d.
Proof.
  unfold dict_keys. rewrite in_map_iff. split.
  - intros ([k' a] & <- & Hin). now exists a.
  - intros (a & Hin). now exists (k, a).
Qed.

Lemma purge_keys_NoDup (ids : list string) :
  forall d, NoDup (dict_keys d) -> NoDup (dict_keys (fold_left dict_del ids d)).
Proof.
  assert (Hf : forall (p : string * ref -> bool) d,
             NoDup (dict_keys d) -> NoDup (dict_keys (filter p d))).
  { intros p d. induction d as [| [k v] d IH]; cbn; [trivial |].
    intros Hnd. inversion Hnd as [| ? ? Hnot Hnd']; subst.
    destruct (p (k, v)); cbn; [| now apply IH].
    constructor; [| now apply IH].
    intros Hin. apply Hnot. apply In_keys in Hin. destruct Hin as (a & Hin).
    apply filter_In in Hin. apply In_keys. exists a. tauto. }
  induction ids as [| i t IH]; intros d Hnd; cbn [fold_left]; [assumption |].
  apply IH. now apply Hf.
Qed.

(** The ids deleted by a listing at time [now]. *)
Lemma stale_id_iff (h : store) (cutoff : datetime) (d : dict) (k : string) :
  In k (map fst (filter (is_stale_error h cutoff) d))
  <-> exists a, In (k, a) d /\ is_stale_error h cutoff (k, a) = true.
Proof.
  rewrite in_map_iff. split.
  - intros ([k' a] & <- & Hin). apply filter_In in Hin. now exists a.
  - intros (a & Hin & Hs). exists (k, a). split; [reflexivity |].
    apply filter_In. tauto.
Qed.

Lemma unique_value (d : dict) (k : string) (a b : ref) :
  NoDup (dict_keys d) -> In (k, a) d -> In (k, b) d -> a = b.
Proof.
  intros Hnd Ha Hb.
  apply (In_dict_get d k a Hnd) in Ha. apply (In_dict_get d k b Hnd) in Hb.
  congruence.
Qed.

Lemma load_modify_same (h : store) (a : ref) f t :
  load h a = Some t -> load (modify h a f) a = Some (f t).
Proof.
  unfold load. revert a. induction h as [| x h IH]; intros [| a]; cbn;
    try discriminate.
  - now intros [= ->].
  - apply IH.
Qed.

End DictFacts.

(** ** Every operation keeps one entry per task id *)

Section WellFormed.

Import Tasks.

Lemma dict_set_keys (d : dict) (k : string) (v : ref) (k' : string) :
  In k' (dict_keys (dict_set d k v)) <-> k' = k \/ In k' (dict_keys d).
Proof.
  induction d as [| [k0 v0] d IH]; cbn.
  - intuition congruence.
  - destruct (String.eqb_spec k k0) as [-> | Hne]; cbn.
    + intuition congruence.
    + unfold dict_keys in IH. rewrite IH. intuition congruence.
Qed.

Lemma dict_set_NoDup (d : dict) (k : string) (v : ref) :
  NoDup (dict_keys d) -> NoDup (dict_keys (dict_set d k v)).
Proof.
  induction d as [| [k0 v0] d IH]; cbn; intros Hnd.
  - constructor; [intros [] | constructor].
  - inversion Hnd as [| ? ? Hnot Hnd']; subst.
    destruct (String.eqb_spec k k0) as [-> | Hne]; cbn.
    + now constructor.
    + constructor; [| now apply IH].
      intros Hin. apply dict_set_keys in Hin.
      destruct Hin as [-> | Hin]; [congruence | contradiction].
Qed.

Lemma dict_del_NoDup (d : dict) (k : string) :
  NoDup (dict_keys d) -> NoDup (dict_keys (dict_del d k)).
Proof. intros H. exact (purge_keys_NoDup [k] d H). Qed.

Lemma empty_manager_well_formed : well_formed empty_manager.
Proof. constructor. Qed.

Lemma start_well_formed tm tid msg now :
  well_formed tm -> well_formed (start_recording_processing tm tid msg now).
Proof. intros H. now apply dict_set_NoDup. Qed.

Lemma get_or_create_well_formed tm tid now :
  well_formed tm -> well_formed (fst (get_or_create tm tid now)).
Proof.
  intros H. unfold get_or_create.
  destruct (dict_get _ tid); [assumption | now apply dict_set_NoDup].
Qed.

Lemma update_well_formed tm tid stage_ progress_ message_ now :
  well_formed tm ->
  well_formed
    (snd (update_recording_processing tm tid stage_ progress_ message_ now)).
Proof.
  intros H. unfold update_recording_processing.
  destruct (is_processing_stage stage_); cbn [negb]; [| assumption].
  pose proof (get_or_create_well_formed tm tid now H) as H1.
  destruct (get_or_create tm tid now) as [tm1 a]. exact H1.
Qed.

Lemma complete_well_formed tm tid stage_ message_ now :
  well_formed tm ->
  well_formed (complete_recording_processing tm tid stage_ message_ now).
Proof.
  intros H. unfold complete_recording_processing.
  destruct (dict_get _ tid); [now apply dict_del_NoDup | assumption].
Qed.

Lemma error_well_formed tm tid error_ stage_ message_ now :
  well_formed tm ->
  well_formed (error_recording_processing tm tid error_ stage_ message_ now).
Proof.
  intros H. unfold error_recording_processing.
  pose proof (get_or_create_well_formed tm tid now H) as H1.
  destruct (get_or_create tm tid now) as [tm1 a]. exact H1.
Qed.

Lemma complete_error_well_formed tm tid :
  well_formed tm -> well_formed (complete_error_recording_processing tm tid).
Proof.
  intros H. unfold complete_error_recording_processing.
  destruct (dict_contains _ tid); [now apply dict_del_NoDup | assumption].
Qed.

Lemma listing_well_formed tm now :
  well_formed tm -> well_formed (snd (get_active_recording_tasks tm now)).
Proof. intros H. now apply purge_keys_NoDup. Qed.

End WellFormed.

(** C5. [update_recording_processing] with a stage outside
    [PROCESSING_STAGES] raises the invalid-stage [ValueError] and leaves the
    manager as it was: every record it holds is unchanged and no record is
    created. *)
Theorem update_rejects_invalid_stage :
  forall (tm : Tasks.TaskManager) (tid stage : string)
         (progress : option float) (message : option string)
         (now : Tasks.datetime),
    ~ In stage Tasks.PROCESSING_STAGES ->
    Tasks.update_recording_processing tm tid stage progress message now
    = (Raise (ValueError ("Invalid processing stage: " ++ stage)), tm)
    /\ forall other : string,
        let tm' :=
          snd (Tasks.update_recording_processing tm tid stage progress
                 message now) in
        Tasks.tracked tm' other = Tasks.tracked tm other
        /\ Tasks.is_recording_processing_active tm' other
           = Tasks.is_recording_processing_active tm other.
Proof.
  intros tm tid stage progress message now Hstage.
  assert (E : Tasks.update_recording_processing tm tid stage progress message
                now
              = (Raise (ValueError ("Invalid processing stage: " ++ stage)), tm)).
  { unfold Tasks.update_recording_processing.
    destruct (Tasks.is_processing_stage stage) eqn:Hs; [| reflexivity].
    apply is_processing_stage_In in Hs. contradiction. }
  split; [exact E |].
  intros other. rewrite E. split; reflexivity.
Qed.

(** The rejected call of the test suite. *)
Lemma update_rejects_invalid_stage_witness :
  let tm := Tasks.start_recording_processing Tasks.empty_manager
              "task-invalid-stage" None 0 in
  Tasks.update_recording_processing tm "task-invalid-stage" "invalid-stage"
    (Some 10%float) None 5
  = (Raise (ValueError "Invalid processing stage: invalid-stage"), tm).
Proof.
  intros tm.
  apply (update_rejects_invalid_stage tm "task-invalid-stage" "invalid-stage"
           (Some 10%float) None 5%Z).
  cbn. intros H. repeat (destruct H as [H | H]; [discriminate |]). exact H.
Defined.

(** C6, as stated, fails at the boundary: an error record whose last
    update is exactly 30 seconds old is kept by the listing. *)
Lemma error_task_30s_stale_is_kept :
  let tm0 := Tasks.start_recording_processing Tasks.empty_manager
               "task-error-expiry" None 0 in
  let tm1 := Tasks.error_recording_processing tm0 "task-error-expiry"
               "failed" (Some "transcribe"%string) None 0 in
  let now := Tasks.timedelta_seconds 30 in
  (exists t, Tasks.tracked tm1 "task-error-expiry" = Some t
             /\ Tasks.status t = "error"%string
             /\ (now - Tasks.updated_at t >= Tasks.timedelta_seconds 30)%Z)
  /\ fst (Tasks.get_active_recording_tasks tm1 now) = [0%nat]
  /\ Tasks.is_recording_processing_active
       (snd (Tasks.get_active_recording_tasks tm1 now)) "task-error-expiry"
     = true.
Proof.
  cbv zeta. split; [| split].
  - eexists. split; [vm_compute; reflexivity |].
    split; [reflexivity | vm_compute; discriminate].
  - vm_compute. reflexivity.
  - vm_compute. reflexivity.
Qed.

Section PurgeFacts.

Import Tasks.

Variables (tm : TaskManager) (now : datetime).

Let d := _active_recording_tasks tm.
Let cutoff := (now - timedelta_seconds 30)%Z.
Let stale := map fst (filter (is_stale_error (objects tm) cutoff) d).
Let d' := _active_recording_tasks (snd (get_active_recording_tasks tm now)).

Lemma listing_dict : d' = fold_left dict_del stale d.
Proof. reflexivity. Qed.

Lemma listing_values :
  fst (get_active_recording_tasks tm now) = dict_values d'.
Proof. reflexivity. Qed.

Lemma listing_subset k a : In (k, a) d' -> In (k, a) d.
Proof. rewrite listing_dict, purge_In. tauto. Qed.

Lemma listing_entry (tid : string) (a : ref) (t : RecordingProcessingTask) :
  NoDup (dict_keys d) ->
  dict_get d tid = Some a ->
  load (objects tm) a = Some t ->
  In tid stale
  <-> (status t = "error"%string /\ (updated_at t < cutoff)%Z).
Proof.
  intros Hnd Hget Hload. unfold stale. rewrite stale_id_iff.
  apply dict_get_In in Hget.
  assert (Hs : is_stale_error (objects tm) cutoff (tid, a) = true
               <-> status t = "error"%string /\ (updated_at t < cutoff)%Z).
  { unfold is_stale_error. cbn [snd]. rewrite Hload.
    rewrite andb_true_iff, String.eqb_eq, Z.ltb_lt. tauto. }
  split.
  - intros (b & Hin & Hb).
    rewrite (unique_value d tid b a Hnd Hin Hget) in Hb. now apply Hs.
  - intros H. exists a. split; [assumption | now apply Hs].
Qed.

End PurgeFacts.

(** C6, amended. A listing purges an error record exactly when its last
    update is more than 30 seconds old: such a record has no entry after
    the call, none of the returned references belongs to its id, and no
    later listing shows it unless it is created again; an error record that
    is at most 30 seconds old, and any record whose status is not
    ["error"], keeps its entry and is in the returned list. *)
Theorem stale_error_purged_after_30s :
  forall (tm : Tasks.TaskManager) (now : Tasks.datetime)
         (tid : string) (a : Tasks.ref) (t : Tasks.RecordingProcessingTask),
    Tasks.well_formed tm ->
    Tasks.dict_get (Tasks._active_recording_tasks tm) tid = Some a ->
    Tasks.load (Tasks.objects tm) a = Some t ->
    let snapshot := fst (Tasks.get_active_recording_tasks tm now) in
    let tm' := snd (Tasks.get_active_recording_tasks tm now) in
    snapshot = Tasks.dict_values (Tasks._active_recording_tasks tm')
    /\ (Tasks.status t = "error"%string ->
        (Tasks.timedelta_seconds 30 < now - Tasks.updated_at t)%Z ->
        ~ In tid (Tasks.dict_keys (Tasks._active_recording_tasks tm'))
        /\ Tasks.is_recording_processing_active tm' tid = false
        /\ forall later : Tasks.datetime,
            ~ In tid
                (Tasks.dict_keys
                   (Tasks._active_recording_tasks
                      (snd (Tasks.get_active_recording_tasks tm' later)))))
    /\ ((Tasks.status t <> "error"%string
         \/ (now - Tasks.updated_at t <= Tasks.timedelta_seconds 30)%Z) ->
        Tasks.dict_get (Tasks._active_recording_tasks tm') tid = Some a
        /\ In a snapshot
        /\ Tasks.tracked tm' tid = Some t).
Proof.
  intros tm now tid a t Hnd Hget Hload snapshot tm'.
  pose proof (listing_entry tm now tid a t Hnd Hget Hload) as Hstale.
  split; [reflexivity |]. split.
  - intros Herr Hold.
    assert (Hgone : ~ In tid (Tasks.dict_keys (Tasks._active_recording_tasks tm'))).
    { intros Hin. apply In_keys in Hin. destruct Hin as (b & Hin).
      unfold tm' in Hin. rewrite listing_dict in Hin.
      apply purge_In in Hin. destruct Hin as [_ Hnot]. apply Hnot.
      apply Hstale. split; [assumption | lia]. }
    split; [assumption |]. split.
    + unfold Tasks.is_recording_processing_active, Tasks.dict_contains.
      destruct (Tasks.dict_get (Tasks._active_recording_tasks tm') tid)
        as [b |] eqn:E; [| reflexivity].
      exfalso. apply Hgone. apply In_keys. exists b.
      now apply dict_get_In.
    + intros later Hin. apply Hgone. apply In_keys in Hin.
      destruct Hin as (b & Hin). apply listing_subset in Hin.
      apply In_keys. now exists b.
  - intros Hkeep.
    assert (Hin : In (tid, a) (Tasks._active_recording_tasks tm')).
    { unfold tm'. rewrite listing_dict. apply purge_In.
      split; [now apply dict_get_In |].
      intros Hs. apply Hstale in Hs. destruct Hs as [Herr Hold].
      destruct Hkeep as [Hk | Hk]; [contradiction | lia]. }
    assert (Hget' : Tasks.dict_get (Tasks._active_recording_tasks tm') tid
                    = Some a).
    { apply In_dict_get; [| assumption].
      unfold tm'. rewrite listing_dict. now apply purge_keys_NoDup. }
    split; [assumption |]. split.
    + unfold snapshot. rewrite listing_values. unfold Tasks.dict_values.
      change a with (snd (tid, a)). now apply in_map.
    + unfold Tasks.tracked. rewrite Hget'. exact Hload.
Qed.

(** An error record listed 30 s and 31 s after its last update: kept, then
    purged. *)
Lemma stale_error_purged_after_30s_witness :
  let tm0 := Tasks.start_recording_processing Tasks.empty_manager
               "task-error-expiry" None 0 in
  let tm1 := Tasks.error_recording_processing tm0 "task-error-expiry"
               "failed" (Some "transcribe"%string) None 0 in
  In 0%nat (fst (Tasks.get_active_recording_tasks tm1
                   (Tasks.timedelta_seconds 30)))
  /\ Tasks.is_recording_processing_active
       (snd (Tasks.get_active_recording_tasks tm1
               (Tasks.timedelta_seconds 31)))
       "task-error-expiry" = false.
Proof.
  intros tm0 tm1.
  assert (Hnd : Tasks.well_formed tm1).
  { apply error_well_formed, start_well_formed, empty_manager_well_formed. }
  assert (Hget : Tasks.dict_get (Tasks._active_recording_tasks tm1)
                   "task-error-expiry" = Some 0%nat)
    by (vm_compute; reflexivity).
  destruct (Tasks.load (Tasks.objects tm1) 0%nat) as [t |] eqn:Hload.
  2: { vm_compute in Hload. discriminate. }
  assert (Hst : Tasks.status t = "error"%string)
    by (vm_compute in Hload; injection Hload as <-; reflexivity).
  assert (Hup : Tasks.updated_at t = 0%Z)
    by (vm_compute in Hload; injection Hload as <-; reflexivity).
  split.
  - apply (stale_error_purged_after_30s tm1 (Tasks.timedelta_seconds 30)
             "task-error-expiry" 0%nat t Hnd Hget Hload).
    right. rewrite Hup. vm_compute. discriminate.
  - apply (stale_error_purged_after_30s tm1 (Tasks.timedelta_seconds 31)
             "task-error-expiry" 0%nat t Hnd Hget Hload).
    + exact Hst.
    + rewrite Hup. vm_compute. reflexivity.
Defined.

(** C7, as stated, fails: the listing of a manager with one task returns
    the reference the manager holds; assigning to [stage] through it
    changes the record the manager tracks for that id. *)
Lemma listed_record_is_shared :
  let tm0 := Tasks.start_recording_processing Tasks.empty_manager "t" None 0 in
  let listed := fst (Tasks.get_active_recording_tasks tm0 0) in
  let tm1 := snd (Tasks.get_active_recording_tasks tm0 0) in
  listed = [0%nat]
  /\ option_map Tasks.stage (Tasks.tracked tm1 "t") = Some "upload"%string
  /\ option_map Tasks.stage
       (Tasks.tracked (Tasks.caller_setattr tm1 0%nat (Tasks.set_stage "save")) "t")
     = Some "save"%string
  /\ Tasks.tracked (Tasks.caller_setattr tm1 0%nat (Tasks.set_stage "save")) "t"
     <> Tasks.tracked tm1 "t".
Proof.
  cbv zeta. repeat split; try (vm_compute; reflexivity).
  intros H. apply (f_equal (option_map Tasks.stage)) in H.
  vm_compute in H. discriminate.
Qed.

(** C7, amended. The list returned by the listing is a new list of the
    references held by the manager's dictionary: no assignment through a
    returned reference changes which ids the dictionary holds or what they
    refer to, but the records are shared, so an assignment through a
    returned reference is what the manager tracks for that id afterwards. *)
Theorem listing_returns_shared_records :
  forall (tm : Tasks.TaskManager) (now : Tasks.datetime),
    let listed := fst (Tasks.get_active_recording_tasks tm now) in
    let tm' := snd (Tasks.get_active_recording_tasks tm now) in
    listed = Tasks.dict_values (Tasks._active_recording_tasks tm')
    /\ (forall a f,
          Tasks._active_recording_tasks (Tasks.caller_setattr tm' a f)
          = Tasks._active_recording_tasks tm')
    /\ (forall tid a t f,
          Tasks.dict_get (Tasks._active_recording_tasks tm') tid = Some a ->
          Tasks.load (Tasks.objects tm') a = Some t ->
          In a listed
          /\ Tasks.tracked (Tasks.caller_setattr tm' a f) tid = Some (f t)).
Proof.
  intros tm now listed tm'.
  split; [reflexivity |]. split; [reflexivity |].
  intros tid a t f Hget Hload. split.
  - unfold listed. rewrite listing_values. unfold Tasks.dict_values.
    change a with (snd (tid, a)). apply in_map. now apply dict_get_In.
  - unfold Tasks.tracked, Tasks.caller_setattr.
    cbn [Tasks._active_recording_tasks Tasks.objects].
    rewrite Hget. now apply load_modify_same.
Qed.

(** One task, listed, then re-staged by the caller through the returned
    reference. *)
Lemma listing_returns_shared_records_witness :
  let tm0 := Tasks.start_recording_processing Tasks.empty_manager "t" None 0 in
  let tm1 := snd (Tasks.get_active_recording_tasks tm0 0) in
  In 0%nat (fst (Tasks.get_active_recording_tasks tm0 0))
  /\ Tasks.tracked (Tasks.caller_setattr tm1 0%nat (Tasks.set_stage "save")) "t"
     = Some (Tasks.set_stage "save"
               (Tasks.mkTask "t" "upload" "running" (Some 0%float)
                             (Some "Uploading sample"%string) None 0 0)).
Proof.
  intros tm0 tm1.
  apply (proj2 (proj2 (listing_returns_shared_records tm0 0%Z))
           "t"%string 0%nat).
  - vm_compute. reflexivity.
  - vm_compute. reflexivity.
Defined.

(* ================================================================== *)
(** * Further properties of the recording-task tracker *)
(* ================================================================== *)

Section StoreFacts.

Import Tasks.

Lemma load_alloc_old (h : store) (t : RecordingProcessingTask) (a : ref) :
  (a < List.length h)%nat -> load (h ++ [t]) a = load h a.
Proof. intros H. unfold load. now rewrite nth_error_app1. Qed.

Lemma load_alloc_new (h : store) (t : RecordingProcessingTask) :
  load (h ++ [t]) (List.length h) = Some t.
Proof.
  unfold load. rewrite nth_error_app2 by lia. now rewrite Nat.sub_diag.
Qed.

Lemma load_valid (h : store) (a : ref) t :
  load h a = Some t -> (a < List.length h)%nat.
Proof. intros H. apply nth_error_Some. unfold load in H. congruence. Qed.

Lemma load_modify_other (h : store) (a b : ref) f :
  a <> b -> load (modify h a f) b = load h b.
Proof.
  unfold load. revert a b.
  induction h as [| x h IH]; intros [| a] [| b] Hab; cbn;
    try reflexivity; try congruence.
  apply IH. congruence.
Qed.

Lemma load_modify (h : store) (a b : ref) f :
  load (modify h a f) b
  = if Nat.eqb a b then option_map f (load h b) else load h b.
Proof.
  destruct (Nat.eqb_spec a b) as [<- | Hne].
  - destruct (load h a) as [t |] eqn:E.
    + now apply load_modify_same.
    + cbn. unfold load in *. revert a E.
      induction h as [| x h IH]; intros [| a] E; cbn in *;
        try reflexivity; try discriminate.
      now apply IH.
  - now apply load_modify_other.
Qed.

Lemma dict_get_set_same (d : dict) (k : string) (v : ref) :
  dict_get (dict_set d k v) k = Some v.
Proof.
  induction d as [| [k0 v0] d IH]; cbn.
  - now rewrite String.eqb_refl.
  - destruct (String.eqb_spec k k0) as [-> | Hne]; cbn.
    + now rewrite String.eqb_refl.
    + destruct (String.eqb_spec k k0); [contradiction | assumption].
Qed.

Lemma dict_get_set_other (d : dict) (k k' : string) (v : ref) :
  k' <> k -> dict_get (dict_set d k v) k' = dict_get d k'.
Proof.
  intros Hne. induction d as [| [k0 v0] d IH]; cbn.
  - destruct (String.eqb_spec k' k); [contradiction | reflexivity].
  - destruct (String.eqb_spec k k0) as [-> | Hk]; cbn.
    + destruct (String.eqb_spec k' k0); [contradiction | reflexivity].
    + destruct (String.eqb_spec k' k0); [reflexivity | assumption].
Qed.

Lemma dict_get_del_same (d : dict) (k : string) :
  dict_get (dict_del d k) k = None.
Proof.
  induction d as [| [k0 v0] d IH]; cbn; [reflexivity |].
  destruct (String.eqb_spec k k0) as [-> | Hne]; cbn; [assumption |].
  destruct (String.eqb_spec k k0); [contradiction | assumption].
Qed.

Lemma dict_get_del_other (d : dict) (k k' : string) :
  k' <> k -> dict_get (dict_del d k) k' = dict_get d k'.
Proof.
  intros Hne. induction d as [| [k0 v0] d IH]; cbn; [reflexivity |].
  destruct (String.eqb_spec k k0) as [-> | Hk]; cbn.
  - destruct (String.eqb_spec k' k0); [contradiction | assumption].
  - destruct (String.eqb_spec k' k0); [reflexivity | assumption].
Qed.

Lemma dict_set_In (d : dict) (k : string) (v : ref) kv :
  In kv (dict_set d k v) -> kv = (k, v) \/ In kv d.
Proof.
  induction d as [| [k0 v0] d IH]; cbn.
  - intros [<- | []]. now left.
  - destruct (String.eqb_spec k k0) as [-> | Hne]; cbn.
    + intros [<- | H]; [now left | right; now right].
    + intros [<- | H]; [right; now left |].
      destruct (IH H) as [-> | H1]; [now left | right; now right].
Qed.

Lemma dict_set_values_NoDup (d : dict) (k : string) (v : ref) :
  NoDup (dict_values d) -> ~ In v (dict_values d) ->
  NoDup (dict_values (dict_set d k v)).
Proof.
  unfold dict_values.
  induction d as [| [k0 v0] d IH]; cbn; intros Hnd Hv.
  - constructor; [intros [] | constructor].
  - inversion Hnd as [| ? ? Hnot Hnd']; subst.
    destruct (String.eqb_spec k k0) as [-> | Hne]; cbn.
    + constructor; [tauto | assumption].
    + constructor; [| apply IH; tauto].
      intros Hin. apply in_map_iff in Hin.
      destruct Hin as ([k1 v1] & E & Hin). cbn in E. subst v1.
      apply dict_set_In in Hin. destruct Hin as [[= _ ->] | Hin]; [tauto |].
      apply Hnot. change v0 with (snd (k1, v0)). now apply in_map.
Qed.

Lemma filter_values_NoDup (p : string * ref -> bool) (d : dict) :
  NoDup (dict_values d) -> NoDup (dict_values (filter p d)).
Proof.
  unfold dict_values.
  induction d as [| [k v] d IH]; cbn; [trivial |].
  intros Hnd. inversion Hnd as [| ? ? Hnot Hnd']; subst.
  destruct (p (k, v)); cbn; [| now apply IH].
  constructor; [| now apply IH].
  intros Hin. apply Hnot. apply in_map_iff in Hin.
  destruct Hin as (kv & E & Hin). apply filter_In in Hin.
  apply in_map_iff. exists kv. tauto.
Qed.

Lemma filter_keys_NoDup (p : string * ref -> bool) (d : dict) :
  NoDup (dict_keys d) -> NoDup (dict_keys (filter p d)).
Proof.
  unfold dict_keys.
  induction d as [| [k v] d IH]; cbn; [trivial |].
  intros Hnd. inversion Hnd as [| ? ? Hnot Hnd']; subst.
  destruct (p (k, v)); cbn; [| now apply IH].
  constructor; [| now apply IH].
  intros Hin. apply Hnot. apply in_map_iff in Hin.
  destruct Hin as (kv & E & Hin). apply filter_In in Hin.
  apply in_map_iff. exists kv. tauto.
Qed.

(** Iterated deletion is one filter. *)
Lemma purge_filter (ids : list string) (d : dict) :
  fold_left dict_del ids d
  = filter (fun kv => negb (existsb (fun i => String.eqb i (fst kv)) ids)) d.
Proof.
  revert d. induction ids as [| i t IH]; intros d; cbn [fold_left].
  - cbn. induction d as [| kv d IHd]; cbn; [reflexivity | now f_equal].
  - rewrite IH. unfold dict_del. 
    induction d as [| kv d IHd]; cbn; [reflexivity |].
    destruct (String.eqb i (fst kv)); cbn; [assumption |].
    destruct (existsb _ t); cbn; [assumption | now f_equal].
Qed.

Lemma unique_key (d : dict) (k1 k2 : string) (a : ref) :
  NoDup (dict_values d) -> In (k1, a) d -> In (k2, a) d -> k1 = k2.
Proof.
  unfold dict_values.
  induction d as [| [k v] d IH]; cbn; [intros _ [] |].
  intros Hnd H1 H2. inversion Hnd as [| ? ? Hnot Hnd']; subst.
  destruct H1 as [E1 | H1], H2 as [E2 | H2].
  - congruence.
  - exfalso. injection E1 as -> ->. apply Hnot.
    change a with (snd (k2, a)). now apply in_map.
  - exfalso. injection E2 as -> ->. apply Hnot.
    change a with (snd (k1, a)). now apply in_map.
  - now apply IH.
Qed.


End StoreFacts.

Section ConsistencyFacts.

Import Tasks.

Lemma consistent_modify (tm : TaskManager) (a : ref) f :
  consistent tm ->
  (forall t, task_id (f t) = task_id t) ->
  consistent (mkManager (modify (objects tm) a f) (_active_recording_tasks tm)).
Proof.
  intros (Hk & Hv & He) Hf. split; [exact Hk |]. split; [exact Hv |].
  cbn. intros k b Hin. destruct (He k b Hin) as (t & Hl & Ht).
  rewrite load_modify. destruct (Nat.eqb a b).
  - rewrite Hl. cbn. exists (f t). split; [reflexivity |]. now rewrite Hf.
  - now exists t.
Qed.

Lemma consistent_filter (tm : TaskManager) (p : string * ref -> bool) :
  consistent tm ->
  consistent (mkManager (objects tm) (filter p (_active_recording_tasks tm))).
Proof.
  intros (Hk & Hv & He). split; [| split]; cbn.
  - now apply filter_keys_NoDup.
  - now apply filter_values_NoDup.
  - intros k a Hin. apply filter_In in Hin. now apply He.
Qed.

Lemma consistent_alloc_set (tm : TaskManager) (t : RecordingProcessingTask) :
  consistent tm ->
  consistent (mkManager (objects tm ++ [t])
                        (dict_set (_active_recording_tasks tm) (task_id t)
                                  (List.length (objects tm)))).
Proof.
  intros (Hk & Hv & He).
  assert (Hfresh : ~ In (List.length (objects tm))
                        (dict_values (_active_recording_tasks tm))).
  { intros Hin. apply in_map_iff in Hin. destruct Hin as ([k a] & E & Hin).
    cbn in E. subst a. destruct (He _ _ Hin) as (t0 & Hl & _).
    apply load_valid in Hl. lia. }
  split; [| split]; cbn.
  - now apply dict_set_NoDup.
  - now apply dict_set_values_NoDup.
  - intros k a Hin. apply dict_set_In in Hin. destruct Hin as [[= -> ->] | Hin].
    + exists t. split; [apply load_alloc_new | reflexivity].
    + destruct (He _ _ Hin) as (t0 & Hl & Ht). exists t0.
      split; [| assumption]. rewrite load_alloc_old; [assumption |].
      now apply load_valid in Hl.
Qed.

Lemma tracked_modify_same (h : store) (d : dict) (a : ref) f (tid : string) :
  dict_get d tid = Some a ->
  tracked (mkManager (modify h a f) d) tid
  = option_map f (tracked (mkManager h d) tid).
Proof.
  intros Hg. unfold tracked. cbn. rewrite Hg, load_modify.
  now rewrite Nat.eqb_refl.
Qed.

Lemma tracked_modify_other (h : store) (d : dict) (a : ref) f
      (tid other : string) :
  NoDup (dict_values d) -> dict_get d tid = Some a -> other <> tid ->
  tracked (mkManager (modify h a f) d) other = tracked (mkManager h d) other.
Proof.
  intros Hv Hg Hne. unfold tracked. cbn.
  destruct (dict_get d other) as [b |] eqn:E; [| reflexivity].
  apply load_modify_other. intros ->. apply Hne.
  apply (unique_key d other tid b Hv); now apply dict_get_In.
Qed.

Lemma get_or_create_spec (tm : TaskManager) (tid : string) (now : datetime) :
  consistent tm ->
  consistent (fst (get_or_create tm tid now))
  /\ dict_get (_active_recording_tasks (fst (get_or_create tm tid now))) tid
     = Some (snd (get_or_create tm tid now))
  /\ tracked (fst (get_or_create tm tid now)) tid
     = Some (base_record tm tid now)
  /\ forall other, other <> tid ->
       tracked (fst (get_or_create tm tid now)) other = tracked tm other.
Proof.
  intros Hc. pose proof Hc as (Hk & Hv & He).
  unfold get_or_create, base_record, tracked.
  destruct (dict_get (_active_recording_tasks tm) tid) as [a |] eqn:Hg; cbn.
  - rewrite Hg. destruct (He _ _ (dict_get_In _ _ _ Hg)) as (t & Hl & _).
    rewrite Hl. repeat split; trivial.
  - rewrite dict_get_set_same, load_alloc_new.
    split; [exact (consistent_alloc_set tm (new_task tid now) Hc) |].
    repeat split; trivial.
    intros other Hne. rewrite dict_get_set_other by assumption.
    destruct (dict_get (_active_recording_tasks tm) other) as [b |] eqn:E;
      [| reflexivity].
    destruct (He _ _ (dict_get_In _ _ _ E)) as (t & Hl & _).
    apply load_alloc_old. now apply load_valid in Hl.
Qed.

Ltac step_modify :=
  match goal with
  | |- consistent (mkManager (modify ?h ?a ?f) ?d) =>
      apply (consistent_modify (mkManager h d) a f); [| intros; reflexivity]
  end.

Lemma run_op_consistent (tm : TaskManager) (o : task_op) :
  consistent tm -> consistent (run_op tm o).
Proof.
  intros Hc. destruct o as [tid msg now | tid st pr msg now | tid st msg now
                            | tid err st msg now | tid | now]; cbn [run_op].
  - exact (consistent_alloc_set tm _ Hc).
  - unfold update_recording_processing.
    destruct (is_processing_stage st); cbn [negb snd]; [| assumption].
    destruct (get_or_create_spec tm tid now Hc) as (H1 & _).
    destruct (get_or_create tm tid now) as [tm1 a]. cbn [fst snd] in *.
    destruct tm1 as [h d]. cbn [objects _active_recording_tasks snd].
    destruct pr, msg; repeat step_modify; exact H1.
  - unfold complete_recording_processing.
    destruct (dict_get (_active_recording_tasks tm) tid) as [a |];
      [| assumption].
    unfold dict_del.
    match goal with
    | |- consistent (mkManager ?h (filter ?p ?d)) =>
        apply (consistent_filter (mkManager h d) p)
    end.
    destruct tm as [h d]. cbn [objects _active_recording_tasks].
    repeat step_modify. exact Hc.
  - unfold error_recording_processing.
    destruct (get_or_create_spec tm tid now Hc) as (H1 & _).
    destruct (get_or_create tm tid now) as [tm1 a]. cbn [fst snd] in *.
    destruct tm1 as [h d]. cbn [objects _active_recording_tasks].
    destruct st as [s |]; [destruct (is_processing_stage s) |];
      repeat step_modify; exact H1.
  - unfold complete_error_recording_processing.
    destruct (dict_contains _ tid); [| assumption].
    exact (consistent_filter tm _ Hc).
  - unfold get_active_recording_tasks. cbn [snd].
    rewrite purge_filter. exact (consistent_filter tm _ Hc).
Qed.

End ConsistencyFacts.

Section TrackerFacts.

Import Tasks.

Lemma active_tracked (tm : TaskManager) (k : string) :
  consistent tm ->
  is_recording_processing_active tm k
  = match tracked tm k with Some _ => true | None => false end.
Proof.
  intros (_ & _ & He).
  unfold is_recording_processing_active, dict_contains, tracked.
  destruct (dict_get (_active_recording_tasks tm) k) as [a |] eqn:E;
    [| reflexivity].
  destruct (He _ _ (dict_get_In _ _ _ E)) as (t & -> & _). reflexivity.
Qed.

Lemma base_record_id (tm : TaskManager) (tid : string) (now : datetime) :
  consistent tm -> task_id (base_record tm tid now) = tid.
Proof.
  intros (_ & _ & He). unfold base_record, tracked.
  destruct (dict_get (_active_recording_tasks tm) tid) as [a |] eqn:E;
    [| reflexivity].
  destruct (He _ _ (dict_get_In _ _ _ E)) as (t & -> & Ht). exact Ht.
Qed.

Lemma frame_start tm tid msg now other :
  consistent tm -> other <> tid ->
  tracked (start_recording_processing tm tid msg now) other = tracked tm other.
Proof.
  intros (_ & _ & He) Hne. unfold start_recording_processing, tracked. cbn.
  rewrite dict_get_set_other by assumption.
  destruct (dict_get (_active_recording_tasks tm) other) as [b |] eqn:E;
    [| reflexivity].
  destruct (He _ _ (dict_get_In _ _ _ E)) as (t & Hl & _).
  apply load_alloc_old. now apply load_valid in Hl.
Qed.

Lemma frame_update tm tid st pr msg now other :
  consistent tm -> other <> tid ->
  tracked (snd (update_recording_processing tm tid st pr msg now)) other
  = tracked tm other.
Proof.
  intros Hc Hne. unfold update_recording_processing.
  destruct (is_processing_stage st); cbn [negb snd]; [| reflexivity].
  destruct (get_or_create_spec tm tid now Hc) as ((_ & Hv & _) & Hg & _ & Hfr).
  destruct (get_or_create tm tid now) as [tm1 a]. cbn [fst snd] in *.
  rewrite <- (Hfr other Hne).
  destruct tm1 as [h d]. cbn [objects _active_recording_tasks snd] in *.
  destruct pr, msg;
    now rewrite !(tracked_modify_other _ d a _ tid other Hv Hg Hne).
Qed.

Lemma frame_error tm tid err st msg now other :
  consistent tm -> other <> tid ->
  tracked (error_recording_processing tm tid err st msg now) other
  = tracked tm other.
Proof.
  intros Hc Hne. unfold error_recording_processing.
  destruct (get_or_create_spec tm tid now Hc) as ((_ & Hv & _) & Hg & _ & Hfr).
  destruct (get_or_create tm tid now) as [tm1 a]. cbn [fst snd] in *.
  rewrite <- (Hfr other Hne).
  destruct tm1 as [h d]. cbn [objects _active_recording_tasks] in *.
  destruct st as [s |]; [destruct (is_processing_stage s) |];
    now rewrite !(tracked_modify_other _ d a _ tid other Hv Hg Hne).
Qed.

Lemma frame_complete tm tid st msg now other :
  consistent tm -> other <> tid ->
  tracked (complete_recording_processing tm tid st msg now) other
  = tracked tm other.
Proof.
  intros (_ & Hv & _) Hne. unfold complete_recording_processing.
  destruct (dict_get (_active_recording_tasks tm) tid) as [a |] eqn:Hg;
    [| reflexivity].
  unfold tracked. cbn. rewrite dict_get_del_other by assumption.
  destruct (dict_get (_active_recording_tasks tm) other) as [b |] eqn:E;
    [| reflexivity].
  assert (Hab : a <> b).
  { intros ->. apply Hne.
    apply (unique_key _ other tid b Hv); now apply dict_get_In. }
  now rewrite !load_modify_other by assumption.
Qed.

Lemma frame_complete_error tm tid other :
  other <> tid ->
  tracked (complete_error_recording_processing tm tid) other = tracked tm other.
Proof.
  intros Hne. unfold complete_error_recording_processing.
  destruct (dict_contains _ tid); [| reflexivity].
  unfold tracked. cbn. now rewrite dict_get_del_other by assumption.
Qed.

Lemma empty_manager_consistent : consistent empty_manager.
Proof. split; [constructor |]. split; [constructor |]. intros k a []. Qed.

Lemma run_ops_consistent (ops : list task_op) :
  forall tm, consistent tm -> consistent (fold_left run_op ops tm).
Proof.
  induction ops as [| o t IH]; intros tm Hc; cbn [fold_left]; [assumption |].
  apply IH. now apply run_op_consistent.
Qed.

End TrackerFacts.

(** X1. Every manager reached from the empty one by recording-processing
    calls, in any order and with any arguments, has one dictionary entry per
    task id, no two ids sharing a record, and each entry referring to an
    allocated record whose [task_id] is its key. *)
Theorem reachable_managers_consistent :
  forall ops : list task_op,
    consistent (fold_left run_op ops Tasks.empty_manager).
Proof.
  intros ops. apply run_ops_consistent, empty_manager_consistent.
Qed.

(** X2. A call about one task id leaves what the manager tracks for every
    other id as it was, and does not change whether that other id is
    active. *)
Theorem operations_touch_only_their_task :
  forall (tm : Tasks.TaskManager) (o : task_op) (tid other : string),
    consistent tm ->
    op_target o = Some tid ->
    other <> tid ->
    Tasks.tracked (run_op tm o) other = Tasks.tracked tm other
    /\ Tasks.is_recording_processing_active (run_op tm o) other
       = Tasks.is_recording_processing_active tm other.
Proof.
  intros tm o tid other Hc Ht Hne.
  assert (E : Tasks.tracked (run_op tm o) other = Tasks.tracked tm other).
  { destruct o; cbn in Ht; try discriminate; injection Ht as ->;
      cbn [run_op].
    - now apply frame_start.
    - now apply frame_update.
    - now apply frame_complete.
    - now apply frame_error.
    - now apply frame_complete_error. }
  split; [exact E |].
  rewrite (active_tracked _ _ (run_op_consistent tm o Hc)).
  rewrite (active_tracked _ _ Hc). now rewrite E.
Qed.

(** Two tasks; an update of the second leaves the first as started. *)
Lemma operations_touch_only_their_task_witness :
  let tm := fold_left run_op
              [OpStart "task-a" None 0; OpStart "task-b" None 1]
              Tasks.empty_manager in
  Tasks.tracked
    (run_op tm (OpUpdate "task-b" "transcribe" (Some 60%float) None 2))
    "task-a"
  = Tasks.tracked tm "task-a".
Proof.
  intros tm.
  apply (operations_touch_only_their_task tm
           (OpUpdate "task-b" "transcribe" (Some 60%float) None 2%Z)
           "task-b" "task-a").
  - apply run_ops_consistent, empty_manager_consistent.
  - reflexivity.
  - discriminate.
Defined.

(** X3. [start_recording_processing] registers a new record in stage
    ["upload"], running, at progress 0, with the given message or
    ["Uploading sample"], and makes the id active.  The record is a new
    object: a record that existed before, also one for the same id, is left
    as it was for whoever still holds a reference to it. *)
Theorem start_registers_fresh_record :
  forall (tm : Tasks.TaskManager) (tid : string) (msg : option string)
         (now : Tasks.datetime),
    let tm' := Tasks.start_recording_processing tm tid msg now in
    Tasks.tracked tm' tid
    = Some (Tasks.mkTask tid "upload" "running" (Some 0%float)
              (Some (Tasks.str_or msg "Uploading sample")) None now now)
    /\ Tasks.is_recording_processing_active tm' tid = true
    /\ forall a t, Tasks.load (Tasks.objects tm) a = Some t ->
                   Tasks.load (Tasks.objects tm') a = Some t.
Proof.
  intros tm tid msg now tm'. unfold tm', Tasks.start_recording_processing.
  cbn. split; [| split].
  - unfold Tasks.tracked. cbn. now rewrite dict_get_set_same, load_alloc_new.
  - unfold Tasks.is_recording_processing_active, Tasks.dict_contains. cbn.
    now rewrite dict_get_set_same.
  - intros a t Hl. rewrite load_alloc_old; [assumption |].
    now apply load_valid in Hl.
Qed.

(** A restart of a task that was updated before. *)
Lemma start_registers_fresh_record_witness :
  let tm := fold_left run_op
              [OpStart "t" None 0;
               OpUpdate "t" "embed" (Some 80%float) None 1]
              Tasks.empty_manager in
  Tasks.load
    (Tasks.objects (Tasks.start_recording_processing tm "t" (Some "again"%string) 2))
    0%nat
  = Some (Tasks.mkTask "t" "embed" "running" (Some 80%float)
            (Some "Uploading sample"%string) None 0 1).
Proof.
  intros tm.
  apply (start_registers_fresh_record tm "t" (Some "again"%string) 2%Z).
  vm_compute. reflexivity.
Defined.

(** X4. [update_recording_processing] with one of the five stages returns
    normally and leaves, for the id, the previous record (or a new default
    one when the id was unknown) with the stage replaced, status
    ["running"], no error, [updated_at] set to the call time, the progress
    replaced by its clamped value when one is given and the message
    replaced when one is given; [task_id] and [started_at] are kept. *)
Theorem update_sets_fields :
  forall (tm : Tasks.TaskManager) (tid stage : string)
         (progress : option float) (message : option string)
         (now : Tasks.datetime),
    consistent tm ->
    In stage Tasks.PROCESSING_STAGES ->
    let base := base_record tm tid now in
    let r := Tasks.update_recording_processing tm tid stage progress message
               now in
    fst r = Ok tt
    /\ Tasks.tracked (snd r) tid
       = Some (Tasks.mkTask tid stage "running"
                 (match progress with
                  | Some p => Some (clamp_progress p)
                  | None => Tasks.progress base
                  end)
                 (match message with
                  | Some m => Some m
                  | None => Tasks.message base
                  end)
                 None (Tasks.started_at base) now).
Proof.
  intros tm tid stage progress message now Hc Hst base r.
  unfold r, Tasks.update_recording_processing.
  rewrite (proj2 (is_processing_stage_In stage) Hst). cbn [negb].
  destruct (get_or_create_spec tm tid now Hc) as (_ & Hg & Ht & _).
  pose proof (base_record_id tm tid now Hc) as Hid. fold base in Ht, Hid.
  destruct (Tasks.get_or_create tm tid now) as [tm1 a]. cbn [fst snd] in *.
  split; [reflexivity |].
  destruct tm1 as [h d].
  cbn [Tasks.objects Tasks._active_recording_tasks] in *.
  destruct progress, message;
    rewrite !(tracked_modify_same _ d a _ tid Hg), Ht; cbn;
    unfold Tasks.set_message, Tasks.set_progress, Tasks.set_error,
      Tasks.set_updated_at, Tasks.set_status, Tasks.set_stage; cbn;
    rewrite Hid; reflexivity.
Qed.

(** The updates of the test suite, the last one over the range. *)
Lemma update_sets_fields_witness :
  let tm := fold_left run_op [OpStart "t" (Some "Uploading"%string) 0]
              Tasks.empty_manager in
  Tasks.tracked
    (snd (Tasks.update_recording_processing tm "t" "save" (Some 250%float)
            None 7))
    "t"
  = Some (Tasks.mkTask "t" "save" "running" (Some (clamp_progress 250%float))
            (Some "Uploading"%string) None 0 7)
  /\ clamp_progress 250%float = 100%float.
Proof.
  intros tm. split; [| vm_compute; reflexivity].
  apply (update_sets_fields tm "t" "save" (Some 250%float) None 7%Z).
  - apply run_ops_consistent, empty_manager_consistent.
  - cbn. tauto.
Defined.

Section ClampFacts.

Lemma ltb_leb (x y : float) : (x <? y)%float = true -> (x <=? y)%float = true.
Proof.
  rewrite ltb_spec, leb_spec. unfold SFltb, SFleb.
  destruct (SFcompare _ _) as [[| |] |]; congruence.
Qed.

End ClampFacts.

(** X5. The progress stored by an update lies between 0 and 100 whatever
    number is passed, NaN and the infinities included (NaN is stored as
    100); a value strictly between 0 and 100 is stored unchanged. *)
Theorem clamp_progress_range :
  forall p : float,
    (0 <=? clamp_progress p)%float = true
    /\ (clamp_progress p <=? 100)%float = true
    /\ ((0 <? p)%float = true -> (p <? 100)%float = true ->
        clamp_progress p = p).
Proof.
  intros p. unfold clamp_progress, py_max2, py_min2.
  cbn [f_ltb Arith_b64].
  destruct (p <? 100)%float eqn:H100.
  - destruct (0 <? p)%float eqn:H0.
    + repeat split; [now apply ltb_leb | now apply ltb_leb].
    + repeat split; try reflexivity. discriminate.
  - change (0 <? 100)%float with true. cbn.
    repeat split; try reflexivity. discriminate.
Qed.

(** A value inside the range, and NaN. *)
Lemma clamp_progress_range_witness :
  clamp_progress 95%float = 95%float /\ clamp_progress nan = 100%float.
Proof.
  split.
  - apply (clamp_progress_range 95%float); reflexivity.
  - vm_compute. reflexivity.
Defined.

(** X6. [error_recording_processing] never raises and keeps the record:
    afterwards the id is active and its record has status ["error"], the
    error text, the message (or the error text when no message is given)
    and [updated_at] at the call time.  The stage is replaced only by a
    valid stage: an invalid or missing stage leaves it as it was.  An
    unknown id gets a record created on the spot. *)
Theorem error_records_failure :
  forall (tm : Tasks.TaskManager) (tid err : string) (stage : option string)
         (message : option string) (now : Tasks.datetime),
    consistent tm ->
    let base := base_record tm tid now in
    let tm' := Tasks.error_recording_processing tm tid err stage message now in
    Tasks.tracked tm' tid
    = Some (Tasks.mkTask tid
              (match stage with
               | Some s => if Tasks.is_processing_stage s then s
                           else Tasks.stage base
               | None => Tasks.stage base
               end)
              "error" (Tasks.progress base)
              (Some (Tasks.str_or message err)) (Some err)
              (Tasks.started_at base) now)
    /\ Tasks.is_recording_processing_active tm' tid = true.
Proof.
  intros tm tid err stage message now Hc base tm'.
  assert (E : Tasks.tracked tm' tid
              = Some (Tasks.mkTask tid
                        (match stage with
                         | Some s => if Tasks.is_processing_stage s then s
                                     else Tasks.stage base
                         | None => Tasks.stage base
                         end)
                        "error" (Tasks.progress base)
                        (Some (Tasks.str_or message err)) (Some err)
                        (Tasks.started_at base) now)).
  { unfold tm', Tasks.error_recording_processing.
    destruct (get_or_create_spec tm tid now Hc) as (_ & Hg & Ht & _).
    pose proof (base_record_id tm tid now Hc) as Hid. fold base in Ht, Hid.
    destruct (Tasks.get_or_create tm tid now) as [tm1 a]. cbn [fst snd] in *.
    destruct tm1 as [h d].
    cbn [Tasks.objects Tasks._active_recording_tasks] in *.
    destruct stage as [s |]; [destruct (Tasks.is_processing_stage s) |];
      rewrite !(tracked_modify_same _ d a _ tid Hg), Ht; cbn;
      unfold Tasks.set_message, Tasks.set_error, Tasks.set_updated_at,
        Tasks.set_status, Tasks.set_stage; cbn;
      rewrite Hid; reflexivity. }
  split; [exact E |].
  rewrite (active_tracked tm' tid (run_op_consistent tm
             (OpError tid err stage message now) Hc)).
  now rewrite E.
Qed.

(** A failure reported with a stage that is not one of the five. *)
Lemma error_records_failure_witness :
  let tm := fold_left run_op
              [OpStart "t" None 0; OpUpdate "t" "embed" None None 1]
              Tasks.empty_manager in
  Tasks.tracked
    (Tasks.error_recording_processing tm "t" "failed"
       (Some "no-such-stage"%string) None 5)
    "t"
  = Some (Tasks.mkTask "t" "embed" "error" (Some 0%float)
            (Some "failed"%string) (Some "failed"%string) 0 5).
Proof.
  intros tm.
  assert (Hc : consistent tm)
    by apply run_ops_consistent, empty_manager_consistent.
  exact (proj1 (error_records_failure tm "t" "failed"
                  (Some "no-such-stage"%string) None 5%Z Hc)).
Defined.

(** X7. After [complete_recording_processing] the id is not active and no
    later listing shows it, whatever the time of the listing; before the
    entry is dropped the record is marked complete at progress 100, which a
    caller who still holds the reference sees.  For an unknown id the call
    changes nothing. *)
Theorem complete_removes_record :
  forall (tm : Tasks.TaskManager) (tid stage : string)
         (message : option string) (now : Tasks.datetime),
    let tm' := Tasks.complete_recording_processing tm tid stage message now in
    Tasks.is_recording_processing_active tm' tid = false
    /\ (forall later,
          ~ In tid (Tasks.dict_keys
                      (Tasks._active_recording_tasks
                         (snd (Tasks.get_active_recording_tasks tm' later)))))
    /\ (Tasks.is_recording_processing_active tm tid = false -> tm' = tm)
    /\ (forall a t,
          Tasks.dict_get (Tasks._active_recording_tasks tm) tid = Some a ->
          Tasks.load (Tasks.objects tm) a = Some t ->
          Tasks.load (Tasks.objects tm') a
          = Some (Tasks.mkTask (Tasks.task_id t) stage "complete"
                    (Some 100%float)
                    (Some (Tasks.str_or message "Sample saved"))
                    (Tasks.error t) (Tasks.started_at t) now)).
Proof.
  intros tm tid stage message now tm'.
  assert (Hgone : Tasks.dict_get (Tasks._active_recording_tasks tm') tid = None).
  { unfold tm', Tasks.complete_recording_processing.
    destruct (Tasks.dict_get (Tasks._active_recording_tasks tm) tid) eqn:E;
      [cbn; apply dict_get_del_same | exact E]. }
  split; [| split; [| split]].
  - unfold Tasks.is_recording_processing_active, Tasks.dict_contains.
    now rewrite Hgone.
  - intros later Hin. apply In_keys in Hin. destruct Hin as (b & Hin).
    apply listing_subset in Hin.
    assert (Hnone : forall d k v, Tasks.dict_get d k = None -> ~ In (k, v) d).
    { intros d k v. induction d as [| [k0 v0] d IH]; cbn; [tauto |].
      destruct (String.eqb_spec k k0) as [-> | Hne]; [discriminate |].
      intros Hd [[= -> _] | H]; [congruence | now apply IH]. }
    exact (Hnone _ _ _ Hgone Hin).
  - unfold tm', Tasks.is_recording_processing_active, Tasks.dict_contains,
      Tasks.complete_recording_processing.
    destruct (Tasks.dict_get (Tasks._active_recording_tasks tm) tid);
      [discriminate | reflexivity].
  - intros a t Hg Hl. unfold tm', Tasks.complete_recording_processing.
    rewrite Hg. cbn [Tasks.objects].
    rewrite !load_modify, !Nat.eqb_refl, Hl. reflexivity.
Qed.

(** A task completed while a caller holds its reference. *)
Lemma complete_removes_record_witness :
  let tm := fold_left run_op [OpStart "t" None 0] Tasks.empty_manager in
  let tm' := Tasks.complete_recording_processing tm "t" "save" None 9 in
  Tasks.load (Tasks.objects tm') 0%nat
  = Some (Tasks.mkTask "t" "save" "complete" (Some 100%float)
            (Some "Sample saved"%string) None 0 9)
  /\ (Tasks.is_recording_processing_active tm' "other" = false ->
      Tasks.complete_recording_processing tm' "other" "save" None 10 = tm').
Proof.
  intros tm tm'. split.
  - destruct (complete_removes_record tm "t" "save" None 9%Z)
      as (_ & _ & _ & H).
    apply (H 0%nat (Tasks.mkTask "t" "upload" "running" (Some 0%float)
                      (Some "Uploading sample"%string) None 0 0));
      vm_compute; reflexivity.
  - destruct (complete_removes_record tm' "other" "save" None 10%Z)
      as (_ & _ & H & _).
    exact H.
Defined.

Section DeletionFacts.

Import Tasks.

Lemma dict_del_keys (d : dict) (k : string) :
  dict_keys (dict_del d k)
  = filter (fun k' => negb (String.eqb k k')) (dict_keys d).
Proof.
  unfold dict_keys, dict_del.
  induction d as [| [k0 v0] d IH]; cbn; [reflexivity |].
  destruct (String.eqb k k0); cbn; now rewrite IH.
Qed.

Lemma dict_get_None_keys (d : dict) (k : string) :
  dict_get d k = None ->
  filter (fun k' => negb (String.eqb k k')) (dict_keys d) = dict_keys d.
Proof.
  unfold dict_keys.
  induction d as [| [k0 v0] d IH]; cbn; [reflexivity |].
  destruct (String.eqb k k0); cbn; [discriminate |].
  intros H. now rewrite IH.
Qed.

End DeletionFacts.

(** X8. [complete_error_recording_processing] removes the entry of the id
    and nothing else: afterwards the id is not active, every other id has
    the entry it had, the remaining ids are listed in the order they had,
    and no record object is modified.  The call on an id that is not active
    changes nothing, so a second acknowledgement is harmless. *)
Theorem complete_error_removes_entry :
  forall (tm : Tasks.TaskManager) (tid : string),
    let tm' := Tasks.complete_error_recording_processing tm tid in
    Tasks.is_recording_processing_active tm' tid = false
    /\ (forall other, other <> tid ->
          Tasks.dict_get (Tasks._active_recording_tasks tm') other
          = Tasks.dict_get (Tasks._active_recording_tasks tm) other)
    /\ Tasks.dict_keys (Tasks._active_recording_tasks tm')
       = filter (fun k => negb (String.eqb tid k))
                (Tasks.dict_keys (Tasks._active_recording_tasks tm))
    /\ Tasks.complete_error_recording_processing tm' tid = tm'
    /\ Tasks.objects tm' = Tasks.objects tm
    /\ (Tasks.is_recording_processing_active tm tid = false -> tm' = tm).
Proof.
  intros tm tid tm'.
  assert (Hgone : Tasks.is_recording_processing_active tm' tid = false).
  { unfold tm', Tasks.complete_error_recording_processing,
      Tasks.is_recording_processing_active.
    destruct (Tasks.dict_contains (Tasks._active_recording_tasks tm) tid)
      eqn:E; [| exact E].
    unfold Tasks.dict_contains. cbn. now rewrite dict_get_del_same. }
  split; [exact Hgone |]. split; [| split; [| split; [| split]]].
  - intros other Hne. unfold tm', Tasks.complete_error_recording_processing.
    destruct (Tasks.dict_contains _ tid); [| reflexivity].
    cbn. now apply dict_get_del_other.
  - unfold tm', Tasks.complete_error_recording_processing.
    destruct (Tasks.dict_contains (Tasks._active_recording_tasks tm) tid)
      eqn:E.
    + cbn. apply dict_del_keys.
    + symmetry. apply dict_get_None_keys.
      unfold Tasks.dict_contains in E.
      now destruct (Tasks.dict_get (Tasks._active_recording_tasks tm) tid).
  - unfold Tasks.complete_error_recording_processing at 1.
    unfold Tasks.is_recording_processing_active in Hgone. now rewrite Hgone.
  - unfold tm', Tasks.complete_error_recording_processing.
    now destruct (Tasks.dict_contains _ tid).
  - unfold tm', Tasks.complete_error_recording_processing,
      Tasks.is_recording_processing_active.
    now intros ->.
Qed.

(** Two failed tasks, the first acknowledged (twice): the second keeps its
    entry. *)
Lemma complete_error_removes_entry_witness :
  let tm := fold_left run_op
              [OpStart "a" None 0; OpStart "b" None 1;
               OpError "a" "failed" None None 2;
               OpError "b" "failed" None None 3]
              Tasks.empty_manager in
  let tm' := Tasks.complete_error_recording_processing tm "a" in
  Tasks.is_recording_processing_active tm' "a" = false
  /\ Tasks.dict_get (Tasks._active_recording_tasks tm') "b"
     = Tasks.dict_get (Tasks._active_recording_tasks tm) "b"
  /\ Tasks.dict_keys (Tasks._active_recording_tasks tm') = ["b"%string]
  /\ Tasks.complete_error_recording_processing tm' "a" = tm'.
Proof.
  intros tm tm'.
  destruct (complete_error_removes_entry tm "a") as (H1 & H2 & H3 & H4 & _).
  split; [exact H1 |]. split; [apply H2; discriminate |].
  split; [| exact H4].
  fold tm' in H3. rewrite H3. reflexivity.
Defined.

(** X9. A listing leaves nothing for a second listing at the same instant
    to purge: the second call returns the same list and the same manager.
    A listing never modifies a record object, and what it returns are the
    references of the remaining entries, in the order of the dictionary. *)
Theorem listing_idempotent :
  forall (tm : Tasks.TaskManager) (now : Tasks.datetime),
    let r := Tasks.get_active_recording_tasks tm now in
    Tasks.get_active_recording_tasks (snd r) now = r
    /\ Tasks.objects (snd r) = Tasks.objects tm
    /\ exists keep,
         Tasks._active_recording_tasks (snd r)
         = filter keep (Tasks._active_recording_tasks tm)
         /\ fst r
            = Tasks.dict_values (filter keep (Tasks._active_recording_tasks tm)).
Proof.
  intros tm now r. unfold r, Tasks.get_active_recording_tasks.
  cbn [fst snd Tasks.objects Tasks._active_recording_tasks].
  set (cutoff := (now - Tasks.timedelta_seconds 30)%Z).
  set (d := Tasks._active_recording_tasks tm).
  set (stale := map fst (filter (Tasks.is_stale_error (Tasks.objects tm) cutoff) d)).
  split; [| split; [reflexivity | eexists; rewrite purge_filter; split;
                                     reflexivity]].
  assert (Hnone : filter (Tasks.is_stale_error (Tasks.objects tm) cutoff)
                         (fold_left Tasks.dict_del stale d) = []).
  { apply filter_none. intros [k a] Hin.
    apply purge_In in Hin. destruct Hin as [Hin Hnot].
    destruct (Tasks.is_stale_error (Tasks.objects tm) cutoff (k, a)) eqn:E;
      [| reflexivity].
    exfalso. apply Hnot. unfold stale. apply stale_id_iff. now exists a. }
  rewrite Hnone. reflexivity.
Qed.

(* ================================================================== *)
(** * Properties of the download and generation registries *)
(* ================================================================== *)

Section PyDictFacts.

Context {V : Type}.

Lemma pydict_get_set_same (d : PyDict.t V) k v :
  PyDict.get (PyDict.set d k v) k = Some v.
Proof.
  induction d as [| [k0 v0] d IH]; cbn.
  - now rewrite String.eqb_refl.
  - destruct (String.eqb_spec k k0) as [-> | Hne]; cbn.
    + now rewrite String.eqb_refl.
    + destruct (String.eqb_spec k k0); [contradiction | assumption].
Qed.

Lemma pydict_get_set_other (d : PyDict.t V) k k' v :
  k' <> k -> PyDict.get (PyDict.set d k v) k' = PyDict.get d k'.
Proof.
  intros Hne. induction d as [| [k0 v0] d IH]; cbn.
  - destruct (String.eqb_spec k' k); [contradiction | reflexivity].
  - destruct (String.eqb_spec k k0) as [-> | Hk]; cbn.
    + destruct (String.eqb_spec k' k0); [contradiction | reflexivity].
    + destruct (String.eqb_spec k' k0); [reflexivity | assumption].
Qed.

Lemma pydict_get_del_same (d : PyDict.t V) k :
  PyDict.get (PyDict.del d k) k = None.
Proof.
  induction d as [| [k0 v0] d IH]; cbn; [reflexivity |].
  destruct (String.eqb_spec k k0) as [-> | Hne]; cbn; [assumption |].
  destruct (String.eqb_spec k k0); [contradiction | assumption].
Qed.

Lemma pydict_get_del_other (d : PyDict.t V) k k' :
  k' <> k -> PyDict.get (PyDict.del d k) k' = PyDict.get d k'.
Proof.
  intros Hne. induction d as [| [k0 v0] d IH]; cbn; [reflexivity |].
  destruct (String.eqb_spec k k0) as [-> | Hk]; cbn.
  - destruct (String.eqb_spec k' k0); [contradiction | assumption].
  - destruct (String.eqb_spec k' k0); [reflexivity | assumption].
Qed.

End PyDictFacts.

(** X10. The preview stored for a generation: a text of at most 50
    characters is kept whole; a longer one becomes its first 50 characters
    followed by three full stops (code point 46), 53 characters in all, so
    the preview of a text of 51 or 52 characters is longer than the
    text.  Characters are code points, as [len] and slicing count them. *)
Theorem preview_of_bounded :
  forall text : py_str,
    ((List.length text <= 50)%nat -> Generations.preview_of text = text)
    /\ ((50 < List.length text)%nat ->
        exists head tail : py_str,
          text = (head ++ tail)%list
          /\ List.length head = 50%nat
          /\ Generations.preview_of text = (head ++ [46; 46; 46]%N)%list)
    /\ (List.length (Generations.preview_of text) <= 53)%nat.
Proof.
  intros text. unfold Generations.preview_of.
  destruct (Nat.ltb_spec 50 (List.length text)) as [Hlong | Hshort].
  - assert (Hlen : List.length (firstn 50 text) = 50%nat)
      by (rewrite length_firstn; lia).
    split; [lia |]. split.
    + intros _. exists (firstn 50 text), (skipn 50 text).
      split; [symmetry; apply firstn_skipn |].
      split; [exact Hlen | reflexivity].
    + rewrite length_app, Hlen. cbn. lia.
  - split; [reflexivity |]. split; [lia | lia].
Qed.

(** A text of 51 characters outside ASCII (code point 233). *)
Lemma preview_of_bounded_witness :
  Generations.preview_of (repeat 233%N 51)
  = (repeat 233%N 50 ++ [46; 46; 46]%N)%list.
Proof.
  destruct (preview_of_bounded (repeat 233%N 51)) as (_ & H & _).
  destruct H as (head & tail & Ht & Hl & ->); [cbn; lia |].
  f_equal.
  assert (E : firstn 50 (repeat 233%N 51) = head).
  { rewrite Ht, firstn_app, Hl, Nat.sub_diag, firstn_O, app_nil_r.
    apply firstn_all2. lia. }
  rewrite <- E. reflexivity.
Defined.

(** X11. After [start_generation] the id is active and the registry holds
    the record with the preview of the text; after [complete_generation] it
    is not active; both leave every other id as it was, and completing an
    id that is not active changes nothing. *)
Theorem generation_registry_round_trip :
  forall (s : Generations.state) (tid pid : string) (text : py_str)
         (now : Tasks.datetime),
    let s1 := Generations.start_generation s tid pid text now in
    let s2 := Generations.complete_generation s tid in
    PyDict.get s1 tid
    = Some (Generations.mkGeneration tid pid (Generations.preview_of text) now)
    /\ Generations.is_generation_active s1 tid = true
    /\ Generations.is_generation_active s2 tid = false
    /\ Generations.is_generation_active
         (Generations.complete_generation s1 tid) tid = false
    /\ (Generations.is_generation_active s tid = false -> s2 = s)
    /\ forall other, other <> tid ->
         PyDict.get s1 other = PyDict.get s other
         /\ PyDict.get s2 other = PyDict.get s other.
Proof.
  intros s tid pid text now s1 s2.
  assert (Hdone : forall s0,
             Generations.is_generation_active
               (Generations.complete_generation s0 tid) tid = false).
  { intros s0.
    unfold Generations.complete_generation, Generations.is_generation_active.
    destruct (PyDict.contains s0 tid) eqn:E; [| exact E].
    unfold PyDict.contains. now rewrite pydict_get_del_same. }
  unfold s1, s2, Generations.start_generation.
  split; [apply pydict_get_set_same |]. split.
  { unfold Generations.is_generation_active, PyDict.contains.
    now rewrite pydict_get_set_same. }
  split; [apply Hdone |]. split; [apply Hdone |]. split.
  { unfold Generations.is_generation_active, Generations.complete_generation.
    now intros ->. }
  intros other Hne. split; [now apply pydict_get_set_other |].
  unfold Generations.complete_generation.
  destruct (PyDict.contains s tid); [| reflexivity].
  now apply pydict_get_del_other.
Qed.

(** A generation started next to another one, then completed. *)
Lemma generation_registry_round_trip_witness :
  let s := Generations.start_generation [] "g1" "p" (py_str_of "hello") 0 in
  PyDict.get
    (Generations.start_generation s "g2" "p" (py_str_of "world") 1) "g1"
  = PyDict.get s "g1"
  /\ Generations.complete_generation
       (Generations.complete_generation s "g1") "g1"
     = Generations.complete_generation s "g1".
Proof.
  intros s. split.
  - apply (generation_registry_round_trip s "g2" "p" (py_str_of "world")
             1%Z).
    discriminate.
  - destruct (generation_registry_round_trip
                (Generations.complete_generation s "g1") "g1" "p"
                (py_str_of "x") 0%Z)
      as (_ & _ & _ & _ & H & _).
    apply H. vm_compute. reflexivity.
Defined.

Section DownloadFacts.

Import Downloads.

Lemma download_modify_same (h : list DownloadTask) (a : nat) f t :
  nth_error h a = Some t -> nth_error (modify h a f) a = Some (f t).
Proof.
  revert a. induction h as [| x h IH]; intros [| a]; cbn; try discriminate.
  - now intros [= ->].
  - apply IH.
Qed.

End DownloadFacts.



(** X13. [error_download] never creates a record: for a model that is not
    active it changes nothing.  For an active model it sets the status to
    ["error"] and stores the error text, keeps the name and the start time,
    and keeps the model active and listed. *)
Theorem error_download_marks_active_only :
  forall (s : Downloads.state) (name err : string),
    (Downloads.is_download_active s name = false ->
     Downloads.error_download s name err = s)
    /\ (forall a t,
          PyDict.get (Downloads._active_downloads s) name = Some a ->
          nth_error (Downloads.objects s) a = Some t ->
          let s' := Downloads.error_download s name err in
          Downloads.tracked s' name
          = Some (Downloads.mkDownload (Downloads.model_name t) "error"
                    (Downloads.started_at t) (Some err))
          /\ Downloads.is_download_active s' name = true
          /\ Downloads.get_active_downloads s'
             = Downloads.get_active_downloads s).
Proof.
  intros s name err. split.
  - unfold Downloads.is_download_active, PyDict.contains,
      Downloads.error_download.
    destruct (PyDict.get (Downloads._active_downloads s) name);
      [discriminate | reflexivity].
  - intros a t Hg Hl s'. unfold s', Downloads.error_download.
    rewrite Hg. split; [| split].
    + unfold Downloads.tracked. cbn. rewrite Hg.
      rewrite (download_modify_same _ a _ (Downloads.set_status "error" t)).
      * reflexivity.
      * now apply download_modify_same.
    + unfold Downloads.is_download_active, PyDict.contains. cbn.
      now rewrite Hg.
    + reflexivity.
Qed.

(** A failed download, and a failure reported for a model never started. *)
Lemma error_download_marks_active_only_witness :
  let s := Downloads.start_download (Downloads.mkState [] []) "whisper" 3 in
  Downloads.error_download s "qwen" "timeout" = s
  /\ Downloads.tracked (Downloads.error_download s "whisper" "timeout")
       "whisper"
     = Some (Downloads.mkDownload "whisper" "error" 3 (Some "timeout"%string)).
Proof.
  intros s.
  destruct (error_download_marks_active_only s "qwen" "timeout") as (H1 & _).
  destruct (error_download_marks_active_only s "whisper" "timeout")
    as (_ & H2).
  split.
  - apply H1. vm_compute. reflexivity.
  - apply (H2 0%nat (Downloads.mkDownload "whisper" "downloading" 3 None));
      vm_compute; reflexivity.
Defined.

(* ================================================================== *)
(** * Further properties of the segment selector *)
(* ================================================================== *)

Section SelectorEdgeFacts.

Lemma Prim2SF_nan (x : float) : is_nan x = true -> Prim2SF x = S754_nan.
Proof. intros H. unfold Prim2SF. now rewrite H. Qed.

Lemma py_int_nan_product (x y : float) :
  is_nan x = true ->
  B64.py_int (x * y)%float
  = Raise (ValueError "cannot convert float NaN to integer").
Proof.
  intros H. unfold B64.py_int.
  rewrite mul_spec, (Prim2SF_nan x H). reflexivity.
Qed.

Lemma div_Z_zero (b : Z) : (0 < b)%Z -> B64.div_Z 0 b = 0%float.
Proof.
  intros H. unfold B64.div_Z. cbn.
  destruct (Z.ltb_spec b 0); [lia | reflexivity].
Qed.

Lemma ms_of_offset_zero (sample_rate : Z) :
  (0 < sample_rate)%Z -> ms_of_offset 0 sample_rate = Ok 0%Z.
Proof.
  intros H. unfold ms_of_offset. rewrite py_truediv_nonzero by lia.
  cbn [bind]. rewrite div_Z_zero by assumption. reflexivity.
Qed.

Lemma slice_all {A} (a : list A) :
  Np.slice a 0 (0 + Z.of_nat (List.length a)) = a.
Proof.
  unfold Np.slice. cbn [Z.to_nat skipn].
  replace (Z.to_nat (0 + Z.of_nat (List.length a) - 0)) with (List.length a)
    by lia.
  apply firstn_all.
Qed.

(** The metrics a scan stores are those of the window it cut. *)
Lemma score_window_metrics audio sample_rate window min_rms msr mcr start c :
  score_window audio sample_rate window min_rms msr mcr start = Ok c ->
  sample_rate <> 0%Z ->
  cand_metrics c
  = set_duration
      (compute_quality_metrics (Np.slice audio start (start + window))
         default_silence_threshold default_clipping_threshold)
      (B64.div_Z
         (Z.of_nat (List.length (Np.slice audio start (start + window))))
         sample_rate).
Proof.
  unfold score_window. intros H Hsr.
  rewrite py_truediv_nonzero in H by assumption. cbn [bind] in H.
  now injection H as <-.
Qed.

End SelectorEdgeFacts.

(** X14. [select_best_reference_segment] refuses an empty buffer with a
    [ValueError], whatever the other arguments; it refuses a sample rate
    that is zero or negative with a [ValueError]; a target duration that is
    NaN is refused with the [ValueError] of [int()]; and whenever it
    returns, the buffer was not empty and the rate was positive. *)
Theorem select_rejects_bad_input :
  forall (audio : list float) (sample_rate : Z)
         (target min_rms msr mcr step : float) (version : string),
    let r := select_best_reference_segment audio sample_rate target min_rms
               msr mcr step version in
    (audio = [] ->
     r = Raise (ValueError "Cannot select reference segment from empty audio"))
    /\ (audio <> [] -> (sample_rate <= 0)%Z ->
        r = Raise (ValueError "sample_rate must be > 0"))
    /\ (audio <> [] -> (0 < sample_rate)%Z ->
        (exists rate, B64.py_float_of_int sample_rate = Ok rate) ->
        is_nan target = true ->
        r = Raise (ValueError "cannot convert float NaN to integer"))
    /\ (forall sel meta, r = Ok (sel, meta) ->
        audio <> [] /\ (0 < sample_rate)%Z).
Proof.
  intros audio sr target min_rms msr mcr step version r.
  split; [| split; [| split]].
  - intros ->. reflexivity.
  - intros Hne Hsr. unfold r, select_best_reference_segment.
    rewrite (size_nonempty audio Hne).
    destruct (Z.leb_spec sr 0); [reflexivity | lia].
  - intros Hne Hsr [rate Hrate] Hnan. unfold r, select_best_reference_segment.
    rewrite (size_nonempty audio Hne).
    destruct (Z.leb_spec sr 0); [lia |].
    rewrite py_truediv_nonzero by lia. cbn [bind].
    unfold window_samples, samples_of_seconds. rewrite Hrate. cbn [bind].
    now rewrite py_int_nan_product.
  - intros sel meta H. apply select_inv in H.
    destruct H as (Hsize & Hsr & _). split; [| assumption].
    intros ->. now apply Hsize.
Qed.

(** A NaN target at 1000 Hz, and a negative rate. *)
Lemma select_rejects_bad_input_witness :
  select_best_reference_segment [0.5]%float 1000 nan 0.01%float 0.45%float
    0.02%float 0.5%float "v1"
  = Raise (ValueError "cannot convert float NaN to integer")
  /\ select_best_reference_segment [0.5]%float (-1) 2%float 0.01%float
       0.45%float 0.02%float 0.5%float "v1"
     = Raise (ValueError "sample_rate must be > 0").
Proof.
  destruct (select_rejects_bad_input [0.5]%float 1000%Z nan 0.01%float
              0.45%float 0.02%float 0.5%float "v1") as (_ & _ & H3 & _).
  destruct (select_rejects_bad_input [0.5]%float (-1)%Z 2%float 0.01%float
              0.45%float 0.02%float 0.5%float "v1") as (_ & H2 & _).
  split.
  - apply H3.
    + discriminate.
    + lia.
    + eexists. vm_compute. reflexivity.
    + reflexivity.
  - apply H2.
    + discriminate.
    + lia.
Defined.

(** X15. On the fast path the quality thresholds and the step are never
    consulted: when the buffer is no longer than the window, the result is
    the same for every [min_rms], [max_silence_ratio],
    [max_clipping_ratio] and [selection_step_seconds], so a short clip is
    returned with [fallback_reason = None] even when it meets none of the
    thresholds. *)
Theorem fast_path_ignores_thresholds :
  forall (audio : list float) (sample_rate : Z) (target : float)
         (version : string) (w : Z)
         (min_rms msr mcr step min_rms' msr' mcr' step' : float),
    window_samples target sample_rate (Z.of_nat (List.length audio)) = Ok w ->
    (Z.of_nat (List.length audio) <= w)%Z ->
    select_best_reference_segment audio sample_rate target min_rms msr mcr
                                  step version
    = select_best_reference_segment audio sample_rate target min_rms' msr'
                                    mcr' step' version.
Proof.
  intros audio sr target version w m s c st m' s' c' st' Hw Hle.
  unfold select_best_reference_segment.
  destruct (Z.of_nat (List.length audio) =? 0)%Z; [reflexivity |].
  destruct (sr <=? 0)%Z; [reflexivity |].
  destruct (B64.py_truediv _ sr) as [total |]; cbn [bind]; [| reflexivity].
  rewrite Hw. cbn [bind].
  destruct (Z.leb_spec (Z.of_nat (List.length audio)) w); [reflexivity | lia].
Qed.

(** One second of silence against a two-second target: returned as it is
    under thresholds no window of it could meet. *)
Lemma fast_path_ignores_thresholds_witness :
  select_best_reference_segment (repeat 0%float 10) 10 2%float 0.05%float
    0.01%float 0%float 2%float "v1"
  = select_best_reference_segment (repeat 0%float 10) 10 2%float 0.01%float
      0.45%float 0.02%float 0.5%float "v1"
  /\ match select_best_reference_segment (repeat 0%float 10) 10 2%float
             0.05%float 0.01%float 0%float 2%float "v1" with
     | Ok (sel, meta) => sel = repeat 0%float 10 /\ fallback_reason meta = None
     | Raise _ => False
     end.
Proof.
  split.
  - apply (fast_path_ignores_thresholds (repeat 0%float 10) 10%Z 2%float "v1"
             10%Z).
    + vm_compute. reflexivity.
    + cbn. lia.
  - vm_compute. split; reflexivity.
Defined.

(** X16. Whatever [select_best_reference_segment] returns describes the
    returned samples: they are a non-empty contiguous slice of the input,
    [selected_start_ms] and [selected_end_ms] are the truncated millisecond
    positions of its two ends, [source_duration_ms] is that of the whole
    input, the metrics are those of the returned samples (with the duration
    in seconds), and [policy_version] is the argument passed in. *)
Theorem select_result_describes_segment :
  forall (audio : list float) (sample_rate : Z)
         (target min_rms msr mcr step : float) (version : string)
         (sel : list float) (meta : SelectionMeta),
    select_best_reference_segment audio sample_rate target min_rms msr mcr
                                  step version = Ok (sel, meta) ->
    policy_version meta = version
    /\ ms_of_offset (Z.of_nat (List.length audio)) sample_rate
       = Ok (source_duration_ms meta)
    /\ metrics meta
       = set_duration
           (compute_quality_metrics sel default_silence_threshold
                                    default_clipping_threshold)
           (B64.div_Z (Z.of_nat (List.length sel)) sample_rate)
    /\ sel <> []
    /\ exists start : Z,
         (0 <= start)%Z
         /\ (start + Z.of_nat (List.length sel)
             <= Z.of_nat (List.length audio))%Z
         /\ sel = Np.slice audio start (start + Z.of_nat (List.length sel))
         /\ ms_of_offset start sample_rate = Ok (selected_start_ms meta)
         /\ ms_of_offset (start + Z.of_nat (List.length sel)) sample_rate
            = Ok (selected_end_ms meta).
Proof.
  intros audio sr target min_rms msr mcr step version sel meta Hsel.
  apply select_inv in Hsel.
  destruct Hsel as (Hsize & Hsr & w & Hw & [Hfast | Hscan]).
  - destruct Hfast as (_ & -> & ms & Hms & ->). cbn.
    split; [reflexivity |]. split; [assumption |]. split; [reflexivity |].
    split; [intros ->; now apply Hsize |].
    exists 0%Z. split; [lia |]. split; [lia |].
    split; [symmetry; apply slice_all |].
    split; [now apply ms_of_offset_zero | assumption].
  - destruct Hscan as (Hlt & st & cands & best & reason & sms & ems & src
                       & Hst & Hc & Hb & -> & Hs & He & Hsrc & ->).
    cbn [policy_version source_duration_ms metrics selected_start_ms
         selected_end_ms].
    apply choose_best_In in Hb.
    destruct (map_result_In _ _ _ Hc best Hb) as (x & Hx & Hsw).
    pose proof (score_window_metrics _ _ _ _ _ _ _ _ Hsw
                  (not_eq_sym (Z.lt_neq _ _ Hsr))) as Hm.
    apply score_window_fields in Hsw. destruct Hsw as (Es & Ee & _).
    rewrite Es, Ee in *.
    apply samples_of_seconds_pos in Hst.
    assert (Hsz : (1 <= Z.of_nat (List.length audio))%Z) by lia.
    apply (window_samples_bounds _ _ _ _ Hsz) in Hw.
    apply candidate_starts_bounds in Hx; [| lia | assumption].
    assert (Hlen : Z.of_nat (List.length (Np.slice audio x (x + w))) = w)
      by (apply slice_length; lia).
    split; [reflexivity |]. split; [assumption |]. split; [assumption |].
    split.
    { intros E. rewrite E in Hlen. cbn in Hlen. lia. }
    exists x. rewrite Hlen. repeat split; try assumption; lia.
Qed.

(** The four-second buffer of zeros scanned at 1000 Hz. *)
Lemma select_result_describes_segment_witness :
  match select_best_reference_segment (repeat 0%float 4000) 1000 2%float
          0.05%float 0.01%float 0%float 2%float "test-policy" with
  | Ok (sel, meta) =>
      policy_version meta = "test-policy"%string
      /\ metrics meta
         = set_duration
             (compute_quality_metrics sel default_silence_threshold
                                      default_clipping_threshold)
             (B64.div_Z (Z.of_nat (List.length sel)) 1000)
  | Raise _ => False
  end.
Proof.
  destruct (select_best_reference_segment (repeat 0%float 4000) 1000 2%float
              0.05%float 0.01%float 0%float 2%float "test-policy")
    as [[sel meta] | e] eqn:H.
  - destruct (select_result_describes_segment _ _ _ _ _ _ _ _ _ _ H)
      as (H1 & _ & H3 & _).
    split; assumption.
  - vm_compute in H. discriminate.
Defined.

Section EligibleFacts.

Lemma eligible_key_better c1 c2 :
  tuple3_gt (eligible_key c1) (eligible_key c2) = eligible_better c1 c2.
Proof.
  unfold eligible_key, eligible_better, tuple3_gt.
  rewrite !ne_opp, !gt_opp. reflexivity.
Qed.

Lemma filter_nonempty {X} (p : X -> bool) (l : list X) (x : X) :
  In x l -> p x = true -> filter p l <> [].
Proof.
  intros Hin Hp E.
  assert (H : In x (filter p l)) by (apply filter_In; tauto).
  rewrite E in H. destruct H.
Qed.

(** With an eligible candidate the choice is a maximum of the eligible
    candidates under the eligible key. *)
Lemma choose_best_eligible (cands : list Candidate) (c0 : Candidate) :
  In c0 cands -> cand_eligible c0 = true ->
  exists best,
    choose_best cands = Ok (best, None)
    /\ In best cands
    /\ cand_eligible best = true
    /\ forall c, In c cands -> cand_eligible c = true ->
         eligible_better c best = false.
Proof.
  intros Hin Hel. unfold choose_best.
  pose proof (filter_nonempty cand_eligible cands c0 Hin Hel) as Hne.
  destruct (filter cand_eligible cands) as [| e es] eqn:Hf; [contradiction |].
  cbn [py_max_key bind].
  assert (Hb : In (max_from tuple3_gt eligible_key e es)
                  (filter cand_eligible cands))
    by (rewrite Hf; apply max_from_In).
  apply filter_In in Hb.
  exists (max_from tuple3_gt eligible_key e es).
  split; [reflexivity |]. split; [tauto |]. split; [tauto |].
  intros c Hc Hce. rewrite <- eligible_key_better.
  apply (max_from_maximal tuple3_gt eligible_key
           tuple3_gt_irrefl tuple3_gt_trans).
  rewrite <- Hf. apply filter_In. tauto.
Qed.

End EligibleFacts.

(** X17. Scan path with at least one eligible candidate: the selector
    returns the window of an eligible candidate, with
    [fallback_reason = None]; its metrics meet the three thresholds, and no
    eligible candidate is strictly better in the order (higher score, then
    less silence, then higher RMS).  A window that fails a threshold is
    never returned while an eligible one exists. *)
Theorem eligible_window_preferred :
  forall (audio : list float) (sample_rate : Z)
         (target min_rms msr mcr step : float) (version : string)
         (w st : Z) (cands : list Candidate) (c0 : Candidate),
    audio <> [] ->
    (0 < sample_rate)%Z ->
    window_samples target sample_rate (Z.of_nat (List.length audio)) = Ok w ->
    (w < Z.of_nat (List.length audio))%Z ->
    samples_of_seconds step sample_rate = Ok st ->
    scan_candidates audio sample_rate w min_rms msr mcr st = Ok cands ->
    In c0 cands ->
    cand_eligible c0 = true ->
    exists best,
      In best cands
      /\ eligible_of (cand_metrics best) min_rms msr mcr = true
      /\ (forall c, In c cands -> cand_eligible c = true ->
            eligible_better c best = false)
      /\ select_best_reference_segment audio sample_rate target min_rms msr
                                       mcr step version
         = (start_ms <- ms_of_offset (cand_start best) sample_rate ;;
            end_ms <- ms_of_offset (cand_end best) sample_rate ;;
            source_ms <-
              ms_of_offset (Z.of_nat (List.length audio)) sample_rate ;;
            Ok (Np.slice audio (cand_start best) (cand_end best),
                {| selected_start_ms := start_ms;
                   selected_end_ms := end_ms;
                   source_duration_ms := source_ms;
                   metrics := cand_metrics best;
                   fallback_reason := None;
                   policy_version := version |})).
Proof.
  intros audio sr target min_rms msr mcr step version w st cands c0
         Hne Hsr Hw Hlt Hst Hc Hin Hel.
  destruct (choose_best_eligible cands c0 Hin Hel)
    as (best & Hb & Hbin & Hbel & Hmax).
  exists best. split; [assumption |]. split.
  { destruct (map_result_In _ _ _ Hc best Hbin) as (x & _ & Hsw).
    apply score_window_fields in Hsw. destruct Hsw as (_ & _ & E & _).
    now rewrite <- E. }
  split; [assumption |].
  unfold select_best_reference_segment, ms_of_offset.
  rewrite (size_nonempty audio Hne).
  destruct (Z.leb_spec sr 0) as [Hbad | _]; [lia |].
  rewrite !py_truediv_nonzero by lia. cbn [bind].
  rewrite Hw. cbn [bind].
  destruct (Z.leb_spec (Z.of_nat (List.length audio)) w) as [Hbad | _];
    [lia |].
  rewrite Hst. cbn [bind]. rewrite Hc. cbn [bind].
  rewrite Hb. cbn [bind].
  rewrite !py_truediv_nonzero by lia. reflexivity.
Qed.

(** Silence followed by a voiced window and a clipped one, at 4 Hz with
    one-second windows: the voiced window is the eligible one. *)
Lemma eligible_window_preferred_witness :
  let audio := [0; 0; 0; 0; 0.25; 0.5; 0.25; 0.5; 1; 1; 1; 1]%float in
  match select_best_reference_segment audio 4 1%float 0.01%float 0.45%float
          0.02%float 1%float "v1" with
  | Ok (sel, meta) =>
      sel = [0.25; 0.5; 0.25; 0.5]%float /\ fallback_reason meta = None
  | Raise _ => False
  end.
Proof.
  intros audio.
  destruct (scan_candidates audio 4 4 0.01%float 0.45%float 0.02%float 4)
    as [cands | e] eqn:Hc.
  2: { vm_compute in Hc. discriminate. }
  pose proof Hc as Hc'. vm_compute in Hc'. injection Hc' as Hc'.
  destruct (nth_error cands 1) as [c0 |] eqn:Hn.
  2: { rewrite <- Hc' in Hn. discriminate. }
  destruct (eligible_window_preferred audio 4%Z 1%float 0.01%float 0.45%float
              0.02%float 1%float "v1"%string 4%Z 4%Z cands c0)
    as (best & _ & _ & _ & Hsel).
  - discriminate.
  - lia.
  - vm_compute. reflexivity.
  - cbn. lia.
  - vm_compute. reflexivity.
  - exact Hc.
  - eapply nth_error_In. exact Hn.
  - rewrite <- Hc' in Hn. cbn in Hn. injection Hn as <-. reflexivity.
  - clear Hsel. vm_compute. split; reflexivity.
Defined.

Section StartsFacts.

Local Open Scope Z_scope.

Lemma last_nth {A} (l : list A) (d : A) :
  last l d = nth (List.length l - 1) l d.
Proof.
  induction l as [| x l IH]; [reflexivity |].
  destruct l as [| y t]; [reflexivity |].
  change (last (x :: y :: t) d) with (last (y :: t) d). rewrite IH.
  cbn [List.length].
  replace (S (S (List.length t)) - 1)%nat with (S (List.length t)) by lia.
  replace (S (List.length t) - 1)%nat with (List.length t) by lia.
  reflexivity.
Qed.

Lemma py_range_length (stop stride : Z) :
  List.length (py_range 0 stop stride)
  = Z.to_nat ((stop - 0 + stride - 1) / stride).
Proof. unfold py_range. now rewrite length_map, length_seq. Qed.

Lemma py_range_nth (stop stride : Z) (i : nat) :
  (i < List.length (py_range 0 stop stride))%nat ->
  nth i (py_range 0 stop stride) 0 = Z.of_nat i * stride.
Proof.
  intros Hi. rewrite py_range_length in Hi. unfold py_range.
  set (f := fun k : nat => 0 + Z.of_nat k * stride).
  set (n := Z.to_nat ((stop - 0 + stride - 1) / stride)) in *.
  change (nth i (map f (seq 0 n)) (f 0%nat) = Z.of_nat i * stride).
  rewrite map_nth, seq_nth by exact Hi. unfold f. cbn [Nat.add]. lia.
Qed.

(** The number of strided starts, [q], satisfies
    [(q - 1) * stride <= last_start < q * stride]. *)
Lemma stride_count (last_start stride : Z) :
  0 <= last_start -> 1 <= stride ->
  let q := (last_start + 1 - 0 + stride - 1) / stride in
  1 <= q /\ (q - 1) * stride <= last_start < q * stride.
Proof.
  intros HL Hst q. unfold q.
  replace (last_start + 1 - 0 + stride - 1) with (last_start + stride) by lia.
  pose proof (Z.mul_div_le (last_start + stride) stride ltac:(lia)) as H1.
  pose proof (Z.mul_succ_div_gt (last_start + stride) stride ltac:(lia)) as H2.
  assert (H3 : 1 <= (last_start + stride) / stride)
    by (apply Z.div_le_lower_bound; lia).
  split; [assumption | nia].
Qed.

(** The list of starts is the strided range, followed by [last_start] when
    the range does not end on it. *)
Lemma candidate_starts_form (last_start stride : Z) :
  0 <= last_start -> 1 <= stride ->
  let q := (last_start + 1 - 0 + stride - 1) / stride in
  let range := py_range 0 (last_start + 1) stride in
  List.length range = Z.to_nat q
  /\ (forall i, (i < Z.to_nat q)%nat -> nth i range 0 = Z.of_nat i * stride)
  /\ ((candidate_starts last_start stride = range
       /\ (q - 1) * stride = last_start)
      \/ (candidate_starts last_start stride = (range ++ [last_start])%list
          /\ (q - 1) * stride < last_start)).
Proof.
  intros HL Hst q range.
  destruct (stride_count last_start stride HL Hst) as (Hq1 & Hq2 & Hq3).
  fold q in Hq1, Hq2, Hq3.
  assert (Hlen : List.length range = Z.to_nat q) by apply py_range_length.
  assert (Hnth : forall i, (i < Z.to_nat q)%nat ->
                           nth i range 0 = Z.of_nat i * stride).
  { intros i Hi. apply py_range_nth. fold range. lia. }
  split; [assumption |]. split; [assumption |].
  assert (Hlast : last range 0 = (q - 1) * stride).
  { rewrite last_nth, Hlen, Hnth by lia. f_equal. lia. }
  unfold candidate_starts. fold range. rewrite Hlast.
  destruct (Z.eqb_spec ((q - 1) * stride) last_start); [now left | right].
  split; [reflexivity | lia].
Qed.

End StartsFacts.

(** X18. The start offsets of a scan, for a buffer longer than the window:
    the first is 0, the last is [last_start] (so the final window is always
    scanned), each offset is greater than the one before by at most one
    step (so no offset is scanned twice), and when the step is no longer
    than the window every sample of the buffer lies in some scanned
    window. *)
Theorem candidate_starts_cover :
  forall last_start stride : Z,
    (0 <= last_start)%Z ->
    (1 <= stride)%Z ->
    let starts := candidate_starts last_start stride in
    hd_error starts = Some 0%Z
    /\ last starts 0%Z = last_start
    /\ (forall i : nat,
          (S i < List.length starts)%nat ->
          (0 < nth (S i) starts 0 - nth i starts 0 <= stride)%Z)
    /\ (forall window j : Z,
          (stride <= window)%Z ->
          (0 <= j < last_start + window)%Z ->
          exists s, In s starts /\ (s <= j < s + window)%Z).
Proof.
  intros L st HL Hst starts.
  destruct (stride_count L st HL Hst) as (Hq1 & Hq2 & Hq3).
  destruct (candidate_starts_form L st HL Hst) as (Hlen & Hnth & Hform).
  set (q := ((L + 1 - 0 + st - 1) / st)%Z) in *.
  set (range := py_range 0 (L + 1) st) in *.
  assert (Hhd : hd_error range = Some 0%Z).
  { destruct range as [| x t] eqn:E; [cbn in Hlen; lia |].
    specialize (Hnth 0%nat ltac:(lia)). cbn in Hnth. cbn. now rewrite Hnth. }
  assert (Hsub : forall s, In s range -> In s starts).
  { intros s Hs. unfold starts.
    destruct Hform as [[-> _] | [-> _]]; [assumption |].
    apply in_or_app. now left. }
  assert (HinL : In L starts).
  { unfold starts. destruct Hform as [[E HqL] | [-> _]].
    - rewrite E. rewrite <- HqL.
      replace ((q - 1) * st)%Z with (Z.of_nat (Z.to_nat q - 1) * st)%Z
        by (f_equal; lia).
      rewrite <- Hnth by lia. apply nth_In. lia.
    - apply in_or_app. right. now left. }
  split; [| split; [| split]].
  - unfold starts. destruct Hform as [[-> _] | [-> _]]; [assumption |].
    destruct range; [discriminate | exact Hhd].
  - unfold starts. destruct Hform as [[-> HqL] | [-> _]].
    + rewrite last_nth, Hlen, Hnth by lia. rewrite <- HqL. f_equal. lia.
    + apply last_last.
  - intros i Hi. unfold starts in *.
    destruct Hform as [[E _] | [E HqL]]; rewrite E in *.
    + rewrite Hlen in Hi. rewrite !Hnth by lia. lia.
    + rewrite length_app, Hlen in Hi. cbn [List.length] in Hi.
      rewrite (app_nth1 range [L] 0%Z (n := i)) by lia.
      rewrite Hnth by lia.
      destruct (Nat.eq_dec (S i) (Z.to_nat q)) as [Eq | Hne].
      * rewrite app_nth2 by lia. rewrite Hlen, Eq, Nat.sub_diag. cbn [nth].
        assert (Z.of_nat i = q - 1)%Z by lia. nia.
      * rewrite app_nth1 by lia. rewrite Hnth by lia. lia.
  - intros w j Hw Hj.
    destruct (Z.lt_ge_cases j (q * st)) as [Hlow | Hhigh].
    + exists (j / st * st)%Z.
      pose proof (Z.mul_div_le j st ltac:(lia)) as H1.
      pose proof (Z.mul_succ_div_gt j st ltac:(lia)) as H2.
      assert (H0 : (0 <= j / st)%Z) by (apply Z.div_pos; lia).
      assert (Hi : (j / st < q)%Z) by nia.
      split; [| lia].
      apply Hsub.
      replace (j / st * st)%Z with (Z.of_nat (Z.to_nat (j / st)) * st)%Z
        by (f_equal; lia).
      rewrite <- Hnth by lia. apply nth_In. lia.
    + exists L. split; [assumption | lia].
Qed.

(** Eight positions scanned with a step of three. *)
Lemma candidate_starts_cover_witness :
  candidate_starts 7 3 = [0; 3; 6; 7]%Z
  /\ exists s, In s (candidate_starts 7 3) /\ (s <= 5 < s + 4)%Z.
Proof.
  split; [reflexivity |].
  destruct (candidate_starts_cover 7 3) as (_ & _ & _ & H); [lia | lia |].
  apply H; lia.
Defined.

(* ================================================================== *)
(** * Further properties of the quality metrics *)
(* ================================================================== *)

Section MetricsOrderFacts.

Local Open Scope float_scope.

Lemma is_nan_Prim2SF (x : float) : Prim2SF x = S754_nan -> is_nan x = true.
Proof.
  intros H. destruct (is_nan x) eqn:E; [reflexivity |].
  now apply Prim2SF_not_nan in E.
Qed.

Lemma nan_unique (x y : float) :
  is_nan x = true -> is_nan y = true -> x = y.
Proof.
  intros Hx Hy. apply Prim2SF_inj.
  now rewrite (Prim2SF_nan x Hx), (Prim2SF_nan y Hy).
Qed.

(** Two absolute values that compare equal are the same float: the sign of
    zero is gone. *)
Lemma abs_compare_eq (u v : float) :
  SFcompare (Prim2SF (abs u)) (Prim2SF (abs v)) = Some Eq -> abs u = abs v.
Proof.
  intros H. apply Prim2SF_inj. rewrite !abs_spec in *.
  destruct (Prim2SF u) as [su | su | | su mu eu],
           (Prim2SF v) as [sv | sv | | sv mv ev];
    cbn in *; try congruence.
  revert H.
  change (Pos.compare_cont Eq mu mv) with (Pos.compare mu mv).
  destruct (Z.compare_spec eu ev); try discriminate.
  destruct (Pos.compare_spec mu mv); try discriminate.
  intros _. now subst.
Qed.

Lemma ltb_irrefl (x : float) : (x <? x) = false.
Proof.
  rewrite ltb_spec. unfold SFltb.
  destruct (SFcompare (Prim2SF x) (Prim2SF x)) as [[| |] |] eqn:E;
    try reflexivity.
  pose proof (SFcompare_swap _ _ _ E) as E'. cbn in E'. congruence.
Qed.

Lemma ltb_asym (x y : float) : (x <? y) = true -> (y <? x) = false.
Proof.
  rewrite !ltb_spec. unfold SFltb.
  destruct (SFcompare (Prim2SF x) (Prim2SF y)) as [[| |] |] eqn:E;
    try discriminate.
  intros _. now rewrite (SFcompare_swap _ _ _ E).
Qed.

(** On numbers, "not less than" is transitive. *)
Lemma ltb_false_trans (a b c : float) :
  is_nan a = false -> is_nan b = false -> is_nan c = false ->
  (a <? b) = false -> (b <? c) = false -> (a <? c) = false.
Proof.
  intros Ha Hb Hc. rewrite !ltb_spec. unfold SFltb.
  destruct (SFcompare_defined _ _ (Prim2SF_not_nan a Ha) (Prim2SF_not_nan b Hb))
    as [r1 E1].
  destruct (SFcompare_defined _ _ (Prim2SF_not_nan b Hb) (Prim2SF_not_nan c Hc))
    as [r2 E2].
  rewrite E1, E2.
  destruct (SFcompare (Prim2SF a) (Prim2SF c)) as [[| |] |] eqn:E3;
    try reflexivity.
  intros H1 H2. apply SFcompare_swap in E1.
  destruct r1; try discriminate; cbn in E1.
  - rewrite (SFcompare_eq_l _ _ _ _ E1 E3) in E2.
    injection E2 as <-. discriminate.
  - rewrite (SFcompare_lt_trans _ _ _ E1 E3) in E2.
    injection E2 as <-. discriminate.
Qed.

Lemma ltb_false_both (x y : float) :
  is_nan x = false -> is_nan y = false ->
  (x <? y) = false -> (y <? x) = false ->
  SFcompare (Prim2SF x) (Prim2SF y) = Some Eq.
Proof.
  intros Hx Hy. rewrite !ltb_spec. unfold SFltb.
  destruct (SFcompare_defined _ _ (Prim2SF_not_nan x Hx) (Prim2SF_not_nan y Hy))
    as [r E].
  rewrite E, (SFcompare_swap _ _ _ E).
  destruct r; cbn; congruence.
Qed.

Lemma maximum_cases (x y : float) :
  Np.maximum x y = x \/ Np.maximum x y = y.
Proof.
  unfold Np.maximum.
  destruct (is_nan x); [now left |].
  destruct (is_nan y); [now right |].
  destruct (x <? y); [now right | now left].
Qed.

Lemma maximum_nan (x y : float) :
  is_nan x = true \/ is_nan y = true -> is_nan (Np.maximum x y) = true.
Proof.
  unfold Np.maximum. intros [H | H].
  - now rewrite H.
  - destruct (is_nan x) eqn:E; [assumption |]. now rewrite H.
Qed.

Lemma maximum_number (x y : float) :
  is_nan x = false -> is_nan y = false ->
  is_nan (Np.maximum x y) = false
  /\ (Np.maximum x y <? x) = false
  /\ (Np.maximum x y <? y) = false.
Proof.
  intros Hx Hy. unfold Np.maximum. rewrite Hx, Hy.
  destruct (x <? y) eqn:E.
  - split; [assumption |]. split; [now apply ltb_asym | apply ltb_irrefl].
  - split; [assumption |]. split; [apply ltb_irrefl | assumption].
Qed.

(** What the reduction by [np.maximum] returns: an element of the array,
    NaN when the array holds a NaN, and otherwise an element that is not
    less than any other. *)
Lemma fold_maximum_spec (t : list float) :
  forall x : float,
    let r := fold_left Np.maximum t x in
    In r (x :: t)
    /\ ((exists e, In e (x :: t) /\ is_nan e = true) -> is_nan r = true)
    /\ ((forall e, In e (x :: t) -> is_nan e = false) ->
        is_nan r = false /\ forall e, In e (x :: t) -> (r <? e) = false).
Proof.
  induction t as [| a t IH]; intros x r.
  - cbn in r. subst r. split; [now left |]. split.
    + intros (e & [<- | []] & He). exact He.
    + intros Hall. split; [apply Hall; now left |].
      intros e [<- | []]. apply ltb_irrefl.
  - cbn [fold_left] in r. specialize (IH (Np.maximum x a)).
    fold r in IH. cbv zeta in IH. destruct IH as (Hin & Hnan & Hnum).
    split; [| split].
    + destruct Hin as [E | Hin].
      * destruct (maximum_cases x a) as [Hm | Hm]; rewrite Hm in E.
        -- left. exact E.
        -- right. left. exact E.
      * right. right. exact Hin.
    + intros (e & He & Hn). apply Hnan.
      destruct He as [<- | [<- | He]].
      * exists (Np.maximum x a). split; [now left |].
        apply maximum_nan. now left.
      * exists (Np.maximum x a). split; [now left |].
        apply maximum_nan. now right.
      * exists e. split; [now right | assumption].
    + intros Hall.
      assert (Hx : is_nan x = false) by (apply Hall; now left).
      assert (Ha : is_nan a = false) by (apply Hall; right; now left).
      destruct (maximum_number x a Hx Ha) as (Hm & Hmx & Hma).
      destruct Hnum as (Hr & Hle).
      { intros e [<- | He]; [assumption |]. apply Hall. right. now right. }
      split; [assumption |].
      intros e [<- | [<- | He]].
      * apply (ltb_false_trans r (Np.maximum x a) x); try assumption.
        apply Hle. now left.
      * apply (ltb_false_trans r (Np.maximum x a) a); try assumption.
        apply Hle. now left.
      * apply Hle. now right.
Qed.

(** The peak of the absolute values does not depend on the order of the
    samples. *)
Lemma max_abs_perm (a a' : list float) :
  Permutation a a' -> Np.max (Np.abs a) = Np.max (Np.abs a').
Proof.
  intros HP. unfold Np.abs.
  assert (HP' : Permutation (map abs a) (map abs a'))
    by now apply Permutation_map.
  destruct (map abs a) as [| x t] eqn:El.
  { apply Permutation_nil in HP'. now rewrite HP'. }
  destruct (map abs a') as [| x' t'] eqn:El'.
  { apply Permutation_sym, Permutation_nil in HP'. discriminate. }
  cbn [Np.max].
  destruct (fold_maximum_spec t x) as (Hin & Hnan & Hnum).
  destruct (fold_maximum_spec t' x') as (Hin' & Hnan' & Hnum').
  set (r := fold_left Np.maximum t x) in *.
  set (r' := fold_left Np.maximum t' x') in *.
  destruct (existsb is_nan (x :: t)) eqn:Ex.
  - apply existsb_exists in Ex. destruct Ex as (e & He & Hn).
    apply nan_unique.
    + apply Hnan. now exists e.
    + apply Hnan'. exists e. split; [| assumption].
      now apply (Permutation_in _ HP').
  - assert (Hall : forall e, In e (x :: t) -> is_nan e = false).
    { intros e He. destruct (is_nan e) eqn:Hn; [| reflexivity].
      assert (Hex : existsb is_nan (x :: t) = true)
        by (apply existsb_exists; now exists e).
      congruence. }
    assert (Hall' : forall e, In e (x' :: t') -> is_nan e = false).
    { intros e He. apply Hall.
      now apply (Permutation_in _ (Permutation_sym HP')). }
    destruct (Hnum Hall) as (Hr & Hle).
    destruct (Hnum' Hall') as (Hr' & Hle').
    assert (H1 : (r <? r') = false).
    { apply Hle. now apply (Permutation_in _ (Permutation_sym HP')). }
    assert (H2 : (r' <? r) = false).
    { apply Hle'. now apply (Permutation_in _ HP'). }
    pose proof (ltb_false_both r r' Hr Hr' H1 H2) as Heq.
    rewrite <- El in Hin. rewrite <- El' in Hin'.
    apply in_map_iff in Hin. destruct Hin as (u & Eu & _).
    apply in_map_iff in Hin'. destruct Hin' as (v & Ev & _).
    rewrite <- Eu, <- Ev in *. now apply abs_compare_eq.
Qed.

(** The mean of a mask depends only on how many entries are set. *)
Lemma mean_bool_perm (m m' : list bool) :
  Permutation m m' -> Np.mean_bool m = Np.mean_bool m'.
Proof.
  intros HP. unfold Np.mean_bool.
  rewrite (Permutation_length HP).
  now rewrite (proj1 (Permutation_count_occ bool_dec m m') HP true).
Qed.

End MetricsOrderFacts.

(** X19. The duration, the silence ratio, the clipping ratio and the peak
    computed by [compute_quality_metrics] do not depend on the order of the
    samples: a reordered buffer gets the same four values, bit for bit,
    NaN samples included.  (The RMS is left out: a floating-point sum
    depends on the order of its terms.) *)
Theorem metrics_invariant_under_reordering :
  forall (audio audio' : list float) (silence_threshold clipping_threshold : float),
    Permutation audio audio' ->
    let m := compute_quality_metrics audio silence_threshold
                                     clipping_threshold in
    let m' := compute_quality_metrics audio' silence_threshold
                                      clipping_threshold in
    duration_seconds m = duration_seconds m'
    /\ silence_ratio m = silence_ratio m'
    /\ clipping_ratio m = clipping_ratio m'
    /\ peak_abs m = peak_abs m'.
Proof.
  intros audio audio' st ct HP m m'. unfold m, m', compute_quality_metrics.
  destruct audio as [| x t] eqn:Ea.
  { apply Permutation_nil in HP. rewrite HP. repeat split. }
  destruct audio' as [| x' t'] eqn:Ea'.
  { apply Permutation_sym, Permutation_nil in HP. discriminate. }
  cbn [duration_seconds silence_ratio clipping_ratio peak_abs].
  split; [| split; [| split]].
  - now rewrite (Permutation_length HP).
  - apply mean_bool_perm. unfold Np.abs. now do 2 apply Permutation_map.
  - apply mean_bool_perm. unfold Np.abs. now do 2 apply Permutation_map.
  - now apply max_abs_perm.
Qed.

(** A buffer with a negative peak and a negative zero, rotated. *)
Lemma metrics_invariant_under_reordering_witness :
  peak_abs (compute_quality_metrics [0.5; -1; -0]%float 0.01%float 0.99%float)
  = peak_abs (compute_quality_metrics [-0; 0.5; -1]%float 0.01%float
                                      0.99%float).
Proof.
  destruct (metrics_invariant_under_reordering
              [0.5; -1; -0]%float [-0; 0.5; -1]%float 0.01%float 0.99%float)
    as (_ & _ & _ & H).
  - apply Permutation_sym.
    apply (Permutation_cons_append [0.5; -1]%float (-0)%float).
  - exact H.
Defined.

(* ================================================================== *)
(** * Further properties of the policy loader *)
(* ================================================================== *)

Section LoaderEdgeFacts.

Lemma Prim2SF_infinity (x : float) :
  is_infinity x = true -> exists s, Prim2SF x = S754_infinity s.
Proof.
  unfold is_infinity. rewrite eqb_spec, abs_spec.
  change (Prim2SF infinity) with (S754_infinity false).
  destruct (Prim2SF x) as [s | s | | s m e]; cbn; try discriminate.
  intros _. now exists s.
Qed.

Lemma py_int_infinity (x : float) :
  is_infinity x = true ->
  B64.py_int x
  = Raise (OverflowError "cannot convert float infinity to integer").
Proof.
  intros H. destruct (Prim2SF_infinity x H) as [s E].
  unfold B64.py_int. now rewrite E.
Qed.

Lemma py_int_nan (x : float) :
  is_nan x = true ->
  B64.py_int x = Raise (ValueError "cannot convert float NaN to integer").
Proof.
  intros H. unfold B64.py_int. now rewrite (Prim2SF_nan x H).
Qed.

(** The loader stops with the exception of [int(policy.hard_max_seconds)]. *)
Lemma load_raises (environ : string -> option string)
      (py_float_of_str : string -> option float)
      (py_int_of_str : string -> option Z) (e : exn) :
  B64.py_int
    (Config.hard_max_seconds
       (Config.resolved_policy environ py_float_of_str py_int_of_str))
  = Raise e ->
  Config._load_voice_clone_reference_policy environ py_float_of_str
                                            py_int_of_str
  = Raise e.
Proof.
  intros H.
  unfold Config._load_voice_clone_reference_policy,
    Config._validate_voice_clone_policy.
  cbv zeta. rewrite H. reflexivity.
Qed.

Lemma default_policy_invariant :
  Config.policy_invariant Config._DEFAULT_VOICE_CLONE_POLICY = true.
Proof. vm_compute. reflexivity. Qed.

End LoaderEdgeFacts.

(** X20. When no duration, [min_rms] or step resolved from the environment
    is NaN and the hard maximum is finite, the loader returns a policy that
    satisfies the structural invariant: the resolved policy when it
    satisfies the invariant, and the default instance as a whole (never a
    mixture of the two) when it does not. *)
Theorem loaded_policy_satisfies_invariant :
  forall (environ : string -> option string)
         (py_float_of_str : string -> option float)
         (py_int_of_str : string -> option Z),
    let p := Config.resolved_policy environ py_float_of_str py_int_of_str in
    Config.ordinary p ->
    exists q,
      Config._load_voice_clone_reference_policy environ py_float_of_str
                                                py_int_of_str = Ok q
      /\ Config.policy_invariant q = true
      /\ (Config.policy_invariant p = true -> q = p)
      /\ (Config.policy_invariant p = false ->
          q = Config._DEFAULT_VOICE_CLONE_POLICY).
Proof.
  intros environ pf pi p Hp.
  pose proof (load_ordinary environ pf pi Hp) as Hload. fold p in Hload.
  destruct (Config.policy_invariant p) eqn:Hinv.
  - exists p. split; [assumption |]. split; [assumption |].
    split; [reflexivity | discriminate].
  - exists Config._DEFAULT_VOICE_CLONE_POLICY. split; [assumption |].
    split; [apply default_policy_invariant |].
    split; [discriminate | reflexivity].
Qed.

(** [VOICE_CLONE_REF_HARD_MIN_SECONDS=20] with the other variables unset:
    the hard minimum would exceed the target of 15 seconds, and the default
    instance is returned. *)
Lemma loaded_policy_satisfies_invariant_witness :
  let environ := fun name : string =>
    if String.eqb name "VOICE_CLONE_REF_HARD_MIN_SECONDS"
    then Some "20"%string else None in
  let py_float_of_str := fun raw : string =>
    if String.eqb raw "20" then Some 20%float else None in
  Config._load_voice_clone_reference_policy environ py_float_of_str
                                            (fun _ => None)
  = Ok Config._DEFAULT_VOICE_CLONE_POLICY.
Proof.
  intros environ py_float_of_str.
  destruct (loaded_policy_satisfies_invariant environ py_float_of_str
              (fun _ => None)) as (q & Hq & _ & _ & Hdef).
  - repeat split; vm_compute; reflexivity.
  - rewrite Hq, Hdef; [reflexivity | vm_compute; reflexivity].
Defined.

(** X21. A hard maximum that resolves to an infinity or to NaN is not
    replaced by the default: the validator's [int(policy.hard_max_seconds)]
    raises, nothing catches it, and the loader ends with [OverflowError]
    (infinity) or [ValueError] (NaN) whatever the other variables hold. *)
Theorem load_raises_on_unbounded_hard_max :
  forall (environ : string -> option string)
         (py_float_of_str : string -> option float)
         (py_int_of_str : string -> option Z),
    let p := Config.resolved_policy environ py_float_of_str py_int_of_str in
    (is_infinity (Config.hard_max_seconds p) = true ->
     Config._load_voice_clone_reference_policy environ py_float_of_str
                                               py_int_of_str
     = Raise (OverflowError "cannot convert float infinity to integer"))
    /\ (is_nan (Config.hard_max_seconds p) = true ->
        Config._load_voice_clone_reference_policy environ py_float_of_str
                                                  py_int_of_str
        = Raise (ValueError "cannot convert float NaN to integer")).
Proof.
  intros environ pf pi p. split; intros H; apply load_raises.
  - now apply py_int_infinity.
  - now apply py_int_nan.
Qed.

(** [VOICE_CLONE_REF_HARD_MAX_SECONDS=inf] with the other variables
    unset. *)
Lemma load_raises_on_unbounded_hard_max_witness :
  let environ := fun name : string =>
    if String.eqb name "VOICE_CLONE_REF_HARD_MAX_SECONDS"
    then Some "inf"%string else None in
  let py_float_of_str := fun raw : string =>
    if String.eqb raw "inf" then Some infinity else None in
  Config._load_voice_clone_reference_policy environ py_float_of_str
                                            (fun _ => None)
  = Raise (OverflowError "cannot convert float infinity to integer").
Proof.
  intros environ py_float_of_str.
  destruct (load_raises_on_unbounded_hard_max environ py_float_of_str
              (fun _ => None)) as (H & _).
  apply H. vm_compute. reflexivity.
Defined.

(* ================================================================== *)
(** * The selector under a threshold that is NaN, and the segment length *)
(* ================================================================== *)

Section NanThresholdFacts.

Local Open Scope float_scope.

Lemma leb_nan_l (x y : float) : is_nan x = true -> (x <=? y) = false.
Proof.
  intros H. rewrite leb_spec, (Prim2SF_nan x H). reflexivity.
Qed.

Lemma leb_nan_r (x y : float) : is_nan y = true -> (x <=? y) = false.
Proof.
  intros H. rewrite leb_spec, (Prim2SF_nan y H).
  now destruct (Prim2SF x).
Qed.

(** No window is eligible against a threshold that is NaN. *)
Lemma eligible_of_nan_threshold (m : QualityMetrics float)
      (min_rms msr mcr : float) :
  is_nan min_rms = true \/ is_nan msr = true \/ is_nan mcr = true ->
  eligible_of m min_rms msr mcr = false.
Proof.
  unfold eligible_of. cbn [f_leb Arith_b64].
  intros [H | [H | H]].
  - now rewrite (leb_nan_l _ _ H).
  - rewrite (leb_nan_r _ _ H). apply andb_false_iff. left.
    apply andb_false_r.
  - rewrite (leb_nan_r _ _ H). apply andb_false_r.
Qed.

End NanThresholdFacts.

(** X22. With [min_rms], [max_silence_ratio] or [max_clipping_ratio] equal
    to NaN (a value the policy loader lets through), no window is eligible:
    whenever the selector scans and returns, it returns through the
    fallback, with [fallback_reason =
    "no_segment_met_quality_thresholds"]. *)
Theorem nan_threshold_forces_fallback :
  forall (audio : list float) (sample_rate : Z)
         (target min_rms msr mcr step : float) (version : string)
         (w : Z) (sel : list float) (meta : SelectionMeta),
    is_nan min_rms = true \/ is_nan msr = true \/ is_nan mcr = true ->
    window_samples target sample_rate (Z.of_nat (List.length audio)) = Ok w ->
    (w < Z.of_nat (List.length audio))%Z ->
    select_best_reference_segment audio sample_rate target min_rms msr mcr
                                  step version = Ok (sel, meta) ->
    fallback_reason meta = Some no_segment_met_quality_thresholds.
Proof.
  intros audio sr target min_rms msr mcr step version w sel meta
         Hnan Hw Hlt Hsel.
  apply select_inv in Hsel.
  destruct Hsel as (_ & _ & w' & Hw' & [Hfast | Hscan]).
  - rewrite Hw in Hw'. injection Hw' as <-. destruct Hfast as (Hle & _). lia.
  - destruct Hscan as (_ & st & cands & best & reason & sms & ems & src
                       & _ & Hc & Hb & _ & _ & _ & _ & ->).
    cbn [fallback_reason].
    assert (Hall : forall c, In c cands -> cand_eligible c = false).
    { intros c Hin.
      destruct (map_result_In _ _ _ Hc c Hin) as (x & _ & Hsw).
      apply score_window_fields in Hsw. destruct Hsw as (_ & _ & E & _).
      rewrite E. now apply eligible_of_nan_threshold. }
    unfold choose_best in Hb. rewrite (filter_none _ _ Hall) in Hb.
    destruct (py_max_key tuple3_gt fallback_key cands) as [b |];
      cbn [bind] in Hb; [| discriminate].
    now injection Hb as _ <-.
Qed.

(** Three one-second windows at 4 Hz, the middle one voiced, scanned with
    [min_rms = nan]. *)
Lemma nan_threshold_forces_fallback_witness :
  match select_best_reference_segment
          [0; 0; 0; 0; 0.25; 0.5; 0.25; 0.5; 1; 1; 1; 1]%float 4 1%float nan
          0.45%float 0.02%float 1%float "v1" with
  | Ok (sel, meta) =>
      fallback_reason meta = Some no_segment_met_quality_thresholds
  | Raise _ => False
  end.
Proof.
  destruct (select_best_reference_segment
              [0; 0; 0; 0; 0.25; 0.5; 0.25; 0.5; 1; 1; 1; 1]%float 4 1%float
              nan 0.45%float 0.02%float 1%float "v1")
    as [[sel meta] | e] eqn:H.
  - apply (nan_threshold_forces_fallback
             [0; 0; 0; 0; 0.25; 0.5; 0.25; 0.5; 1; 1; 1; 1]%float 4%Z 1%float
             nan 0.45%float 0.02%float 1%float "v1" 4%Z sel meta).
    + left. reflexivity.
    + vm_compute. reflexivity.
    + cbn. lia.
    + exact H.
  - vm_compute in H. discriminate.
Defined.

(** X23. The segment the selector returns has exactly the window length
    [min(max(1, int(target * sample_rate)), len(audio))] in samples: never
    empty, never longer than the input, and never longer than the
    target window. *)
Theorem selected_length_is_window :
  forall (audio : list float) (sample_rate : Z)
         (target min_rms msr mcr step : float) (version : string)
         (sel : list float) (meta : SelectionMeta),
    select_best_reference_segment audio sample_rate target min_rms msr mcr
                                  step version = Ok (sel, meta) ->
    exists n : Z,
      samples_of_seconds target sample_rate = Ok n
      /\ Z.of_nat (List.length sel)
         = Z.min n (Z.of_nat (List.length audio))
      /\ (1 <= Z.of_nat (List.length sel) <= Z.of_nat (List.length audio))%Z.
Proof.
  intros audio sr target min_rms msr mcr step version sel meta Hsel.
  apply select_inv in Hsel.
  destruct Hsel as (Hsize & Hsr & w & Hw & Hpath).
  assert (Hsz : (1 <= Z.of_nat (List.length audio))%Z) by lia.
  pose proof (window_samples_bounds _ _ _ _ Hsz Hw) as Hb.
  unfold window_samples in Hw.
  destruct (samples_of_seconds target sr) as [n |] eqn:Hn;
    cbn [bind] in Hw; [| discriminate].
  injection Hw as Hw.
  exists n. split; [reflexivity |].
  destruct Hpath as [Hfast | Hscan].
  - destruct Hfast as (Hle & -> & _). lia.
  - destruct Hscan as (Hlt & st & cands & best & reason & sms & ems & src
                       & Hst & Hc & Hch & -> & _).
    apply choose_best_In in Hch.
    destruct (map_result_In _ _ _ Hc best Hch) as (x & Hx & Hsw).
    apply score_window_fields in Hsw. destruct Hsw as (Es & Ee & _).
    rewrite Es, Ee.
    apply samples_of_seconds_pos in Hst.
    apply candidate_starts_bounds in Hx; [| lia | assumption].
    rewrite slice_length by lia. lia.
Qed.

(** Twelve samples at 4 Hz with a one-second target: four samples come
    back. *)
Lemma selected_length_is_window_witness :
  match select_best_reference_segment
          [0; 0; 0; 0; 0.25; 0.5; 0.25; 0.5; 1; 1; 1; 1]%float 4 1%float
          0.01%float 0.45%float 0.02%float 1%float "v1" with
  | Ok (sel, meta) => Z.of_nat (List.length sel) = 4%Z
  | Raise _ => False
  end.
Proof.
  destruct (select_best_reference_segment
              [0; 0; 0; 0; 0.25; 0.5; 0.25; 0.5; 1; 1; 1; 1]%float 4 1%float
              0.01%float 0.45%float 0.02%float 1%float "v1")
    as [[sel meta] | e] eqn:H.
  - destruct (selected_length_is_window _ _ _ _ _ _ _ _ _ _ H)
      as (n & Hn & Hlen & _).
    vm_compute in Hn. injection Hn as <-. exact Hlen.
  - vm_compute in H. discriminate.
Defined.
